(** * NinjaHorizon WebSocket relay: rooms, registry and message dispatch

    A shallow embedding of [src/server.ts] (classes [GameRoom] and
    [GameServer]) and the properties of its join / relay / disconnect
    protocol.

    The server is dynamically typed where it matters: the fields of an inbound
    message are [any], and [roomId] / [playerId] flow unchecked from the
    message into the two [Map]s and into the log lines.  The embedding
    therefore works on JavaScript values, with the conversions the code
    relies on written out: truthiness ([!x]), string conversion (template
    literals), [Map] key equality (SameValueZero) and [JSON.stringify].

    - [rooms] and a room's [players] are [Map]s that are iterated or keyed by
      arbitrary values: association lists in insertion order.  [clients] is
      keyed by socket and never iterated: a [gmap].
    - A method is a function from the object it runs on to a completion
      (normal, or a thrown error), the mutated object, and the console lines
      and socket writes it made; a throw keeps the mutations made before it.
    - The transport is the environment: an [event] is one callback invocation
      and carries what the transport supplies with it (the new socket and its
      uuid, the decoded frame, the close code), together with the
      [readyState] of the sockets at that moment. *)

From stdpp Require Import gmap strings list.
From Stdlib Require Import String.

Open Scope string_scope.
Open Scope list_scope.
Set Warnings "-register-all".

(** ** JavaScript values *)

(** A socket handle ([ws]); the transport owns the object, the server only
    compares handles and reads [readyState]. *)
Definition conn := nat.

Inductive ReadyState := CONNECTING | OPEN | CLOSING | CLOSED.

Definition ReadyState_eqb (a b : ReadyState) : bool :=
  match a, b with
  | CONNECTING, CONNECTING | OPEN, OPEN | CLOSING, CLOSING | CLOSED, CLOSED => true
  | _, _ => false
  end.

(** The values a decoded frame is made of.  A number is carried by its
    canonical rendering ([Number::toString]: ["0"] for both zeros, ["NaN"],
    ["1e+21"], ...), which is all the server ever does with one: print it,
    test it for truth, and use it as a map key.  Arrays and objects carry the
    identity of their allocation ([ref]); [props] lists the own properties
    of an object in enumeration order. *)
Inductive value :=
| VUndefined
| VNull
| VBool (b : bool)
| VNum (repr : string)
| VStr (s : string)
| VArr (ref : nat) (elems : list value)
| VObj (ref : nat) (props : list (string * value)).

Inductive exn :=
| SyntaxError
| TypeError (what : string).

(** [!v] is [negb (truthy v)]. *)
Definition truthy (v : value) : bool :=
  match v with
  | VUndefined | VNull => false
  | VBool b => b
  | VNum r => negb (String.eqb r "0" || String.eqb r "NaN")
  | VStr s => negb (String.eqb s "")
  | VArr _ _ | VObj _ _ => true
  end.

(** SameValueZero, the key equality of [Map]: by value on primitives, by
    identity on arrays and objects. *)
Definition same_value_zero (x y : value) : bool :=
  match x, y with
  | VUndefined, VUndefined | VNull, VNull => true
  | VBool a, VBool b => Bool.eqb a b
  | VNum a, VNum b => String.eqb a b
  | VStr a, VStr b => String.eqb a b
  | VArr r _, VArr r' _ => Nat.eqb r r'
  | VObj r _, VObj r' _ => Nat.eqb r r'
  | _, _ => false
  end.

(** [===], used by [switch] and by [Array.prototype.indexOf]: as above but
    NaN differs from itself. *)
Definition strict_equals (x y : value) : bool :=
  match x, y with
  | VNum a, VNum b => String.eqb a b && negb (String.eqb a "NaN")
  | _, _ => same_value_zero x y
  end.

Fixpoint own_property (k : string) (props : list (string * value)) : option value :=
  match props with
  | [] => None
  | (k', v) :: rest => if String.eqb k' k then Some v else own_property k rest
  end.

Fixpoint join_comma (l : list string) : string :=
  match l with
  | [] => ""
  | [s] => s
  | s :: rest => s +:+ "," +:+ join_comma rest
  end.

(** ToString, as a template literal applies it; [None] is the TypeError
    "Cannot convert object to primitive value".  No property of a decoded
    object is callable, so an own ["toString"] property hides
    [Object.prototype.toString] and the fallback [valueOf] returns the object
    itself: the conversion fails.  An array goes through
    [Array.prototype.join], which prints null and undefined elements as the
    empty string and converts the others. *)
Fixpoint to_string (v : value) : option string :=
  match v with
  | VUndefined => Some "undefined"
  | VNull => Some "null"
  | VBool true => Some "true"
  | VBool false => Some "false"
  | VNum r => Some r
  | VStr s => Some s
  | VArr _ elems =>
      option_map join_comma
        ((fix each (l : list value) : option (list string) :=
            match l with
            | [] => Some []
            | x :: rest =>
                match (match x with
                       | VUndefined | VNull => Some ""
                       | _ => to_string x
                       end), each rest with
                | Some s, Some ss => Some (s :: ss)
                | _, _ => None
                end
            end) elems)
  | VObj _ props =>
      match own_property "toString" props with
      | Some _ => None
      | None => Some "[object Object]"
      end
  end.

(** ** JSON text, by its document tree *)

Inductive json :=
| JNull
| JBool (b : bool)
| JNum (repr : string)
| JStr (s : string)
| JArr (elems : list json)
| JObj (members : list (string * json)).

Definition finite_number (r : string) : bool :=
  negb (String.eqb r "NaN" || String.eqb r "Infinity" || String.eqb r "-Infinity").

(** [JSON.stringify]: [None] is the result [undefined].  A property whose
    value is undefined is left out; an undefined array element prints as
    null; a non-finite number prints as null. *)
Fixpoint JSON_stringify (v : value) : option json :=
  match v with
  | VUndefined => None
  | VNull => Some JNull
  | VBool b => Some (JBool b)
  | VNum r => Some (if finite_number r then JNum r else JNull)
  | VStr s => Some (JStr s)
  | VArr _ elems =>
      Some (JArr ((fix each (l : list value) : list json :=
                     match l with
                     | [] => []
                     | x :: rest =>
                         match JSON_stringify x with
                         | Some j => j :: each rest
                         | None => JNull :: each rest
                         end
                     end) elems))
  | VObj _ props =>
      Some (JObj ((fix each (l : list (string * value)) : list (string * json) :=
                     match l with
                     | [] => []
                     | (k, x) :: rest =>
                         match JSON_stringify x with
                         | Some j => (k, j) :: each rest
                         | None => each rest
                         end
                     end) props))
  end.

(** ** Effects, completions and the handler monad *)

(** What a handler does to the outside: a console line, or a text frame
    written to a socket. *)
Inductive effect :=
| ConsoleLog (args : list value)
| ConsoleError (label : string) (error : exn)
| WsSend (ws : conn) (data : json).

Inductive completion (A : Type) :=
| Normal (a : A)
| Throw (e : exn).
Arguments Normal {A} a.
Arguments Throw {A} e.

(** A method running on a mutable [this] of type [S]: it completes normally
    or abruptly, and either way leaves the mutations and the output it made so
    far. *)
Definition M (S A : Type) : Type := S -> completion A * S * list effect.

#[global] Instance M_ret {S} : MRet (M S) := fun A a s => (Normal a, s, []).

#[global] Instance M_bind {S} : MBind (M S) := fun A B f m s =>
  match m s with
  | (Normal a, s1, out1) => let '(c, s2, out2) := f a s1 in (c, s2, out1 ++ out2)
  | (Throw e, s1, out1) => (Throw e, s1, out1)
  end.

Definition gets {S A} (f : S -> A) : M S A := fun s => (Normal (f s), s, []).
Definition modify {S} (f : S -> S) : M S () := fun s => (Normal (), f s, []).
Definition throw {S A} (e : exn) : M S A := fun s => (Throw e, s, []).
Definition emit {S} (e : effect) : M S () := fun s => (Normal (), s, [e]).
Definition lift_completion {S A} (c : completion A) : M S A := fun s => (c, s, []).

Definition try_catch {S A} (body : M S A) (handler : exn -> M S A) : M S A := fun s =>
  match body s with
  | (Normal a, s1, out1) => (Normal a, s1, out1)
  | (Throw e, s1, out1) => let '(c, s2, out2) := handler e s1 in (c, s2, out1 ++ out2)
  end.

Fixpoint forEach {S A} (l : list A) (callback : A -> M S ()) : M S () :=
  match l with
  | [] => mret ()
  | x :: rest => callback x;; forEach rest callback
  end.

(** Falling through an [if] without [else]. *)
Definition pass {S} : M S () := mret ().

Definition console_log {S} (args : list value) : M S () := emit (ConsoleLog args).
Definition console_error {S} (label : string) (error : exn) : M S () := emit (ConsoleError label error).

Definition cannot_convert : exn := TypeError "Cannot convert object to primitive value".

Fixpoint render (pieces : list value) : option string :=
  match pieces with
  | [] => Some ""
  | p :: rest =>
      match to_string p, render rest with
      | Some s, Some r => Some (s +:+ r)
      | _, _ => None
      end
  end.

(** A template literal; the literal chunks are given as [VStr]. *)
Definition template {S} (pieces : list value) : M S string :=
  match render pieces with
  | Some line => mret line
  | None => throw cannot_convert
  end.

(** [v.k] for the property names the server reads ([type], [roomId],
    [playerId], [displayName], [message]): none is defined by a built-in
    prototype, an array index or [length], so the read finds an own property
    of an object or nothing; on null and undefined it throws. *)
Definition get_prop (v : value) (k : string) : completion value :=
  match v with
  | VUndefined | VNull => Throw (TypeError "Cannot read properties of null or undefined")
  | VObj _ props => Normal (default VUndefined (own_property k props))
  | _ => Normal VUndefined
  end.

(** An object literal built by a handler.  It is only ever serialized, so its
    identity is never observed. *)
Definition object_literal (props : list (string * value)) : value := VObj 0 props.

Definition optional {A} (inj : A -> value) (o : option A) : value :=
  match o with Some a => inj a | None => VUndefined end.

(** ** [Map] with value keys, in insertion order *)

Module JsMap.
Section ops.
Context {V : Type}.

Fixpoint get (k : value) (m : list (value * V)) : option V :=
  match m with
  | [] => None
  | (k', v) :: rest => if same_value_zero k' k then Some v else get k rest
  end.

Definition has (k : value) (m : list (value * V)) : bool :=
  match get k m with Some _ => true | None => false end.

(** An existing entry keeps its key and its place; a new one goes last. *)
Fixpoint set (k : value) (v : V) (m : list (value * V)) : list (value * V) :=
  match m with
  | [] => [(k, v)]
  | (k', v') :: rest =>
      if same_value_zero k' k then (k', v) :: rest else (k', v') :: set k v rest
  end.

(** A [Map] holds a key once; [delete] drops whatever entry has it. *)
Definition delete (k : value) (m : list (value * V)) : list (value * V) :=
  List.filter (fun e => negb (same_value_zero (fst e) k)) m.

Definition size (m : list (value * V)) : nat := List.length m.
End ops.
End JsMap.

(** [Array.prototype.indexOf] and [splice(index, 1)]. *)
Fixpoint indexOf (x : value) (l : list value) : Z :=
  match l with
  | [] => (-1)%Z
  | y :: rest =>
      if strict_equals y x then 0%Z
      else let i := indexOf x rest in if (i >? -1)%Z then (i + 1)%Z else (-1)%Z
  end.

Fixpoint splice1 (index : nat) (l : list value) : list value :=
  match index, l with
  | _, [] => []
  | O, _ :: rest => rest
  | S i, y :: rest => y :: splice1 i rest
  end.

(** ** The program: [interface ClientInfo], [interface Player] *)

Module ClientInfo.
Record t := mk { id : string; roomId : value; playerId : value }.
End ClientInfo.

Module Player.
Record t := mk { ws : conn; clientId : string }.
End Player.

(** ** [class GameRoom] *)

Module GameRoom.
Record t := mk {
  id : value;
  players : list (value * Player.t);
  playerIds : list value
}.

Definition new (id : value) : t := mk id [] [].

(** [readyState] belongs to the transport; the methods that look at it
    take the current reading [rs] of every socket. *)
Definition broadcastToRoom (rs : conn -> ReadyState) (message : value) (excludeWs : option conn)
  : M t () :=
  players ← gets players;
  forEach players (fun entry =>
    let player := snd entry in
    if negb (bool_decide (Some (Player.ws player) = excludeWs))
       && ReadyState_eqb (rs (Player.ws player)) OPEN
    then
      match JSON_stringify message with
      | Some data => emit (WsSend (Player.ws player) data)
      | None => throw (TypeError "The data argument must be a string")
      end
    else pass).

Definition addPlayer (rs : conn -> ReadyState) (ws : conn) (clientId : string) (playerId : value)
  : M t () :=
  modify (fun this => mk (id this) (JsMap.set playerId (Player.mk ws clientId) (players this)) (playerIds this));;
  modify (fun this => mk (id this) (players this) (playerIds this ++ [playerId]));;
  size ← gets (fun this => JsMap.size (players this));
  if Nat.eqb size 2 then
    broadcastToRoom rs (object_literal [("type", VStr "game_started")]) None
  else pass.

Definition removePlayer (playerId : value) : M t () :=
  modify (fun this => mk (id this) (JsMap.delete playerId (players this)) (playerIds this));;
  index ← gets (fun this => indexOf playerId (playerIds this));
  if (index >? -1)%Z then
    modify (fun this => mk (id this) (players this) (splice1 (Z.to_nat index) (playerIds this)))
  else pass.

Definition hasPlayer (playerId : value) : M t bool :=
  gets (fun this => JsMap.has playerId (players this)).

Definition getPlayerCount : M t nat :=
  gets (fun this => JsMap.size (players this)).

Definition isFull : M t bool :=
  gets (fun this => Nat.leb 2 (JsMap.size (players this))).
End GameRoom.

(** ** [class GameServer] *)

Module GameServer.
(** [port] and [wss] play no part in the handlers and are left out. *)
Record t := mk {
  rooms : list (value * GameRoom.t);
  clients : gmap conn ClientInfo.t
}.

Definition new : t := mk [] ∅.

(** A method call on the room object stored under [roomId]; the object is
    shared with the table, so what the method does to it shows there.
    Calling through a missing room is the TypeError of [undefined.method()]. *)
Definition on_room {A} (roomId : value) (method : M GameRoom.t A) : M t A := fun this =>
  match JsMap.get roomId (rooms this) with
  | Some room =>
      let '(c, room', out) := method room in
      (c, mk (JsMap.set roomId room' (rooms this)) (clients this), out)
  | None => (Throw (TypeError "Cannot read properties of undefined"), this, [])
  end.

Definition handleJoinRoom (rs : conn -> ReadyState) (ws : conn) (roomId playerId : value) : M t () :=
  clientInfo ← gets (fun this => clients this !! ws);
  match clientInfo with
  | None => pass
  | Some clientInfo =>
      if negb (truthy roomId) || negb (truthy playerId) then
        console_log [VStr "roomId and playerId are required"]
      else
        known ← gets (fun this => JsMap.has roomId (rooms this));
        (if negb (known : bool) then
           modify (fun this => mk (JsMap.set roomId (GameRoom.new roomId) (rooms this)) (clients this));;
           line ← template [VStr "Room "; roomId; VStr " created"];
           console_log [VStr line]
         else pass);;
        already ← on_room roomId (GameRoom.hasPlayer playerId);
        if (already : bool) then
          line ← template [VStr "Player "; playerId; VStr " already in room "; roomId;
                           VStr " - ignoring join request"];
          console_log [VStr line]
        else
          on_room roomId (GameRoom.addPlayer rs ws (ClientInfo.id clientInfo) playerId);;
          modify (fun this => mk (rooms this)
            (alter (fun info => ClientInfo.mk (ClientInfo.id info) roomId (ClientInfo.playerId info))
                   ws (clients this)));;
          modify (fun this => mk (rooms this)
            (alter (fun info => ClientInfo.mk (ClientInfo.id info) (ClientInfo.roomId info) playerId)
                   ws (clients this)));;
          line ← template [VStr "Player "; playerId; VStr " joined room "; roomId];
          console_log [VStr line]
  end.

(** The three relays differ in their log lines and in the message built. *)
Definition handleChat (rs : conn -> ReadyState) (ws : conn) (message : value) : M t () :=
  clientInfo ← gets (fun this => clients this !! ws);
  match clientInfo with
  | None => console_log [VStr "Cannot send chat - not in any room"]
  | Some clientInfo =>
      if negb (truthy (ClientInfo.roomId clientInfo)) then
        console_log [VStr "Cannot send chat - not in any room"]
      else
        room ← gets (fun this => JsMap.get (ClientInfo.roomId clientInfo) (rooms this));
        match room with
        | None => console_log [VStr "Cannot send chat - room not found"]
        | Some _ =>
            displayName ← lift_completion (get_prop message "displayName");
            text ← lift_completion (get_prop message "message");
            line ← template [VStr "Chat from "; displayName; VStr " (";
                             ClientInfo.playerId clientInfo; VStr "): "; text];
            console_log [VStr line];;
            on_room (ClientInfo.roomId clientInfo)
              (GameRoom.broadcastToRoom rs
                 (object_literal [("type", VStr "chat");
                                  ("playerId", ClientInfo.playerId clientInfo);
                                  ("displayName", displayName);
                                  ("message", text)])
                 None)
        end
  end.

Definition handleActionComplete (rs : conn -> ReadyState) (ws : conn) (message : value) : M t () :=
  clientInfo ← gets (fun this => clients this !! ws);
  match clientInfo with
  | None => console_log [VStr "Not in any room"]
  | Some clientInfo =>
      if negb (truthy (ClientInfo.roomId clientInfo)) then
        console_log [VStr "Not in any room"]
      else
        room ← gets (fun this => JsMap.get (ClientInfo.roomId clientInfo) (rooms this));
        match room with
        | None => console_log [VStr "Room not found"]
        | Some _ =>
            line ← template [VStr "Player "; ClientInfo.playerId clientInfo;
                             VStr " completed action"];
            console_log [VStr line];;
            on_room (ClientInfo.roomId clientInfo)
              (GameRoom.broadcastToRoom rs
                 (object_literal [("type", VStr "action_complete");
                                  ("playerId", ClientInfo.playerId clientInfo)])
                 None)
        end
  end.

Definition handleGameOver (rs : conn -> ReadyState) (ws : conn) (message : value) : M t () :=
  clientInfo ← gets (fun this => clients this !! ws);
  match clientInfo with
  | None => console_log [VStr "Not in any room"]
  | Some clientInfo =>
      if negb (truthy (ClientInfo.roomId clientInfo)) then
        console_log [VStr "Not in any room"]
      else
        room ← gets (fun this => JsMap.get (ClientInfo.roomId clientInfo) (rooms this));
        match room with
        | None => console_log [VStr "Room not found"]
        | Some _ =>
            line ← template [VStr "Player "; ClientInfo.playerId clientInfo;
                             VStr " reported game over"];
            console_log [VStr line];;
            on_room (ClientInfo.roomId clientInfo)
              (GameRoom.broadcastToRoom rs
                 (object_literal [("type", VStr "game_over");
                                  ("playerId", ClientInfo.playerId clientInfo)])
                 None)
        end
  end.

Definition handlePlayerDisconnect (rs : conn -> ReadyState) (roomId disconnectedPlayerId : value)
  : M t () :=
  room ← gets (fun this => JsMap.get roomId (rooms this));
  match room with
  | None =>
      line ← template [VStr "Room "; roomId; VStr " not found during disconnect"];
      console_log [VStr line]
  | Some _ =>
      on_room roomId
        (GameRoom.broadcastToRoom rs
           (object_literal [("type", VStr "disconnect"); ("playerId", disconnectedPlayerId)])
           None);;
      on_room roomId (GameRoom.removePlayer disconnectedPlayerId);;
      line ← template [VStr "Player "; disconnectedPlayerId; VStr " removed from room "; roomId;
                       VStr " due to disconnect"];
      console_log [VStr line];;
      count ← on_room roomId GameRoom.getPlayerCount;
      if Nat.eqb count 0 then
        modify (fun this => mk (JsMap.delete roomId (rooms this)) (clients this));;
        line ← template [VStr "Room "; roomId; VStr " deleted (empty after disconnect)"];
        console_log [VStr line]
      else pass
  end.

(** [closeCode] is a number (by its rendering), [reason] a string; both are
    optional parameters. *)
Definition handleDisconnect (rs : conn -> ReadyState) (ws : conn)
    (closeCode : option string) (reason : option string) : M t () :=
  clientInfo ← gets (fun this => clients this !! ws);
  match clientInfo with
  | Some clientInfo =>
      line ← template [VStr "Client "; VStr (ClientInfo.id clientInfo); VStr " (Player: ";
                       ClientInfo.playerId clientInfo; VStr ") disconnected - Code: ";
                       optional VNum closeCode; VStr ", Reason: "; optional VStr reason];
      console_log [VStr line];;
      (if truthy (ClientInfo.roomId clientInfo) && truthy (ClientInfo.playerId clientInfo) then
         line ← template [VStr "Player "; ClientInfo.playerId clientInfo;
                          VStr " disconnected from room "; ClientInfo.roomId clientInfo;
                          VStr " - opponent wins"];
         console_log [VStr line];;
         handlePlayerDisconnect rs (ClientInfo.roomId clientInfo) (ClientInfo.playerId clientInfo)
       else pass);;
      modify (fun this => mk (rooms this) (delete ws (clients this)))
  | None => pass
  end.

Definition handleMessage (rs : conn -> ReadyState) (ws : conn) (message : value) : M t () :=
  clientInfo ← gets (fun this => clients this !! ws);
  match clientInfo with
  | None => pass
  | Some clientInfo =>
      line ← template [VStr "Received message from "; VStr (ClientInfo.id clientInfo); VStr ":"];
      console_log [VStr line; message];;
      type ← lift_completion (get_prop message "type");
      if strict_equals type (VStr "join_room") then
        roomId ← lift_completion (get_prop message "roomId");
        playerId ← lift_completion (get_prop message "playerId");
        handleJoinRoom rs ws roomId playerId
      else if strict_equals type (VStr "chat") then handleChat rs ws message
      else if strict_equals type (VStr "game_over") then handleGameOver rs ws message
      else if strict_equals type (VStr "action_complete") then handleActionComplete rs ws message
      else
        line ← template [VStr "Unknown message type: "; type];
        console_log [VStr line]
  end.

Definition sendMessage (rs : conn -> ReadyState) (ws : conn) (message : value) : M t () :=
  if ReadyState_eqb (rs ws) OPEN then
    match JSON_stringify message with
    | Some data => emit (WsSend ws data)
    | None => throw (TypeError "The data argument must be a string")
    end
  else pass.

(** *** [setupWebSocketServer]: the callbacks of a connection *)

(** What [JSON.parse(data.toString())] makes of a text frame: a SyntaxError,
    or the decoded value. *)
Inductive frame := Malformed | Decodes (message : value).

Definition JSON_parse (data : frame) : completion value :=
  match data with
  | Malformed => Throw SyntaxError
  | Decodes message => Normal message
  end.

(** [wss.on('connection', ...)]; [clientId] is the result of [uuidv4()]. *)
Definition on_connection (ws : conn) (clientId : string) : M t () :=
  console_log [VStr "New client connected"];;
  modify (fun this => mk (rooms this) (<[ws := ClientInfo.mk clientId VNull VNull]> (clients this))).

Definition on_message (rs : conn -> ReadyState) (ws : conn) (data : frame) : M t () :=
  try_catch
    (message ← lift_completion (JSON_parse data);
     handleMessage rs ws message)
    (fun error => console_error "Error parsing message:" error).

Definition on_close (rs : conn -> ReadyState) (ws : conn) (code : string) (reason : string) : M t () :=
  handleDisconnect rs ws (Some code) (Some reason).

Definition on_error (ws : conn) (error : exn) : M t () :=
  console_error "WebSocket error:" error.
End GameServer.

(** ** The event loop *)

(** One callback invocation, with the state of the sockets at that moment. *)
Inductive event :=
| Connection (ws : conn) (clientId : string)
| Message (rs : conn -> ReadyState) (ws : conn) (data : GameServer.frame)
| Close (rs : conn -> ReadyState) (ws : conn) (code : string) (reason : string)
| Error (ws : conn) (error : exn).

Definition dispatch (e : event) : M GameServer.t () :=
  match e with
  | Connection ws clientId => GameServer.on_connection ws clientId
  | Message rs ws data => GameServer.on_message rs ws data
  | Close rs ws code reason => GameServer.on_close rs ws code reason
  | Error ws error => GameServer.on_error ws error
  end.

(** Callbacks run to completion one after the other; an exception that leaves
    a callback is uncaught and ends the process. *)
Fixpoint run (events : list event) : M GameServer.t () :=
  match events with
  | [] => mret ()
  | e :: rest => dispatch e;; run rest
  end.

Definition state_after (events : list event) : GameServer.t := snd (fst (run events GameServer.new)).
Definition output_of (events : list event) : list effect := snd (run events GameServer.new).

Definition all_open : conn -> ReadyState := fun _ => OPEN.

(** Every socket open except [w], which has closed. *)
Definition closed_only (w : conn) : conn -> ReadyState :=
  fun x => if Nat.eqb x w then CLOSED else OPEN.


Definition join_room (roomId playerId : string) : GameServer.frame :=
  GameServer.Decodes (VObj 0 [("type", VStr "join_room"); ("roomId", VStr roomId); ("playerId", VStr playerId)]).

(** * Notions used in the statements *)

(** ** Results and output *)

Definition completion_of {S A} (r : completion A * S * list effect) : completion A := r.1.1.
Definition final {S A} (r : completion A * S * list effect) : S := r.1.2.
Definition output {S A} (r : completion A * S * list effect) : list effect := r.2.

(** The frames written to sockets, in order. *)
Definition sends (out : list effect) : list (conn * json) :=
  flat_map (fun e => match e with WsSend ws data => [(ws, data)] | _ => [] end) out.

(** The sockets a broadcast writes to: one per member entry, in join order,
    whose socket is not the excluded one and is open. *)
Definition recipients (rs : conn -> ReadyState) (excludeWs : option conn)
    (players : list (value * Player.t)) : list conn :=
  List.filter
    (fun w => negb (bool_decide (Some w = excludeWs)) && ReadyState_eqb (rs w) OPEN)
    (List.map (fun entry => Player.ws (snd entry)) players).

(** ** Rooms and server after a join or a leave *)

(** The room object after [removePlayer(playerId)]. *)
Definition room_without (playerId : value) (room : GameRoom.t) : GameRoom.t :=
  GameRoom.mk (GameRoom.id room)
    (JsMap.delete playerId (GameRoom.players room))
    (if (indexOf playerId (GameRoom.playerIds room) >? -1)%Z
     then splice1 (Z.to_nat (indexOf playerId (GameRoom.playerIds room))) (GameRoom.playerIds room)
     else GameRoom.playerIds room).

(** The rooms after [handlePlayerDisconnect] found [room] under [roomId]. *)
Definition rooms_after_leave (roomId playerId : value) (room : GameRoom.t)
    (rooms : list (value * GameRoom.t)) : list (value * GameRoom.t) :=
  if Nat.eqb (JsMap.size (JsMap.delete playerId (GameRoom.players room))) 0
  then JsMap.delete roomId rooms
  else JsMap.set roomId (room_without playerId room) rooms.

(** [{"type":"disconnect","playerId":p}], serialized. *)
Definition disconnect_notice (p : string) : json :=
  JObj [("type", JStr "disconnect"); ("playerId", JStr p)].

(** The room object after [addPlayer(ws, clientId, playerId)]. *)
Definition room_with (ws : conn) (clientId : string) (playerId : value) (room : GameRoom.t)
  : GameRoom.t :=
  GameRoom.mk (GameRoom.id room)
    (JsMap.set playerId (Player.mk ws clientId) (GameRoom.players room))
    (GameRoom.playerIds room ++ [playerId]).

Definition game_started_notice : json := JObj [("type", JStr "game_started")].

(** The server after a join that goes through: [room] is the room found
    under [roomId], or the fresh one. *)
Definition joined (ws : conn) (info : ClientInfo.t) (roomId playerId : value) (room : GameRoom.t)
    (s : GameServer.t) : GameServer.t :=
  GameServer.mk
    (JsMap.set roomId (room_with ws (ClientInfo.id info) playerId room) (GameServer.rooms s))
    (<[ws := ClientInfo.mk (ClientInfo.id info) roomId playerId]> (GameServer.clients s)).

(** The server [handleJoinRoom] leaves behind, whichever way it completes. *)
Definition join_state (ws : conn) (roomId playerId : value) (s : GameServer.t) : GameServer.t :=
  match GameServer.clients s !! ws with
  | None => s
  | Some info =>
      if negb (truthy roomId) || negb (truthy playerId) then s
      else
        match JsMap.get roomId (GameServer.rooms s) with
        | None =>
            match to_string roomId with
            | None =>
                GameServer.mk (JsMap.set roomId (GameRoom.new roomId) (GameServer.rooms s))
                              (GameServer.clients s)
            | Some _ => joined ws info roomId playerId (GameRoom.new roomId) s
            end
        | Some room =>
            if JsMap.has playerId (GameRoom.players room) then s
            else joined ws info roomId playerId room s
        end
  end.

(** What [handleJoinRoom] writes to sockets: [game_started] to the open
    members, when the insertion made the room's size 2. *)
Definition join_sends (rs : conn -> ReadyState) (ws : conn) (roomId playerId : value)
    (s : GameServer.t) : list (conn * json) :=
  match GameServer.clients s !! ws with
  | None => []
  | Some info =>
      if negb (truthy roomId) || negb (truthy playerId) then []
      else
        match JsMap.get roomId (GameServer.rooms s) with
        | None => []
        | Some room =>
            if JsMap.has playerId (GameRoom.players room) then []
            else
              let members := JsMap.set playerId (Player.mk ws (ClientInfo.id info)) (GameRoom.players room) in
              if Nat.eqb (JsMap.size members) 2
              then List.map (fun w => (w, game_started_notice)) (recipients rs None members)
              else []
        end
  end.

(** ** Relays and log lines *)

(** What a relay writes: nothing (guard failed, or the log line threw), or
    the one serialized message to the open members of the sender's room. *)
Definition relayed (rs : conn -> ReadyState) (ws : conn) (s : GameServer.t)
    (message_of : ClientInfo.t -> value) (sent : list (conn * json)) : Prop :=
  sent = [] \/
  exists info room data,
    GameServer.clients s !! ws = Some info /\
    truthy (ClientInfo.roomId info) = true /\
    JsMap.get (ClientInfo.roomId info) (GameServer.rooms s) = Some room /\
    JSON_stringify (message_of info) = Some data /\
    sent = List.map (fun w => (w, data)) (recipients rs None (GameRoom.players room)).

(** The value converts to a string. *)
Definition printable (v : value) : Prop := is_Some (to_string v).

(** Not an array, not an object. *)
Definition primitive (v : value) : Prop :=
  match v with
  | VArr _ _ | VObj _ _ => False
  | _ => True
  end.

Definition printable_player (ws : conn) (s : GameServer.t) : Prop :=
  forall info, GameServer.clients s !! ws = Some info -> printable (ClientInfo.playerId info).

(** The fields a handler may put into a log line all read and convert. *)
Definition printable_message (message : value) : Prop :=
  forall k, In k ["type"; "roomId"; "playerId"; "displayName"; "message"] ->
    exists v, get_prop message k = Normal v /\ printable v.

(** How a disconnect can leave the room table. *)
Definition rooms_left (roomId playerId : value) (rooms rooms' : list (value * GameRoom.t)) : Prop :=
  rooms' = rooms \/
  exists room,
    JsMap.get roomId rooms = Some room /\
    (rooms' = JsMap.set roomId (room_without playerId room) rooms \/
     rooms' = JsMap.delete roomId rooms).

Definition disconnect_message (playerId : value) : value :=
  object_literal [("type", VStr "disconnect"); ("playerId", playerId)].

(** ** Messages *)

(** The ids of a message that the dispatcher hands to [handleJoinRoom]. *)
Definition join_request (message : value) : option (value * value) :=
  match get_prop message "type", get_prop message "roomId", get_prop message "playerId" with
  | Normal type, Normal roomId, Normal playerId =>
      if strict_equals type (VStr "join_room") then Some (roomId, playerId) else None
  | _, _, _ => None
  end.

Definition prop_or_undefined (message : value) (k : string) : value :=
  match get_prop message k with Normal v => v | Throw _ => VUndefined end.

Definition chat_message (message : value) (info : ClientInfo.t) : value :=
  object_literal [("type", VStr "chat"); ("playerId", ClientInfo.playerId info);
                  ("displayName", prop_or_undefined message "displayName");
                  ("message", prop_or_undefined message "message")].

Definition action_complete_message (info : ClientInfo.t) : value :=
  object_literal [("type", VStr "action_complete"); ("playerId", ClientInfo.playerId info)].

Definition game_over_message (info : ClientInfo.t) : value :=
  object_literal [("type", VStr "game_over"); ("playerId", ClientInfo.playerId info)].

(** The one-field message [{"type":"game_started"}]. *)
Definition is_game_started (data : json) : bool :=
  match data with
  | JObj [(k, JStr t)] => String.eqb k "type" && String.eqb t "game_started"
  | _ => false
  end.

(** The sockets that were sent [game_started], in order. *)
Definition started (sent : list (conn * json)) : list conn :=
  List.map fst (List.filter (fun x => is_game_started (snd x)) sent).

(** The join that fills a room: the sender is registered, the ids are
    there, the room exists with exactly one member, and that member is not
    [playerId].  The result is the member list after the join. *)
Definition second_join (ws : conn) (roomId playerId : value) (s : GameServer.t)
  : option (list (value * Player.t)) :=
  match GameServer.clients s !! ws with
  | None => None
  | Some info =>
      if truthy roomId && truthy playerId then
        match JsMap.get roomId (GameServer.rooms s) with
        | Some room =>
            if negb (JsMap.has playerId (GameRoom.players room))
               && Nat.eqb (JsMap.size (GameRoom.players room)) 1
            then Some (JsMap.set playerId (Player.mk ws (ClientInfo.id info)) (GameRoom.players room))
            else None
        | None => None
        end
      else None
  end.

(** ** Runs *)

(** The output of each callback of a run, one list per event, up to the
    first uncaught exception. *)
Fixpoint steps (events : list event) (s : GameServer.t) : list (list effect) :=
  match events with
  | [] => []
  | e :: rest =>
      output (dispatch e s) ::
      match completion_of (dispatch e s) with
      | Normal _ => steps rest (final (dispatch e s))
      | Throw _ => []
      end
  end.

(** ** Well-formed rooms *)

(** No two entries have the same key (SameValueZero), as in a [Map]. *)
Fixpoint distinct_keys {V} (m : list (value * V)) : Prop :=
  match m with
  | [] => True
  | (k, _) :: rest => JsMap.get k rest = None /\ distinct_keys rest
  end.

(** The join requests of a run: the [(roomId, playerId)] pairs its messages
    hand to [handleJoinRoom]. *)
Definition joins_of (e : event) : list (value * value) :=
  match e with
  | Message _ _ (GameServer.Decodes message) =>
      match join_request message with
      | Some request => [request]
      | None => []
      end
  | _ => []
  end.

Definition joins (events : list event) : list (value * value) := flat_map joins_of events.

(** A room stored under key [k]: its member keys are pairwise different, and
    each is the player id of a join request for a room id equal to [k]. *)
Definition room_ok (js : list (value * value)) (k : value) (room : GameRoom.t) : Prop :=
  distinct_keys (GameRoom.players room) /\
  forall p member, In (p, member) (GameRoom.players room) ->
    exists R, In (R, p) js /\ same_value_zero k R = true.

Definition rooms_ok (js : list (value * value)) (rooms : list (value * GameRoom.t)) : Prop :=
  forall k room, In (k, room) rooms -> room_ok js k room.

(** ** The receiving end *)

(** Defining a property: a name already there keeps its place and takes the
    new value. *)
Fixpoint set_prop (k : string) (v : value) (props : list (string * value)) : list (string * value) :=
  match props with
  | [] => [(k, v)]
  | (k', v') :: rest => if String.eqb k' k then (k', v) :: rest else (k', v') :: set_prop k v rest
  end.

(** What the receiving end gets from [JSON.parse] on a document.  The
    identities of the fresh objects are not tracked here (every [ref] is 0),
    and a name that looks like an array index stays where the document has it
    (an engine would list it first); only the names at the top of an outbound
    message are looked at below, and none of them is of that kind. *)
Fixpoint JSON_revive (j : json) : value :=
  match j with
  | JNull => VNull
  | JBool b => VBool b
  | JNum r => VNum r
  | JStr s => VStr s
  | JArr elems => VArr 0 (List.map JSON_revive elems)
  | JObj members =>
      VObj 0 ((fix each (l : list (string * json)) (acc : list (string * value)) :=
                 match l with
                 | [] => acc
                 | (k, x) :: rest => each rest (set_prop k (JSON_revive x) acc)
                 end) members [])
  end.

Definition own_keys (v : value) : list string :=
  match v with
  | VObj _ props => List.map fst props
  | _ => []
  end.

Definition message_type (v : value) : option string :=
  match v with
  | VObj _ props =>
      match own_property "type" props with
      | Some (VStr t) => Some t
      | _ => None
      end
  | _ => None
  end.

(** The outbound field sets as section 6 of the specification lists them
    (the second, specification-side definition of this comparison). *)
Definition spec_fields (type : string) : option (list string) :=
  if String.eqb type "game_started" then Some ["type"]
  else if String.eqb type "chat" then Some ["type"; "playerId"; "displayName"; "message"]
  else if String.eqb type "action_complete" then Some ["type"; "playerId"]
  else if String.eqb type "game_over" then Some ["type"; "playerId"]
  else if String.eqb type "disconnect" then Some ["type"; "playerId"]
  else None.

(** The field of an inbound message, if the message carries it. *)
Definition carried (message : value) (k : string) : list string :=
  match prop_or_undefined message k with
  | VUndefined => []
  | _ => [k]
  end.

(** Every ClientInfo with a room id has a player id. *)
Definition ids_paired (s : GameServer.t) : Prop :=
  forall ws info, GameServer.clients s !! ws = Some info ->
    truthy (ClientInfo.roomId info) = true -> truthy (ClientInfo.playerId info) = true.

(** A message of one of the four fixed kinds arrives with exactly the fields
    of section 6. *)
Definition fixed_shape (data : json) : Prop :=
  exists t, In t ["game_started"; "action_complete"; "game_over"; "disconnect"] /\
    message_type (JSON_revive data) = Some t /\
    spec_fields t = Some (own_keys (JSON_revive data)).

(** A chat arrives with [type], [playerId], and those of [displayName] and
    [message] that the inbound chat carried. *)
Definition chat_shape (message : value) (data : json) : Prop :=
  message_type (JSON_revive data) = Some "chat" /\
  own_keys (JSON_revive data) =
    "type" :: "playerId" :: carried message "displayName" ++ carried message "message".

(** ** Rooms, registry and events, further *)

(** The [playerIds] array lists the keys of [players], in the same order. *)
Definition mirrored (room : GameRoom.t) : Prop :=
  GameRoom.playerIds room = List.map fst (GameRoom.players room).

(** A room as the table holds it under key [k]: it carries its key as [id],
    the key is truthy, [playerIds] mirrors [players], and the member ids are
    truthy and pairwise different. *)
Definition room_wf (k : value) (room : GameRoom.t) : Prop :=
  GameRoom.id room = k /\
  truthy k = true /\
  mirrored room /\
  (forall p member, In (p, member) (GameRoom.players room) -> truthy p = true) /\
  distinct_keys (GameRoom.players room).

Definition table_wf (rooms : list (value * GameRoom.t)) : Prop :=
  distinct_keys rooms /\ forall k room, In (k, room) rooms -> room_wf k room.

(** Every registered connection that names a room is a member of that room,
    under the player id it names, with its own socket and identity. *)
Definition registered_member (s : GameServer.t) : Prop :=
  forall ws info,
    GameServer.clients s !! ws = Some info ->
    truthy (ClientInfo.roomId info) = true ->
    exists room,
      JsMap.get (ClientInfo.roomId info) (GameServer.rooms s) = Some room /\
      JsMap.get (ClientInfo.playerId info) (GameRoom.players room)
        = Some (Player.mk ws (ClientInfo.id info)).

(** The server after [handleDisconnect] ran to its end. *)
Definition leave_state (ws : conn) (s : GameServer.t) : GameServer.t :=
  match GameServer.clients s !! ws with
  | None => s
  | Some info =>
      GameServer.mk
        (if truthy (ClientInfo.roomId info) && truthy (ClientInfo.playerId info) then
           match JsMap.get (ClientInfo.roomId info) (GameServer.rooms s) with
           | Some room =>
               rooms_after_leave (ClientInfo.roomId info) (ClientInfo.playerId info) room
                 (GameServer.rooms s)
           | None => GameServer.rooms s
           end
         else GameServer.rooms s)
        (delete ws (GameServer.clients s))
  end.

(** The events that can change the server: a connection, a close, and a
    message that the dispatcher hands to [handleJoinRoom]. *)
Definition may_change (e : event) : bool :=
  match e with
  | Connection _ _ | Close _ _ _ _ => true
  | Message _ _ (GameServer.Decodes message) =>
      match join_request message with Some _ => true | None => false end
  | _ => false
  end.

(** The socket an event is about, and the sockets' state it comes with. *)
Definition conn_of (e : event) : conn :=
  match e with
  | Connection ws _ | Message _ ws _ | Close _ ws _ _ | Error ws _ => ws
  end.

Definition readyState_at (e : event) : conn -> ReadyState :=
  match e with
  | Message rs _ _ | Close rs _ _ _ => rs
  | _ => fun _ => CLOSED
  end.

Definition is_connection (e : event) : bool :=
  match e with Connection _ _ => true | _ => false end.

(** The relayed frames, serialized. *)
Definition chat_frame (p d t : string) : json :=
  JObj [("type", JStr "chat"); ("playerId", JStr p); ("displayName", JStr d); ("message", JStr t)].

Definition relay_frame (kind p : string) : json :=
  JObj [("type", JStr kind); ("playerId", JStr p)].

(** No room whose key converts to a string is without members. *)
Definition rooms_inhabited (rooms : list (value * GameRoom.t)) : Prop :=
  forall k room, In (k, room) rooms -> printable k -> GameRoom.players room <> [].

(** * Properties *)

(** ** String conversion, on examples *)

Example to_string_plain_object : to_string (VObj 0 [("a", VNum "1")]) = Some "[object Object]".
Proof. reflexivity. Qed.

Example to_string_shadowed : to_string (VObj 0 [("toString", VNum "1")]) = None.
Proof. reflexivity. Qed.

Example to_string_array :
  to_string (VArr 0 [VNum "1"; VNull; VStr "x"; VArr 1 [VBool true; VBool false]]) = Some "1,,x,true,false".
Proof. reflexivity. Qed.

(** ** Key equality *)

Lemma same_value_zero_refl x : same_value_zero x x = true.
Proof.
  destruct x as [| |b|r|s|r l|r l]; simpl; auto using String.eqb_refl, Nat.eqb_refl.
  by destruct b.
Qed.

Lemma same_value_zero_sym x y : same_value_zero x y = same_value_zero y x.
Proof.
  destruct x as [| |b|r|s|r l|r l], y as [| |b'|r'|s'|r' l'|r' l']; simpl;
    auto using String.eqb_sym, Nat.eqb_sym.
  by destruct b, b'.
Qed.

Lemma same_value_zero_trans x y z :
  same_value_zero x y = true -> same_value_zero y z = true -> same_value_zero x z = true.
Proof.
  destruct x as [| |b|r|s|r l|r l], y as [| |b'|r'|s'|r' l'|r' l'], z as [| |b''|r''|s''|r'' l''|r'' l''];
    simpl; try discriminate; auto.
  - destruct b, b', b''; simpl; auto.
  - rewrite !String.eqb_eq. congruence.
  - rewrite !String.eqb_eq. congruence.
  - rewrite !Nat.eqb_eq. congruence.
  - rewrite !Nat.eqb_eq. congruence.
Qed.

Lemma same_value_zero_congr_r x y z :
  same_value_zero y z = true -> same_value_zero x y = same_value_zero x z.
Proof.
  intros Hyz. destruct (same_value_zero x y) eqn:Hxy.
  - symmetry. eauto using same_value_zero_trans.
  - destruct (same_value_zero x z) eqn:Hxz; [|done].
    rewrite <- Hxy. rewrite same_value_zero_sym in Hyz.
    eauto using same_value_zero_trans.
Qed.

Lemma same_value_zero_VStr a b : same_value_zero (VStr a) (VStr b) = true <-> a = b.
Proof. simpl. apply String.eqb_eq. Qed.

(** ** [Map] operations *)

Section JsMap_facts.
Context {V : Type}.
Implicit Types (m : list (value * V)) (k : value) (v : V).

Lemma get_set_same k v m : JsMap.get k (JsMap.set k v m) = Some v.
Proof.
  induction m as [|[k' v'] m IH]; simpl.
  - by rewrite same_value_zero_refl.
  - destruct (same_value_zero k' k) eqn:E; simpl; rewrite E; auto.
Qed.

Lemma get_set_other k k' v m :
  same_value_zero k k' = false -> JsMap.get k' (JsMap.set k v m) = JsMap.get k' m.
Proof.
  intros Hne. induction m as [|[k0 v0] m IH]; simpl.
  - by rewrite Hne.
  - destruct (same_value_zero k0 k) eqn:E; simpl; [|by rewrite IH].
    destruct (same_value_zero k0 k') eqn:E'; [|done].
    rewrite same_value_zero_sym in E.
    by rewrite (same_value_zero_trans _ _ _ E E') in Hne.
Qed.

Lemma set_get_id k v m : JsMap.get k m = Some v -> JsMap.set k v m = m.
Proof.
  induction m as [|[k0 v0] m IH]; simpl; [done|].
  destruct (same_value_zero k0 k); [congruence|]. intros. by rewrite IH.
Qed.

Lemma get_delete_same k m : JsMap.get k (JsMap.delete k m) = None.
Proof.
  induction m as [|[k0 v0] m IH]; simpl; [done|].
  destruct (same_value_zero k0 k) eqn:E; simpl; [done|]. by rewrite E.
Qed.

Lemma get_delete_other k k' m :
  same_value_zero k k' = false -> JsMap.get k' (JsMap.delete k m) = JsMap.get k' m.
Proof.
  intros Hne. induction m as [|[k0 v0] m IH]; simpl; [done|].
  destruct (same_value_zero k0 k) eqn:E; simpl.
  - destruct (same_value_zero k0 k') eqn:E'; [|done].
    rewrite same_value_zero_sym in E.
    by rewrite (same_value_zero_trans _ _ _ E E') in Hne.
  - by rewrite IH.
Qed.

Lemma has_get k m : JsMap.has k m = true <-> is_Some (JsMap.get k m).
Proof.
  unfold JsMap.has. destruct (JsMap.get k m); split; intros H; eauto; try done.
  all: by destruct H.
Qed.

Lemma has_false_get k m : JsMap.has k m = false <-> JsMap.get k m = None.
Proof. unfold JsMap.has. by destruct (JsMap.get k m). Qed.

Lemma size_set k v m :
  JsMap.size (JsMap.set k v m) = if JsMap.has k m then JsMap.size m else S (JsMap.size m).
Proof.
  unfold JsMap.has, JsMap.size. induction m as [|[k0 v0] m IH]; simpl; [done|].
  destruct (same_value_zero k0 k); simpl; [done|].
  rewrite IH. by destruct (JsMap.get k m).
Qed.

Lemma size_delete_le k m : JsMap.size (JsMap.delete k m) <= JsMap.size m.
Proof. apply List.filter_length_le. Qed.

Lemma get_In k v m : JsMap.get k m = Some v -> exists k', In (k', v) m /\ same_value_zero k' k = true.
Proof.
  induction m as [|[k0 v0] m IH]; simpl; [done|].
  destruct (same_value_zero k0 k) eqn:E.
  - intros [= ->]. eauto.
  - intros H. destruct (IH H) as (k' & ? & ?). eauto.
Qed.

Lemma In_get k v m : In (k, v) m -> is_Some (JsMap.get k m).
Proof.
  induction m as [|[k0 v0] m IH]; simpl; [done|].
  intros [[= -> ->]|H].
  - rewrite same_value_zero_refl. eauto.
  - destruct (same_value_zero k0 k); eauto.
Qed.

(** Where the entries of [set] come from. *)
Lemma In_set k v k' v' m :
  In (k', v') (JsMap.set k v m) ->
  In (k', v') m \/ (v' = v /\ (k' = k \/ exists v0, In (k', v0) m /\ same_value_zero k' k = true)).
Proof.
  induction m as [|[k0 v0] m IH]; simpl.
  - intros [[= <- <-]|[]]. auto.
  - destruct (same_value_zero k0 k) eqn:E; simpl.
    + intros [[= <- <-]|H]; [|auto]. right. split; [done|]. right. eauto.
    + intros [H|H]; [auto|]. destruct (IH H) as [?|(-> & [->|(v1 & ? & ?)])]; eauto 8.
Qed.

Lemma In_delete k k' v' m : In (k', v') (JsMap.delete k m) -> In (k', v') m.
Proof. unfold JsMap.delete. rewrite List.filter_In. tauto. Qed.
End JsMap_facts.

(** ** Observations on a callback's result *)

Lemma sends_app out1 out2 : sends (out1 ++ out2) = sends out1 ++ sends out2.
Proof. unfold sends. by rewrite flat_map_app. Qed.

(** Symbolic execution of the monad's plumbing. *)
Ltac exec :=
  unfold pass, console_log, console_error, template, lift_completion, try_catch,
    completion_of, final, output in *;
  unfold mbind, M_bind, mret, M_ret, gets, modify, emit, throw in *;
  cbn [fst snd GameServer.rooms GameServer.clients] in *.

(** ** [broadcastToRoom] *)

Lemma forEach_emit {S A} (l : list A) (callback : A -> M S ()) (cond : A -> bool)
    (eff : A -> effect) (s : S) :
  (forall x s, callback x s = if cond x then (Normal (), s, [eff x]) else (Normal (), s, [])) ->
  forEach l callback s = (Normal (), s, List.map eff (List.filter cond l)).
Proof.
  intros Hcb. revert s. induction l as [|x l IH]; intros s; [done|].
  cbn [forEach List.filter]. unfold mbind, M_bind. rewrite Hcb.
  destruct (cond x); by rewrite IH.
Qed.

Lemma broadcastToRoom_eq rs message excludeWs data room :
  JSON_stringify message = Some data ->
  GameRoom.broadcastToRoom rs message excludeWs room =
    (Normal (), room,
     List.map (fun w => WsSend w data) (recipients rs excludeWs (GameRoom.players room))).
Proof.
  intros Hdata. unfold GameRoom.broadcastToRoom, recipients.
  unfold mbind at 1. unfold M_bind, gets.
  rewrite (forEach_emit _ _
    (fun entry => negb (bool_decide (Some (Player.ws (snd entry)) = excludeWs))
                  && ReadyState_eqb (rs (Player.ws (snd entry))) OPEN)
    (fun entry => WsSend (Player.ws (snd entry)) data)).
  - simpl. f_equal. generalize (GameRoom.players room) as l.
    induction l as [|[pid p] l IH]; [done|]. simpl.
    destruct (negb _ && _); simpl; by rewrite IH.
  - intros x s. rewrite Hdata. by destruct (negb _ && _).
Qed.

Lemma stringify_object ref props :
  exists members, JSON_stringify (VObj ref props) = Some (JObj members).
Proof. simpl. eauto. Qed.

(** C9. [broadcastToRoom(message, excludeWs?)] completes normally, writes the
    serialized message once for every member entry whose socket is not
    [excludeWs] and is OPEN, in join order, writes nothing to the others, and
    leaves the room (its members included) as it was.  [message] is an object,
    as [Message] requires. *)
Theorem C9_broadcast_reaches_open_members_only :
  forall (rs : conn -> ReadyState) (ref : nat) (props : list (string * value))
         (excludeWs : option conn) (room : GameRoom.t),
  exists data : json,
    JSON_stringify (VObj ref props) = Some data /\
    let r := GameRoom.broadcastToRoom rs (VObj ref props) excludeWs room in
    completion_of r = Normal () /\
    final r = room /\
    output r = List.map (fun w => WsSend w data) (recipients rs excludeWs (GameRoom.players room)) /\
    (forall w, In w (recipients rs excludeWs (GameRoom.players room)) <->
       (exists pid p, In (pid, p) (GameRoom.players room) /\ Player.ws p = w) /\
       Some w <> excludeWs /\ rs w = OPEN).
Proof.
  intros. destruct (stringify_object ref props) as [members Hdata].
  exists (JObj members). split; [done|].
  rewrite (broadcastToRoom_eq _ _ _ _ _ Hdata). cbn.
  repeat split; try done.
  - unfold recipients in H. apply List.filter_In in H as [H _].
    apply List.in_map_iff in H as ([pid p] & <- & ?). eauto.
  - unfold recipients in H. apply List.filter_In in H as [_ H].
    apply andb_prop in H as [H _]. apply negb_true_iff, bool_decide_eq_false in H. done.
  - unfold recipients in H. apply List.filter_In in H as [_ H].
    apply andb_prop in H as [_ H]. by destruct (rs w).
  - intros ((pid & p & Hin & <-) & Hex & Hopen). unfold recipients.
    apply List.filter_In. split.
    + apply List.in_map_iff. by exists (pid, p).
    + rewrite Hopen. simpl. rewrite andb_true_r. by apply negb_true_iff, bool_decide_eq_false.
Qed.

(** ** Calls through the room table *)

Lemma server_eta (s : GameServer.t) : GameServer.mk (GameServer.rooms s) (GameServer.clients s) = s.
Proof. by destruct s. Qed.

Lemma on_room_found {A} roomId (method : M GameRoom.t A) room s :
  JsMap.get roomId (GameServer.rooms s) = Some room ->
  GameServer.on_room roomId method s =
    (completion_of (method room),
     GameServer.mk (JsMap.set roomId (final (method room)) (GameServer.rooms s)) (GameServer.clients s),
     output (method room)).
Proof.
  intros H. unfold GameServer.on_room. rewrite H.
  by destruct (method room) as [[c room'] out].
Qed.

Lemma on_room_broadcast rs message excludeWs data roomId room s :
  JsMap.get roomId (GameServer.rooms s) = Some room ->
  JSON_stringify message = Some data ->
  GameServer.on_room roomId (GameRoom.broadcastToRoom rs message excludeWs) s =
    (Normal (), s,
     List.map (fun w => WsSend w data) (recipients rs excludeWs (GameRoom.players room))).
Proof.
  intros Hroom Hdata. rewrite (on_room_found _ _ _ _ Hroom).
  rewrite (broadcastToRoom_eq _ _ _ _ _ Hdata). exec.
  by rewrite (set_get_id _ _ _ Hroom), server_eta.
Qed.

(** ** Relays outside a room (C7) *)

(** C7. A chat, action_complete or game_over event from a connection that has
    no registry entry, or whose entry has no room ([roomId] null, or falsy in
    any other way), goes through the callback without an error, writes to no
    socket, and leaves the server (registry and room table) as it was. *)
Theorem C7_relay_outside_room_is_noop :
  forall (rs : conn -> ReadyState) (ws : conn) (message type : value) (s : GameServer.t),
    get_prop message "type" = Normal type ->
    type = VStr "chat" \/ type = VStr "action_complete" \/ type = VStr "game_over" ->
    (forall info, GameServer.clients s !! ws = Some info -> truthy (ClientInfo.roomId info) = false) ->
    let r := dispatch (Message rs ws (GameServer.Decodes message)) s in
    completion_of r = Normal () /\ final r = s /\ sends (output r) = [].
Proof.
  intros rs ws message type s Htype Hkind Hout.
  unfold dispatch, GameServer.on_message, GameServer.handleMessage, GameServer.JSON_parse.
  exec.
  destruct (GameServer.clients s !! ws) as [info|] eqn:Hinfo; cbn; [|done].
  specialize (Hout info eq_refl).
  rewrite Htype.
  destruct Hkind as [-> | [-> | ->]]; cbn;
    unfold GameServer.handleChat, GameServer.handleActionComplete, GameServer.handleGameOver;
    exec; rewrite Hinfo, Hout; cbn; done.
Qed.

(** Witness: a registered connection that never joined sends a chat. *)
Lemma C7_relay_outside_room_witness :
  let s := state_after [Connection 1 "a"] in
  let message := VObj 0 [("type", VStr "chat"); ("displayName", VStr "Al"); ("message", VStr "hi")] in
  let r := dispatch (Message all_open 1 (GameServer.Decodes message)) s in
  completion_of r = Normal () /\ final r = s /\ sends (output r) = [].
Proof.
  apply (C7_relay_outside_room_is_noop all_open 1 _ (VStr "chat")).
  - reflexivity.
  - by left.
  - intros info. vm_compute. by intros [= <-].
Defined.

(** ** [join_room] without ids (C8) and repeated (C4) *)

Lemma handleJoinRoom_without_ids rs ws roomId playerId s :
  truthy roomId = false \/ truthy playerId = false ->
  exists out, GameServer.handleJoinRoom rs ws roomId playerId s = (Normal (), s, out) /\ sends out = [].
Proof.
  intros Hfalsy. unfold GameServer.handleJoinRoom. exec.
  destruct (GameServer.clients s !! ws) as [info|]; cbn; [|by eauto].
  destruct Hfalsy as [-> | ->]; cbn; [by eauto|].
  destruct (truthy roomId); cbn; by eauto.
Qed.

(** C8. [handleJoinRoom] with a [roomId] or a [playerId] that is falsy (the
    empty string, or undefined when the message has no such field, or null,
    0, false) returns at once: it completes normally, the server is unchanged
    (no room created, no ClientInfo touched) and nothing is written to any
    socket. *)
Theorem C8_join_without_ids_is_noop :
  forall (rs : conn -> ReadyState) (ws : conn) (roomId playerId : value) (s : GameServer.t),
    truthy roomId = false \/ truthy playerId = false ->
    let r := GameServer.handleJoinRoom rs ws roomId playerId s in
    completion_of r = Normal () /\ final r = s /\ sends (output r) = [].
Proof.
  intros rs ws roomId playerId s Hfalsy r. subst r.
  destruct (handleJoinRoom_without_ids rs ws roomId playerId s Hfalsy) as (out & -> & Hout).
  done.
Qed.

Lemma C8_join_without_ids_witness :
  let s := state_after [Connection 1 "a"] in
  let r := GameServer.handleJoinRoom all_open 1 (VStr "") (VStr "p1") s in
  completion_of r = Normal () /\ final r = s /\ sends (output r) = [].
Proof.
  apply (C8_join_without_ids_is_noop all_open 1 (VStr "") (VStr "p1")).
  left. reflexivity.
Defined.

(** The same through the dispatcher: the two ids are read off the message,
    and a field that is not there reads as undefined. *)
Lemma join_without_ids_event rs ws ref props s :
  own_property "type" props = Some (VStr "join_room") ->
  truthy (default VUndefined (own_property "roomId" props)) = false \/
  truthy (default VUndefined (own_property "playerId" props)) = false ->
  let r := dispatch (Message rs ws (GameServer.Decodes (VObj ref props))) s in
  completion_of r = Normal () /\ final r = s /\ sends (output r) = [].
Proof.
  intros Htype Hfalsy.
  unfold dispatch, GameServer.on_message, GameServer.handleMessage, GameServer.JSON_parse.
  exec.
  destruct (GameServer.clients s !! ws) as [info|] eqn:Hinfo; cbn; [|done].
  rewrite Htype. cbn.
  destruct (handleJoinRoom_without_ids rs ws _ _ s Hfalsy) as (out & -> & Hout).
  cbn [fst snd]. split; [done|]. split; [done|]. exact Hout.
Qed.

(** C4. When room [roomId] already has a member [playerId], another
    [join_room] for the same two ids, from any connection, changes nothing in
    the server (the room's members, the ClientInfo of the first joiner and of
    the sender, everything else) and writes to no socket. *)
Theorem C4_rejoin_is_noop :
  forall (rs : conn -> ReadyState) (ws : conn) (roomId playerId : value) (s : GameServer.t)
         (room : GameRoom.t),
    JsMap.get roomId (GameServer.rooms s) = Some room ->
    JsMap.has playerId (GameRoom.players room) = true ->
    let r := GameServer.handleJoinRoom rs ws roomId playerId s in
    final r = s /\ sends (output r) = [].
Proof.
  intros rs ws roomId playerId s room Hroom Hmember.
  assert (exists c out, GameServer.handleJoinRoom rs ws roomId playerId s = (c, s, out)
                        /\ sends out = []) as (c & out & -> & Hout); [|done].
  unfold GameServer.handleJoinRoom. exec.
  destruct (GameServer.clients s !! ws) as [info|]; cbn; [|by eauto].
  destruct (negb (truthy roomId) || negb (truthy playerId)); cbn; [by eauto|].
  unfold JsMap.has at 1. rewrite Hroom. cbn.
  rewrite (on_room_found _ _ _ _ Hroom). unfold GameRoom.hasPlayer. exec.
  rewrite Hmember, (set_get_id _ _ _ Hroom), server_eta.
  destruct (to_string playerId), (to_string roomId); cbn; by eauto.
Qed.

Lemma C4_rejoin_witness :
  let s := state_after [Connection 1 "a"; Connection 2 "b";
                        Message all_open 1 (join_room "r1" "p1")] in
  let r := GameServer.handleJoinRoom all_open 2 (VStr "r1") (VStr "p1") s in
  final r = s /\ sends (output r) = [].
Proof.
  eapply (C4_rejoin_is_noop all_open 2 (VStr "r1") (VStr "p1")); reflexivity.
Defined.

(** ** Disconnect (C3) *)

Lemma removePlayer_eq playerId room :
  GameRoom.removePlayer playerId room = (Normal (), room_without playerId room, []).
Proof.
  unfold GameRoom.removePlayer, room_without. exec. cbn.
  destruct (indexOf playerId (GameRoom.playerIds room) >? -1)%Z; cbn; [done|].
  by destruct room.
Qed.

Lemma delete_set_same {V} k (v : V) m : JsMap.delete k (JsMap.set k v m) = JsMap.delete k m.
Proof.
  induction m as [|[k0 v0] m IH]; simpl.
  - by rewrite same_value_zero_refl.
  - destruct (same_value_zero k0 k) eqn:E; simpl; rewrite E; simpl; [done|]. by rewrite IH.
Qed.

Lemma set_set_same {V} k (v1 v2 : V) m : JsMap.set k v2 (JsMap.set k v1 m) = JsMap.set k v2 m.
Proof.
  induction m as [|[k0 v0] m IH]; simpl.
  - by rewrite same_value_zero_refl.
  - destruct (same_value_zero k0 k) eqn:E; simpl; rewrite E; [done|]. by rewrite IH.
Qed.

Lemma handlePlayerDisconnect_found rs roomId playerId room data s :
  JsMap.get roomId (GameServer.rooms s) = Some room ->
  is_Some (to_string roomId) -> is_Some (to_string playerId) ->
  JSON_stringify (object_literal [("type", VStr "disconnect"); ("playerId", playerId)]) = Some data ->
  exists logs,
    GameServer.handlePlayerDisconnect rs roomId playerId s =
      (Normal (),
       GameServer.mk (rooms_after_leave roomId playerId room (GameServer.rooms s)) (GameServer.clients s),
       List.map (fun w => WsSend w data) (recipients rs None (GameRoom.players room)) ++ logs)
    /\ sends logs = [].
Proof.
  intros Hroom [rstr Hr] [pstr Hp] Hdata.
  unfold GameServer.handlePlayerDisconnect, rooms_after_leave.
  unfold mbind at 1. unfold M_bind at 1. unfold gets at 1. rewrite Hroom.
  unfold mbind at 1. unfold M_bind at 1.
  rewrite (on_room_broadcast _ _ _ _ _ _ _ Hroom Hdata).
  unfold mbind at 1. unfold M_bind at 1.
  rewrite (on_room_found _ _ _ _ Hroom), removePlayer_eq. exec.
  cbn [render]. rewrite Hr, Hp. cbn -[JsMap.delete JsMap.set].
  erewrite on_room_found by (cbn [GameServer.rooms]; apply get_set_same).
  unfold GameRoom.getPlayerCount. exec. cbn -[JsMap.delete JsMap.set].
  destruct (Nat.eqb _ 0); cbn -[JsMap.delete JsMap.set].
  - rewrite !delete_set_same. eexists. split; [reflexivity|done].
  - rewrite set_set_same. eexists. split; [reflexivity|done].
Qed.

Lemma handlePlayerDisconnect_missing rs roomId playerId s :
  JsMap.get roomId (GameServer.rooms s) = None ->
  is_Some (to_string roomId) ->
  exists logs,
    GameServer.handlePlayerDisconnect rs roomId playerId s = (Normal (), s, logs) /\ sends logs = [].
Proof.
  intros Hroom [rstr Hr]. unfold GameServer.handlePlayerDisconnect. exec.
  rewrite Hroom. cbn. rewrite Hr. cbn. eauto.
Qed.

(** [handleDisconnect] for a registered connection whose ids are strings. *)
Lemma handleDisconnect_member rs ws closeCode reason s info r p :
  GameServer.clients s !! ws = Some info ->
  ClientInfo.roomId info = VStr r -> ClientInfo.playerId info = VStr p ->
  r <> "" -> p <> "" ->
  exists before after,
    sends before = [] /\ sends after = [] /\
    GameServer.handleDisconnect rs ws closeCode reason s =
      match JsMap.get (VStr r) (GameServer.rooms s) with
      | Some room =>
          (Normal (),
           GameServer.mk (rooms_after_leave (VStr r) (VStr p) room (GameServer.rooms s))
                         (delete ws (GameServer.clients s)),
           before ++
           List.map (fun w => WsSend w (disconnect_notice p)) (recipients rs None (GameRoom.players room)) ++
           after)
      | None =>
          (Normal (), GameServer.mk (GameServer.rooms s) (delete ws (GameServer.clients s)),
           before ++ after)
      end.
Proof.
  intros Hinfo Hr Hp Hr0 Hp0.
  apply String.eqb_neq in Hr0, Hp0.
  unfold GameServer.handleDisconnect.
  unfold mbind at 1. unfold M_bind at 1. unfold gets at 1. rewrite Hinfo, Hr, Hp.
  assert (exists line,
    render [VStr "Client "; VStr (ClientInfo.id info); VStr " (Player: "; VStr p;
            VStr ") disconnected - Code: "; optional VNum closeCode; VStr ", Reason: ";
            optional VStr reason] = Some line) as [line Hline].
  { destruct closeCode, reason; cbn; eauto. }
  exec. rewrite Hline. cbn [truthy]. rewrite Hr0, Hp0.
  cbn -[GameServer.handlePlayerDisconnect].
  destruct (JsMap.get (VStr r) (GameServer.rooms s)) as [room|] eqn:Hroom.
  - destruct (handlePlayerDisconnect_found rs (VStr r) (VStr p) room (disconnect_notice p) s Hroom)
      as (logs & -> & Hlogs); [by eauto|by eauto|done|].
    cbn. rewrite app_nil_r.
    match goal with |- context [?a :: ?b :: (List.map _ _ ++ _)] => exists [a; b], logs end.
    done.
  - destruct (handlePlayerDisconnect_missing rs (VStr r) (VStr p) s Hroom)
      as (logs & -> & Hlogs); [by eauto|].
    cbn. rewrite app_nil_r.
    match goal with |- context [?a :: ?b :: logs] => exists [a; b], logs end.
    done.
Qed.

Lemma sends_WsSend data (l : list conn) :
  sends (List.map (fun w => WsSend w data) l) = List.map (fun w => (w, data)) l.
Proof. induction l as [|w l IH]; [done|]. cbn. by f_equal. Qed.

(** What C3 asks for, for ids that are strings.  A registered connection
    whose ClientInfo holds a room id and a participant id (non-empty strings,
    as [ClientInfo] declares them) disconnects.  The handler completes
    normally and then:
    (c) the registry has no entry for the connection;
    (a) if the room is in the table, the disconnect message carrying the
        participant id was written to every member of the room whose socket
        is open -- the members as they were before the removal, so a member
        other than the leaver gets it whenever its socket is open -- and to no
        one else;
    (b) the participant is then removed, and when no member is left the room
        is deleted from the table; otherwise the room stays, without the
        participant. *)
Lemma disconnect_notifies_then_removes :
  forall (rs : conn -> ReadyState) (ws : conn) (closeCode reason : option string)
         (s : GameServer.t) (info : ClientInfo.t) (r p : string),
    GameServer.clients s !! ws = Some info ->
    ClientInfo.roomId info = VStr r -> ClientInfo.playerId info = VStr p ->
    r <> "" -> p <> "" ->
    let res := GameServer.handleDisconnect rs ws closeCode reason s in
    completion_of res = Normal () /\
    GameServer.clients (final res) = delete ws (GameServer.clients s) /\
    GameServer.clients (final res) !! ws = None /\
    match JsMap.get (VStr r) (GameServer.rooms s) with
    | Some room =>
        sends (output res) =
          List.map (fun w => (w, disconnect_notice p)) (recipients rs None (GameRoom.players room)) /\
        (forall q member, In (q, member) (GameRoom.players room) ->
           rs (Player.ws member) = OPEN ->
           In (Player.ws member, disconnect_notice p) (sends (output res))) /\
        GameServer.rooms (final res) = rooms_after_leave (VStr r) (VStr p) room (GameServer.rooms s) /\
        (JsMap.delete (VStr p) (GameRoom.players room) = [] ->
           JsMap.get (VStr r) (GameServer.rooms (final res)) = None) /\
        (JsMap.delete (VStr p) (GameRoom.players room) <> [] ->
           JsMap.get (VStr r) (GameServer.rooms (final res)) = Some (room_without (VStr p) room))
    | None =>
        sends (output res) = [] /\ GameServer.rooms (final res) = GameServer.rooms s
    end.
Proof.
  intros rs ws closeCode reason s info r p Hinfo Hr Hp Hr0 Hp0 res.
  destruct (handleDisconnect_member rs ws closeCode reason s info r p Hinfo Hr Hp Hr0 Hp0)
    as (before & after & Hb & Ha & Heq).
  subst res. rewrite Heq. clear Heq.
  destruct (JsMap.get (VStr r) (GameServer.rooms s)) as [room|] eqn:Hroom;
    unfold completion_of, final, output; cbn [fst snd GameServer.clients GameServer.rooms].
  - assert (Hsends : sends (before ++ List.map (fun w => WsSend w (disconnect_notice p))
                                      (recipients rs None (GameRoom.players room)) ++ after)
                     = List.map (fun w => (w, disconnect_notice p))
                         (recipients rs None (GameRoom.players room))).
    { by rewrite !sends_app, Hb, Ha, sends_WsSend, app_nil_r. }
    rewrite Hsends.
    split; [done|]. split; [done|]. split; [apply lookup_delete_eq|].
    split; [done|]. split; [|split; [done|split]].
    + intros q member Hin Hopen. apply List.in_map_iff. exists (Player.ws member).
      split; [done|]. unfold recipients. apply List.filter_In. split.
      * apply List.in_map_iff. by exists (q, member).
      * rewrite Hopen. done.
    + intros Hlast. unfold rooms_after_leave, JsMap.size. rewrite Hlast. cbn.
      apply get_delete_same.
    + intros Hmore. unfold rooms_after_leave, JsMap.size.
      destruct (JsMap.delete (VStr p) (GameRoom.players room)) eqn:E; [done|]. cbn.
      apply get_set_same.
  - rewrite sends_app, Hb, Ha.
    split; [done|]. split; [done|]. split; [apply lookup_delete_eq|done].
Qed.

(** The second of two players leaves; its socket is closed, the first
    player's is open. *)
Lemma disconnect_of_second_player :
  let rs := fun w : conn => if Nat.eqb w 2 then CLOSED else OPEN in
  let s := state_after [Connection 1 "a"; Connection 2 "b";
                        Message all_open 1 (join_room "r1" "p1");
                        Message all_open 2 (join_room "r1" "p2")] in
  let res := GameServer.handleDisconnect rs 2 (Some "1000") (Some "") s in
  sends (output res) = [(1, disconnect_notice "p2")] /\
  GameServer.clients (final res) !! 2 = None.
Proof.
  intros rs s res.
  pose proof (disconnect_notifies_then_removes rs 2 (Some "1000") (Some "") s
                (ClientInfo.mk "b" (VStr "r1") (VStr "p2")) "r1" "p2"
                eq_refl eq_refl eq_refl) as H.
  destruct H as (_ & _ & Hgone & Hroom); [done|done|].
  split; [|exact Hgone].
  destruct Hroom as (Hsends & _). exact Hsends.
Defined.

(** C3.  The ids are not always strings: the dispatcher passes
    [message.playerId] on as it is.  A player id that is an object with a
    ["toString"] field is truthy, so the join stores it in ClientInfo (the
    join's own last log line throws, inside the message callback's try/catch).
    When that connection closes, the first log line of [handleDisconnect]
    cannot convert the id and throws, before the broadcast, the removal and
    [clients.delete]; the close callback has no try/catch.  The other member
    is not told, the room keeps the member, the registry keeps the
    connection, and the exception leaves the callback. *)
Lemma C3_close_with_unprintable_player :
  let odd := VObj 1 [("toString", VNum "1")] in
  let s := state_after
             [Connection 1 "a"; Connection 2 "b";
              Message all_open 1 (join_room "r1" "p1");
              Message all_open 2
                (GameServer.Decodes
                   (VObj 0 [("type", VStr "join_room"); ("roomId", VStr "r1"); ("playerId", odd)]))] in
  let r := dispatch (Close (closed_only 2) 2 "1000" "") s in
  GameServer.clients s !! 2 = Some (ClientInfo.mk "b" (VStr "r1") odd) /\
  completion_of r = Throw cannot_convert /\
  sends (output r) = [] /\
  GameServer.clients (final r) !! 2 = Some (ClientInfo.mk "b" (VStr "r1") odd) /\
  GameServer.rooms (final r) =
    [(VStr "r1",
      GameRoom.mk (VStr "r1")
        [(VStr "p1", Player.mk 1 "a"); (odd, Player.mk 2 "b")]
        [VStr "p1"; odd])].
Proof. vm_compute. repeat split; reflexivity. Qed.

(** The scenario of section 8 of the specification: A joins "r1" as "p1", B
    joins as "p2", A chats, B's channel closes.  The frames written are the
    ones the scenario lists.  The room is still in the table afterwards, with
    "p1": it is deleted only when its last member leaves. *)
Example scenario :
  let events :=
    [Connection 1 "a"; Connection 2 "b";
     Message all_open 1 (join_room "r1" "p1");
     Message all_open 2 (join_room "r1" "p2");
     Message all_open 1
       (GameServer.Decodes (VObj 0 [("type", VStr "chat"); ("displayName", VStr "Al");
                                    ("message", VStr "hi")]));
     Close (closed_only 2) 2 "1006" ""] in
  let chat := JObj [("type", JStr "chat"); ("playerId", JStr "p1");
                    ("displayName", JStr "Al"); ("message", JStr "hi")] in
  sends (output_of events) =
    [(1, game_started_notice); (2, game_started_notice);
     (1, chat); (2, chat);
     (1, disconnect_notice "p2")] /\
  GameServer.rooms (state_after events) =
    [(VStr "r1", GameRoom.mk (VStr "r1") [(VStr "p1", Player.mk 1 "a")] [VStr "p1"])].
Proof. vm_compute. split; reflexivity. Qed.

(** ** [handleJoinRoom] in closed form *)

Lemma addPlayer_eq rs ws clientId playerId room :
  GameRoom.addPlayer rs ws clientId playerId room =
    (Normal (), room_with ws clientId playerId room,
     if Nat.eqb (JsMap.size (GameRoom.players (room_with ws clientId playerId room))) 2
     then List.map (fun w => WsSend w game_started_notice)
            (recipients rs None (GameRoom.players (room_with ws clientId playerId room)))
     else []).
Proof.
  unfold GameRoom.addPlayer.
  unfold mbind at 1. unfold M_bind at 1. unfold modify at 1.
  unfold mbind at 1. unfold M_bind at 1. unfold modify at 1.
  unfold mbind at 1. unfold M_bind at 1. unfold gets at 1.
  cbn [GameRoom.id GameRoom.players GameRoom.playerIds].
  fold (room_with ws clientId playerId room).
  destruct (Nat.eqb _ 2).
  - by rewrite (broadcastToRoom_eq _ _ _ game_started_notice).
  - done.
Qed.

Lemma alter_both (clients : gmap conn ClientInfo.t) ws info roomId playerId :
  clients !! ws = Some info ->
  alter (fun i => ClientInfo.mk (ClientInfo.id i) (ClientInfo.roomId i) playerId) ws
    (alter (fun i => ClientInfo.mk (ClientInfo.id i) roomId (ClientInfo.playerId i)) ws clients)
  = <[ws := ClientInfo.mk (ClientInfo.id info) roomId playerId]> clients.
Proof.
  intros H. apply map_eq. intros w.
  destruct (decide (ws = w)) as [->|Hne].
  - rewrite !lookup_alter_eq, lookup_insert_eq, H. done.
  - rewrite !lookup_alter_ne, lookup_insert_ne by done. done.
Qed.

Lemma render_None pieces :
  render pieces = None -> exists p, In p pieces /\ to_string p = None.
Proof.
  induction pieces as [|p pieces IH]; cbn [render]; [done|].
  destruct (to_string p) eqn:Hp; [|by exists p; split; [left|]].
  destruct (render pieces); [done|]. intros _.
  destruct IH as (q & ? & ?); [done|]. exists q. split; [by right|done].
Qed.

(** A template whose substitutions all convert cannot fail. *)
Ltac render_contra H :=
  let Hin := fresh "Hin" in
  let Hnone := fresh "Hnone" in
  apply render_None in H as (? & Hin & Hnone); cbn [In] in Hin;
  repeat (destruct Hin as [<- | Hin]; [try discriminate Hnone; congruence|]); destruct Hin.

Lemma has_Some {V} k (m : list (value * V)) v : JsMap.get k m = Some v -> JsMap.has k m = true.
Proof. unfold JsMap.has. by intros ->. Qed.

Lemma has_None {V} k (m : list (value * V)) : JsMap.get k m = None -> JsMap.has k m = false.
Proof. unfold JsMap.has. by intros ->. Qed.

Lemma handleJoinRoom_eq rs ws roomId playerId s :
  exists c out,
    GameServer.handleJoinRoom rs ws roomId playerId s = (c, join_state ws roomId playerId s, out) /\
    sends out = join_sends rs ws roomId playerId s /\
    (is_Some (to_string roomId) -> is_Some (to_string playerId) -> c = Normal ()).
Proof.
  unfold GameServer.handleJoinRoom, join_state, join_sends. exec.
  destruct (GameServer.clients s !! ws) as [info|] eqn:Hinfo; [|by eauto].
  destruct (negb (truthy roomId) || negb (truthy playerId)); [by cbn -[render]; eauto|].
  destruct (JsMap.get roomId (GameServer.rooms s)) as [room|] eqn:Hroom.
  - rewrite (has_Some _ _ _ Hroom). cbn [negb].
    rewrite (on_room_found _ _ _ _ Hroom). unfold GameRoom.hasPlayer. exec.
    rewrite (set_get_id _ _ _ Hroom), server_eta.
    destruct (JsMap.has playerId (GameRoom.players room)) eqn:Hhas.
    + destruct (render _) eqn:Hline; cbn; eexists _, _;
        (split; [reflexivity|]); (split; [done|]); [done|].
      intros [? Hr] [? Hp]. render_contra Hline.
    + rewrite (on_room_found _ _ _ _ Hroom), addPlayer_eq.
      cbn [fst snd GameServer.rooms GameServer.clients].
      rewrite (alter_both _ _ _ _ _ Hinfo). fold (joined ws info roomId playerId room s).
      cbn [GameRoom.players room_with].
      destruct (render _) eqn:Hline; cbn -[recipients JsMap.set]; rewrite ?app_nil_r;
        eexists _, _; (split; [reflexivity|]);
        (split; [rewrite ?sends_app; cbn -[recipients JsMap.set]; rewrite ?app_nil_r;
                 destruct (Nat.eqb _ 2); by rewrite ?sends_WsSend|]); [done|].
      intros [? Hr] [? Hp]. render_contra Hline.
  - rewrite (has_None _ _ Hroom). cbn [negb render to_string].
    destruct (to_string roomId) as [rstr|] eqn:Hr.
    + cbn [fst snd].
      erewrite on_room_found by (cbn [GameServer.rooms]; apply get_set_same).
      unfold GameRoom.hasPlayer. exec. cbn [GameRoom.new GameRoom.players JsMap.has JsMap.get].
      erewrite on_room_found by (cbn [GameServer.rooms]; rewrite set_set_same; apply get_set_same).
      rewrite addPlayer_eq. unfold completion_of, final, output.
      cbn [fst snd GameServer.rooms GameServer.clients].
      rewrite !set_set_same.
      rewrite (alter_both _ _ _ _ _ Hinfo).
      fold (joined ws info roomId playerId (GameRoom.new roomId) s).
      destruct (to_string playerId) eqn:Hp; cbn; eexists _, _;
        (split; [reflexivity|]); (split; [done|]); [done|].
      by intros _ [].
    + cbn. eexists _, _. split; [reflexivity|]. split; [done|]. by intros [].
Qed.

(** ** Joining a second room (C10) *)

Lemma same_value_zero_VStr_ne a b : a <> b -> same_value_zero (VStr a) (VStr b) = false.
Proof. intros H. simpl. by apply String.eqb_neq. Qed.

Lemma truthy_VStr a : a <> "" -> truthy (VStr a) = true.
Proof. intros H. simpl. apply negb_true_iff. by apply String.eqb_neq. Qed.

(** C10. A connection recorded in room [r1] sends a valid [join_room] for
    another room [r2], with a player id [p2] that [r2] does not have.  The
    join goes through: the connection becomes member [p2] of [r2] and its
    ClientInfo now names [r2] and [p2], while the entry of the table under
    [r1] -- the room object with all its members, the connection's own member
    entry among them -- is exactly what it was, so the connection is a member
    of both rooms.  When it then disconnects, its registry entry goes, [p2]
    is removed from [r2] (the room is deleted if that empties it), and the
    entry under [r1] is still what it was: the stale member stays (last
    part: any member entry of the connection in [r1] is there after the join
    and after the disconnect). *)
Theorem C10_second_join_leaves_stale_member :
  forall (rs rs' : conn -> ReadyState) (ws : conn) (closeCode reason : option string)
         (s : GameServer.t) (info : ClientInfo.t) (r1 r2 p2 : string),
    GameServer.clients s !! ws = Some info ->
    ClientInfo.roomId info = VStr r1 ->
    r1 <> r2 -> r2 <> "" -> p2 <> "" ->
    (forall room2, JsMap.get (VStr r2) (GameServer.rooms s) = Some room2 ->
                   JsMap.has (VStr p2) (GameRoom.players room2) = false) ->
    let joining := GameServer.handleJoinRoom rs ws (VStr r2) (VStr p2) s in
    let s1 := final joining in
    let leaving := GameServer.handleDisconnect rs' ws closeCode reason s1 in
    completion_of joining = Normal () /\
    (exists room2, JsMap.get (VStr r2) (GameServer.rooms s1) = Some room2 /\
       JsMap.get (VStr p2) (GameRoom.players room2) = Some (Player.mk ws (ClientInfo.id info))) /\
    GameServer.clients s1 !! ws = Some (ClientInfo.mk (ClientInfo.id info) (VStr r2) (VStr p2)) /\
    JsMap.get (VStr r1) (GameServer.rooms s1) = JsMap.get (VStr r1) (GameServer.rooms s) /\
    completion_of leaving = Normal () /\
    GameServer.clients (final leaving) !! ws = None /\
    JsMap.get (VStr r1) (GameServer.rooms (final leaving)) = JsMap.get (VStr r1) (GameServer.rooms s) /\
    (forall room2, JsMap.get (VStr r2) (GameServer.rooms (final leaving)) = Some room2 ->
                   JsMap.get (VStr p2) (GameRoom.players room2) = None) /\
    (forall room1 p1 member,
       JsMap.get (VStr r1) (GameServer.rooms s) = Some room1 ->
       JsMap.get p1 (GameRoom.players room1) = Some member -> Player.ws member = ws ->
       (exists room, JsMap.get (VStr r1) (GameServer.rooms s1) = Some room /\
                     JsMap.get p1 (GameRoom.players room) = Some member) /\
       (exists room, JsMap.get (VStr r1) (GameServer.rooms (final leaving)) = Some room /\
                     JsMap.get p1 (GameRoom.players room) = Some member)).
Proof.
  intros rs rs' ws closeCode reason s info r1 r2 p2 Hinfo Hr1 Hne Hr2 Hp2 Hfree joining s1 leaving.
  cut (completion_of joining = Normal () /\
    (exists room2, JsMap.get (VStr r2) (GameServer.rooms s1) = Some room2 /\
       JsMap.get (VStr p2) (GameRoom.players room2) = Some (Player.mk ws (ClientInfo.id info))) /\
    GameServer.clients s1 !! ws = Some (ClientInfo.mk (ClientInfo.id info) (VStr r2) (VStr p2)) /\
    JsMap.get (VStr r1) (GameServer.rooms s1) = JsMap.get (VStr r1) (GameServer.rooms s) /\
    completion_of leaving = Normal () /\
    GameServer.clients (final leaving) !! ws = None /\
    JsMap.get (VStr r1) (GameServer.rooms (final leaving)) = JsMap.get (VStr r1) (GameServer.rooms s) /\
    (forall room2, JsMap.get (VStr r2) (GameServer.rooms (final leaving)) = Some room2 ->
                   JsMap.get (VStr p2) (GameRoom.players room2) = None)).
  { intros (H1 & H2 & H3 & H4 & H5 & H6 & H7 & H8).
    do 8 (split; [assumption|]).
    intros room1 p1 member Hroom1 Hmember _. rewrite H4, H7. split; exists room1; done. }
  assert (Hkeys : same_value_zero (VStr r2) (VStr r1) = false)
    by (apply same_value_zero_VStr_ne; congruence).
  destruct (handleJoinRoom_eq rs ws (VStr r2) (VStr p2) s) as (c & out & Heq & _ & Hc).
  assert (exists room, s1 = joined ws info (VStr r2) (VStr p2) room s) as [room Hs1].
  { subst s1 joining. rewrite Heq. unfold final, join_state. cbn [fst snd].
    rewrite Hinfo, (truthy_VStr _ Hr2), (truthy_VStr _ Hp2). cbn [negb orb].
    destruct (JsMap.get (VStr r2) (GameServer.rooms s)) as [room2|] eqn:Hroom2.
    - rewrite (Hfree room2 eq_refl). eauto.
    - cbn [to_string]. eauto. }
  assert (Hjoin : completion_of joining = Normal ()).
  { subst joining. rewrite Heq. apply Hc; cbn; eauto. }
  subst leaving. rewrite Hjoin, Hs1. clear Heq Hc Hjoin Hs1 s1 joining.
  set (room2 := room_with ws (ClientInfo.id info) (VStr p2) room).
  assert (Hroom2 : JsMap.get (VStr r2) (GameServer.rooms (joined ws info (VStr r2) (VStr p2) room s))
                   = Some room2) by apply get_set_same.
  assert (Hinfo2 : GameServer.clients (joined ws info (VStr r2) (VStr p2) room s) !! ws
                   = Some (ClientInfo.mk (ClientInfo.id info) (VStr r2) (VStr p2)))
    by apply lookup_insert_eq.
  assert (Hr1same : JsMap.get (VStr r1) (GameServer.rooms (joined ws info (VStr r2) (VStr p2) room s))
                    = JsMap.get (VStr r1) (GameServer.rooms s))
    by (by apply get_set_other).
  destruct (handleDisconnect_member rs' ws closeCode reason _ _ r2 p2 Hinfo2 eq_refl eq_refl Hr2 Hp2)
    as (before & after & _ & _ & Hleave).
  rewrite Hroom2 in Hleave. rewrite Hleave.
  unfold completion_of, final. cbn [fst snd GameServer.rooms GameServer.clients].
  split; [done|]. split; [exists room2; split; [done|apply get_set_same]|].
  split; [done|]. split; [done|]. split; [done|]. split; [apply lookup_delete_eq|].
  unfold rooms_after_leave. destruct (Nat.eqb _ 0).
  - split.
    + by rewrite get_delete_other.
    + intros room2'. by rewrite get_delete_same.
  - split.
    + by rewrite get_set_other.
    + intros room2'. rewrite get_set_same. intros [= <-].
      cbn [room_without GameRoom.players]. apply get_delete_same.
Qed.

(** Witness: connection 1 sits in "r1" as "p1", joins "r2" as "p9", leaves. *)
Lemma C10_second_join_witness :
  let s := state_after [Connection 1 "a"; Message all_open 1 (join_room "r1" "p1")] in
  let s1 := final (GameServer.handleJoinRoom all_open 1 (VStr "r2") (VStr "p9") s) in
  let s2 := final (GameServer.handleDisconnect all_open 1 None None s1) in
  JsMap.get (VStr "r1") (GameServer.rooms s1) = JsMap.get (VStr "r1") (GameServer.rooms s) /\
  GameServer.clients s2 !! 1 = None /\
  JsMap.get (VStr "r1") (GameServer.rooms s2) = JsMap.get (VStr "r1") (GameServer.rooms s).
Proof.
  intros s s1 s2.
  pose proof (C10_second_join_leaves_stale_member all_open all_open 1 None None s
                (ClientInfo.mk "a" (VStr "r1") (VStr "p1")) "r1" "r2" "p9"
                eq_refl eq_refl) as H.
  destruct H as (_ & _ & _ & H1 & _ & H2 & H3 & _); [done|done|done|by intros room2 [=]|].
  exact (conj H1 (conj H2 H3)).
Defined.

(** ** The relays in closed form *)

Lemma handleChat_eq rs ws message displayName text s :
  get_prop message "displayName" = Normal displayName ->
  get_prop message "message" = Normal text ->
  exists c out,
    GameServer.handleChat rs ws message s = (c, s, out) /\
    relayed rs ws s
      (fun info => object_literal [("type", VStr "chat"); ("playerId", ClientInfo.playerId info);
                                   ("displayName", displayName); ("message", text)])
      (sends out) /\
    (printable displayName -> printable text -> printable_player ws s -> c = Normal ()).
Proof.
  intros Hd Ht. unfold GameServer.handleChat, relayed, printable_player, printable. exec.
  destruct (GameServer.clients s !! ws) as [info|] eqn:Hinfo; [|by cbn; eauto 10].
  destruct (truthy (ClientInfo.roomId info)) eqn:Hin; [|by cbn; eauto 10].
  cbn [negb].
  destruct (JsMap.get (ClientInfo.roomId info) (GameServer.rooms s)) as [room|] eqn:Hroom;
    [|by cbn; eauto 10].
  rewrite Hd, Ht.
  destruct (render _) eqn:Hline.
  - destruct (stringify_object 0 [("type", VStr "chat"); ("playerId", ClientInfo.playerId info);
                                  ("displayName", displayName); ("message", text)]) as [ms Hdata].
    fold (object_literal [("type", VStr "chat"); ("playerId", ClientInfo.playerId info);
                          ("displayName", displayName); ("message", text)]) in Hdata.
    rewrite (on_room_broadcast _ _ _ _ _ _ _ Hroom Hdata). cbn [fst snd app].
    eexists _, _. split; [reflexivity|]. split; [|done].
    right. exists info, room, (JObj ms). cbn [sends flat_map app]. rewrite sends_WsSend. done.
  - eexists _, _. split; [reflexivity|]. split; [by left|].
    intros [? ?] [? ?] Hp. destruct (Hp info eq_refl). render_contra Hline.
Qed.

Lemma handleActionComplete_eq rs ws message s :
  exists c out,
    GameServer.handleActionComplete rs ws message s = (c, s, out) /\
    relayed rs ws s
      (fun info => object_literal [("type", VStr "action_complete");
                                   ("playerId", ClientInfo.playerId info)])
      (sends out) /\
    (printable_player ws s -> c = Normal ()).
Proof.
  unfold GameServer.handleActionComplete, relayed, printable_player, printable. exec.
  destruct (GameServer.clients s !! ws) as [info|] eqn:Hinfo; [|by cbn; eauto 10].
  destruct (truthy (ClientInfo.roomId info)) eqn:Hin; [|by cbn; eauto 10].
  cbn [negb].
  destruct (JsMap.get (ClientInfo.roomId info) (GameServer.rooms s)) as [room|] eqn:Hroom;
    [|by cbn; eauto 10].
  destruct (render _) eqn:Hline.
  - destruct (stringify_object 0 [("type", VStr "action_complete");
                                  ("playerId", ClientInfo.playerId info)]) as [ms Hdata].
    fold (object_literal [("type", VStr "action_complete");
                          ("playerId", ClientInfo.playerId info)]) in Hdata.
    rewrite (on_room_broadcast _ _ _ _ _ _ _ Hroom Hdata). cbn [fst snd app].
    eexists _, _. split; [reflexivity|]. split; [|done].
    right. exists info, room, (JObj ms). cbn [sends flat_map app]. rewrite sends_WsSend. done.
  - eexists _, _. split; [reflexivity|]. split; [by left|].
    intros Hp. destruct (Hp info eq_refl). render_contra Hline.
Qed.

Lemma handleGameOver_eq rs ws message s :
  exists c out,
    GameServer.handleGameOver rs ws message s = (c, s, out) /\
    relayed rs ws s
      (fun info => object_literal [("type", VStr "game_over");
                                   ("playerId", ClientInfo.playerId info)])
      (sends out) /\
    (printable_player ws s -> c = Normal ()).
Proof.
  unfold GameServer.handleGameOver, relayed, printable_player, printable. exec.
  destruct (GameServer.clients s !! ws) as [info|] eqn:Hinfo; [|by cbn; eauto 10].
  destruct (truthy (ClientInfo.roomId info)) eqn:Hin; [|by cbn; eauto 10].
  cbn [negb].
  destruct (JsMap.get (ClientInfo.roomId info) (GameServer.rooms s)) as [room|] eqn:Hroom;
    [|by cbn; eauto 10].
  destruct (render _) eqn:Hline.
  - destruct (stringify_object 0 [("type", VStr "game_over");
                                  ("playerId", ClientInfo.playerId info)]) as [ms Hdata].
    fold (object_literal [("type", VStr "game_over");
                          ("playerId", ClientInfo.playerId info)]) in Hdata.
    rewrite (on_room_broadcast _ _ _ _ _ _ _ Hroom Hdata). cbn [fst snd app].
    eexists _, _. split; [reflexivity|]. split; [|done].
    right. exists info, room, (JObj ms). cbn [sends flat_map app]. rewrite sends_WsSend. done.
  - eexists _, _. split; [reflexivity|]. split; [by left|].
    intros Hp. destruct (Hp info eq_refl). render_contra Hline.
Qed.

(** ** Inbound frames (C5) *)

(** Strings, numbers, booleans, null and undefined all convert; so does an
    object without a field named ["toString"]. *)
Lemma primitive_printable v : primitive v -> printable v.
Proof. destruct v as [| |[]| | | |]; cbn; try done; unfold printable; cbn; eauto. Qed.

Lemma plain_object_printable ref props :
  own_property "toString" props = None -> printable (VObj ref props).
Proof. intros H. unfold printable. cbn. rewrite H. eauto. Qed.

Lemma handleMessage_completes rs ws message s :
  printable_message message -> printable_player ws s ->
  completion_of (GameServer.handleMessage rs ws message s) = Normal ().
Proof.
  intros Hmsg Hplayer.
  destruct (Hmsg "type") as (ty & Hty & Hpty); [cbn; tauto|].
  destruct (Hmsg "roomId") as (roomId & Hrid & Hproom); [cbn; tauto|].
  destruct (Hmsg "playerId") as (playerId & Hpid & Hpp); [cbn; tauto|].
  destruct (Hmsg "displayName") as (displayName & Hdn & Hpdn); [cbn; tauto|].
  destruct (Hmsg "message") as (text & Htx & Hptx); [cbn; tauto|].
  unfold GameServer.handleMessage. exec.
  destruct (GameServer.clients s !! ws) as [info|] eqn:Hinfo; [|done].
  cbn [render to_string]. rewrite Hty.
  destruct (strict_equals ty (VStr "join_room")).
  { rewrite Hrid, Hpid.
    destruct (handleJoinRoom_eq rs ws roomId playerId s) as (c & out & -> & _ & Hc).
    by rewrite Hc. }
  destruct (strict_equals ty (VStr "chat")).
  { destruct (handleChat_eq rs ws message displayName text s Hdn Htx) as (c & out & -> & _ & Hc).
    by rewrite Hc. }
  destruct (strict_equals ty (VStr "game_over")).
  { destruct (handleGameOver_eq rs ws message s) as (c & out & -> & _ & Hc). by rewrite Hc. }
  destruct (strict_equals ty (VStr "action_complete")).
  { destruct (handleActionComplete_eq rs ws message s) as (c & out & -> & _ & Hc). by rewrite Hc. }
  destruct Hpty as [line Hline]. rewrite Hline. done.
Qed.

(** C5 (as the code has it).  The message callback never lets an error out:
    its completion is normal for every frame.  A frame that is not JSON
    leaves the server unchanged and only logs the SyntaxError.  For a decoded
    message the callback ends in the state and with the output of
    [handleMessage]; when [handleMessage] throws -- and it can -- the error
    is caught and logged.  [handleMessage] runs to completion whenever the
    message fields and the sender's player id convert to strings.  (No
    callback ever closes a socket: the program has no call to [close].) *)
Theorem C5_frame_errors_are_contained :
  forall (rs : conn -> ReadyState) (ws : conn) (data : GameServer.frame) (s : GameServer.t),
    let r := GameServer.on_message rs ws data s in
    completion_of r = Normal () /\
    (data = GameServer.Malformed ->
       final r = s /\ output r = [ConsoleError "Error parsing message:" SyntaxError]) /\
    (forall message, data = GameServer.Decodes message ->
       let h := GameServer.handleMessage rs ws message s in
       final r = final h /\
       output r = output h ++
                  match completion_of h with
                  | Normal _ => []
                  | Throw e => [ConsoleError "Error parsing message:" e]
                  end /\
       (printable_message message -> printable_player ws s -> completion_of h = Normal ())).
Proof.
  intros rs ws data s r. subst r. unfold GameServer.on_message, GameServer.JSON_parse.
  destruct data as [|message].
  - exec. cbn. split; [done|]. split; [done|]. intros message [=].
  - split; [|split; [done|]].
    + exec. destruct (GameServer.handleMessage rs ws message s) as [[[[]|e] s'] out]; done.
    + intros ? [= <-]. cbv zeta. split; [|split; [|apply handleMessage_completes]].
      * exec. destruct (GameServer.handleMessage rs ws message s) as [[[[]|e] s'] out]; done.
      * exec. destruct (GameServer.handleMessage rs ws message s) as [[[[]|e] s'] out]; cbn;
          by rewrite ?app_nil_r.
Qed.

Lemma C5_frame_errors_witness :
  let s := state_after [Connection 1 "a"] in
  let r := GameServer.on_message all_open 1 GameServer.Malformed s in
  completion_of r = Normal () /\ final r = s.
Proof.
  intros s r.
  destruct (C5_frame_errors_are_contained all_open 1 GameServer.Malformed s) as (H1 & H2 & _).
  destruct (H2 eq_refl) as [H3 _]. exact (conj H1 H3).
Defined.

(** The claim as stated fails: a member sends a chat whose [displayName] is
    an object with a ["toString"] field.  The log line in front of the
    broadcast cannot convert it, and [handleChat] throws out of
    [handleMessage]. *)
Lemma C5_handler_raises :
  completion_of
    (GameServer.handleMessage all_open 1
       (VObj 0 [("type", VStr "chat");
                ("displayName", VObj 1 [("toString", VNull)]);
                ("message", VStr "hi")])
       (state_after [Connection 1 "a"; Message all_open 1 (join_room "r1" "p1")]))
  = Throw cannot_convert.
Proof. vm_compute. reflexivity. Qed.

(** The callback catches it; the chat is not relayed at all. *)
Example chat_with_unprintable_name_is_dropped :
  let s := state_after [Connection 1 "a"; Message all_open 1 (join_room "r1" "p1")] in
  GameServer.on_message all_open 1
    (GameServer.Decodes (VObj 0 [("type", VStr "chat");
                                 ("displayName", VObj 1 [("toString", VNull)]);
                                 ("message", VStr "hi")])) s
  = (Normal (), s,
     [ConsoleLog [VStr "Received message from a:";
                  VObj 0 [("type", VStr "chat");
                          ("displayName", VObj 1 [("toString", VNull)]);
                          ("message", VStr "hi")]];
      ConsoleError "Error parsing message:" cannot_convert]).
Proof. vm_compute. reflexivity. Qed.

(** Nor does it take a room: a [type] that does not convert reaches the
    default branch, whose log line throws. *)
Example unknown_type_unprintable :
  completion_of
    (GameServer.handleMessage all_open 1
       (VObj 0 [("type", VObj 1 [("toString", VNum "1")])])
       (state_after [Connection 1 "a"]))
  = Throw cannot_convert.
Proof. vm_compute. reflexivity. Qed.

(** A decoded [null] is not an object; reading its [type] throws. *)
Example null_message :
  GameServer.on_message all_open 1 (GameServer.Decodes VNull) (state_after [Connection 1 "a"])
  = (Normal (), state_after [Connection 1 "a"],
     [ConsoleLog [VStr "Received message from a:"; VNull];
      ConsoleError "Error parsing message:" (TypeError "Cannot read properties of null or undefined")]).
Proof. vm_compute. reflexivity. Qed.

(** ** Disconnect, whatever the ids are *)

Lemma handlePlayerDisconnect_gen rs roomId playerId s :
  exists c out s',
    GameServer.handlePlayerDisconnect rs roomId playerId s = (c, s', out) /\
    GameServer.clients s' = GameServer.clients s /\
    rooms_left roomId playerId (GameServer.rooms s) (GameServer.rooms s') /\
    (sends out = [] \/
     exists room data,
       JsMap.get roomId (GameServer.rooms s) = Some room /\
       JSON_stringify (disconnect_message playerId) = Some data /\
       sends out = List.map (fun w => (w, data)) (recipients rs None (GameRoom.players room))).
Proof.
  unfold GameServer.handlePlayerDisconnect, rooms_left. exec.
  destruct (JsMap.get roomId (GameServer.rooms s)) as [room|] eqn:Hroom.
  - destruct (stringify_object 0 [("type", VStr "disconnect"); ("playerId", playerId)]) as [ms Hdata].
    fold (object_literal [("type", VStr "disconnect"); ("playerId", playerId)]) in Hdata.
    rewrite (on_room_broadcast _ _ _ _ _ _ _ Hroom Hdata).
    rewrite (on_room_found _ _ _ _ Hroom), removePlayer_eq.
    unfold completion_of, final, output. cbn [fst snd].
    assert (Hsent : forall logs, sends logs = [] ->
      sends (List.map (fun w => WsSend w (JObj ms)) (recipients rs None (GameRoom.players room)) ++ logs)
      = List.map (fun w => (w, JObj ms)) (recipients rs None (GameRoom.players room))).
    { intros logs Hl. by rewrite sends_app, sends_WsSend, Hl, app_nil_r. }
    destruct (render [VStr "Player "; _; _; _; _]) eqn:Hline1.
    + cbn [fst snd].
      erewrite on_room_found by (cbn [GameServer.rooms]; apply get_set_same).
      unfold GameRoom.getPlayerCount. exec. rewrite set_set_same.
      destruct (Nat.eqb _ 0); cbn [fst snd GameServer.rooms GameServer.clients].
      * rewrite delete_set_same.
        destruct (render [VStr "Room "; _; _]) eqn:Hline2; cbn [fst snd app]; rewrite ?app_nil_r;
          eexists _, _, _; (split; [reflexivity|]); cbn [GameServer.clients GameServer.rooms];
          (split; [done|]); (split; [right; exists room; by eauto|]);
          right; exists room, (JObj ms); repeat split; try done; by apply Hsent.
      * cbn [fst snd app]. rewrite ?app_nil_r.
        eexists _, _, _. split; [reflexivity|]. cbn [GameServer.clients GameServer.rooms].
        split; [done|]. split; [right; exists room; by eauto|].
        right. exists room, (JObj ms). repeat split; try done. by apply Hsent.
    + cbn [fst snd app]. rewrite ?app_nil_r.
      eexists _, _, _. split; [reflexivity|]. cbn [GameServer.clients GameServer.rooms].
      split; [done|]. split; [right; exists room; by eauto|].
      right. exists room, (JObj ms). repeat split; try done. by rewrite sends_WsSend.
  - destruct (render _); cbn; eexists _, _, _; (split; [reflexivity|]); by eauto.
Qed.

Lemma handleDisconnect_gen rs ws closeCode reason s :
  exists c out s',
    GameServer.handleDisconnect rs ws closeCode reason s = (c, s', out) /\
    (GameServer.clients s' = GameServer.clients s \/
     GameServer.clients s' = delete ws (GameServer.clients s)) /\
    (GameServer.rooms s' = GameServer.rooms s \/
     exists info, GameServer.clients s !! ws = Some info /\
       rooms_left (ClientInfo.roomId info) (ClientInfo.playerId info)
         (GameServer.rooms s) (GameServer.rooms s')) /\
    relayed rs ws s (fun info => disconnect_message (ClientInfo.playerId info)) (sends out).
Proof.
  unfold GameServer.handleDisconnect, relayed. exec.
  destruct (GameServer.clients s !! ws) as [info|] eqn:Hinfo; [|by eauto 10].
  destruct (render [VStr "Client "; _; _; _; _; _; _; _]) eqn:Hline1; [|by eauto 10].
  cbn [fst snd].
  destruct (truthy (ClientInfo.roomId info) && truthy (ClientInfo.playerId info)) eqn:Hids.
  - apply andb_prop in Hids as [Hrid Hpid].
    destruct (render [VStr "Player "; _; _; _; _]) eqn:Hline2; [|by cbn; eauto 10].
    cbn [fst snd].
    destruct (handlePlayerDisconnect_gen rs (ClientInfo.roomId info) (ClientInfo.playerId info) s)
      as (c & out & s' & -> & Hclients & Hrooms & Hsent).
    assert (Hrel : sends out = [] \/
      exists info0 room data, Some info = Some info0 /\ truthy (ClientInfo.roomId info0) = true /\
        JsMap.get (ClientInfo.roomId info0) (GameServer.rooms s) = Some room /\
        JSON_stringify (disconnect_message (ClientInfo.playerId info0)) = Some data /\
        sends out = List.map (fun w => (w, data)) (recipients rs None (GameRoom.players room))).
    { destruct Hsent as [?|(room & data & ? & ? & ?)]; [by left|].
      right. exists info, room, data. done. }
    destruct c as [[]|e]; cbn [fst snd app GameServer.clients GameServer.rooms];
      eexists _, _, _; (split; [reflexivity|]); cbn [GameServer.clients GameServer.rooms];
      rewrite ?app_nil_r, ?Hclients; (split; [by eauto|]); (split; [by eauto|]);
      by cbn [sends flat_map app].
  - cbn [fst snd app].
    eexists _, _, _. split; [reflexivity|]. cbn [GameServer.clients GameServer.rooms]. by eauto 10.
Qed.

(** ** One event, summarized *)

Lemma get_prop_total message k v k' :
  get_prop message k = Normal v -> exists v', get_prop message k' = Normal v'.
Proof. destruct message; cbn; try done; eauto. Qed.

Lemma handleMessage_summary rs ws message s :
  exists c out s',
    GameServer.handleMessage rs ws message s = (c, s', out) /\
    match join_request message with
    | Some (roomId, playerId) =>
        s' = join_state ws roomId playerId s /\ sends out = join_sends rs ws roomId playerId s
    | None =>
        s' = s /\
        exists message_of,
          In message_of [chat_message message; action_complete_message; game_over_message] /\
          relayed rs ws s message_of (sends out)
    end.
Proof.
  unfold GameServer.handleMessage, join_request. exec.
  destruct (GameServer.clients s !! ws) as [info|] eqn:Hinfo.
  - cbn [render to_string fst snd].
    destruct (get_prop message "type") as [ty|e] eqn:Hty.
    + destruct (get_prop_total _ _ _ "roomId" Hty) as [roomId Hrid].
      destruct (get_prop_total _ _ _ "playerId" Hty) as [playerId Hpid].
      destruct (get_prop_total _ _ _ "displayName" Hty) as [displayName Hdn].
      destruct (get_prop_total _ _ _ "message" Hty) as [text Htx].
      rewrite Hrid, Hpid.
      destruct (strict_equals ty (VStr "join_room")).
      { destruct (handleJoinRoom_eq rs ws roomId playerId s) as (c & out & -> & Hs & _).
        cbn [fst snd]. eexists _, _, _. split; [reflexivity|]. done. }
      destruct (strict_equals ty (VStr "chat")).
      { destruct (handleChat_eq rs ws message displayName text s Hdn Htx) as (c & out & -> & Hs & _).
        cbn [fst snd]. eexists _, _, _. split; [reflexivity|]. split; [done|].
        exists (chat_message message). split; [by left|].
        unfold chat_message, prop_or_undefined. rewrite Hdn, Htx. done. }
      destruct (strict_equals ty (VStr "game_over")).
      { destruct (handleGameOver_eq rs ws message s) as (c & out & -> & Hs & _).
        cbn [fst snd]. eexists _, _, _. split; [reflexivity|]. split; [done|].
        exists game_over_message. split; [right; right; by left|done]. }
      destruct (strict_equals ty (VStr "action_complete")).
      { destruct (handleActionComplete_eq rs ws message s) as (c & out & -> & Hs & _).
        cbn [fst snd]. eexists _, _, _. split; [reflexivity|]. split; [done|].
        exists action_complete_message. split; [right; by left|done]. }
      destruct (to_string ty); cbn; eexists _, _, _; (split; [reflexivity|]); (split; [done|]);
        exists game_over_message; (split; [right; right; by left|by left]).
    + cbn. eexists _, _, _. split; [reflexivity|]. split; [done|].
      exists game_over_message. split; [right; right; by left|by left].
  - eexists _, _, _. split; [reflexivity|].
    destruct (get_prop message "type"), (get_prop message "roomId"), (get_prop message "playerId");
      try destruct (strict_equals _ _);
      try (split; [done|]; exists game_over_message; split; [right; right; by left|by left]).
    unfold join_state, join_sends. by rewrite Hinfo.
Qed.

Lemma on_message_summary rs ws data s :
  exists out s',
    GameServer.on_message rs ws data s = (Normal (), s', out) /\
    match data with
    | GameServer.Malformed => s' = s /\ sends out = []
    | GameServer.Decodes message =>
        match join_request message with
        | Some (roomId, playerId) =>
            s' = join_state ws roomId playerId s /\ sends out = join_sends rs ws roomId playerId s
        | None =>
            s' = s /\
            exists message_of,
              In message_of [chat_message message; action_complete_message; game_over_message] /\
              relayed rs ws s message_of (sends out)
        end
    end.
Proof.
  unfold GameServer.on_message, GameServer.JSON_parse.
  destruct data as [|message]; [by exec; cbn; eauto|].
  destruct (handleMessage_summary rs ws message s) as (c & out & s' & Heq & Hsum).
  exec. rewrite Heq.
  destruct c as [[]|e]; cbn; eexists _, _; (split; [reflexivity|]); [done|].
  rewrite sends_app, app_nil_r. done.
Qed.

(** The repeated join of C4 and the second-room join of C10 arrive as
    messages; through the callback the repeated join is as silent. *)
Lemma rejoin_event rs ws message roomId playerId room s :
  join_request message = Some (roomId, playerId) ->
  JsMap.get roomId (GameServer.rooms s) = Some room ->
  JsMap.has playerId (GameRoom.players room) = true ->
  let r := dispatch (Message rs ws (GameServer.Decodes message)) s in
  completion_of r = Normal () /\ final r = s /\ sends (output r) = [].
Proof.
  intros Hreq Hroom Hhas. cbn [dispatch].
  destruct (on_message_summary rs ws (GameServer.Decodes message) s) as (out & s' & -> & Hsum).
  rewrite Hreq in Hsum. destruct Hsum as [-> Hout].
  unfold completion_of, final, output. cbn [fst snd]. rewrite Hout.
  unfold join_state, join_sends.
  destruct (GameServer.clients s !! ws) as [info|]; [|done].
  destruct (negb (truthy roomId) || negb (truthy playerId)); [done|].
  by rewrite Hroom, Hhas.
Qed.

(** ** [game_started] (C2) *)

Lemma started_notice l : started (List.map (fun w => (w, game_started_notice)) l) = l.
Proof. unfold started. induction l as [|w l IH]; [done|]. cbn. by f_equal. Qed.

Lemma started_other data l :
  is_game_started data = false -> started (List.map (fun w => (w, data)) l) = [].
Proof. intros H. unfold started. induction l as [|w l IH]; [done|]. cbn. by rewrite H. Qed.

Lemma relayed_not_started rs ws s message_of sent :
  relayed rs ws s message_of sent ->
  (forall info data, JSON_stringify (message_of info) = Some data -> is_game_started data = false) ->
  started sent = [].
Proof.
  intros [->|(info & room & data & _ & _ & _ & Hdata & ->)] Hno; [done|].
  apply started_other. eauto.
Qed.

Lemma relay_messages_not_started message message_of info data :
  In message_of [chat_message message; action_complete_message; game_over_message] ->
  JSON_stringify (message_of info) = Some data -> is_game_started data = false.
Proof.
  intros [<-|[<-|[<-|[]]]]; cbn; intros [= <-];
    repeat match goal with |- context [JSON_stringify ?v] => destruct (JSON_stringify v) end; done.
Qed.

Lemma disconnect_message_not_started playerId data :
  JSON_stringify (disconnect_message playerId) = Some data -> is_game_started data = false.
Proof. cbn. intros [= <-]. by destruct (JSON_stringify playerId). Qed.

Lemma join_sends_started rs ws roomId playerId s :
  started (join_sends rs ws roomId playerId s) =
    match second_join ws roomId playerId s with
    | Some members => recipients rs None members
    | None => []
    end.
Proof.
  unfold join_sends, second_join.
  destruct (GameServer.clients s !! ws) as [info|]; [|done].
  destruct (truthy roomId), (truthy playerId); cbn [negb orb andb]; try done.
  destruct (JsMap.get roomId (GameServer.rooms s)) as [room|]; [|done].
  rewrite size_set.
  destruct (JsMap.has playerId (GameRoom.players room)); cbn [negb andb]; [done|].
  change (Nat.eqb (S (JsMap.size (GameRoom.players room))) 2)
    with (Nat.eqb (JsMap.size (GameRoom.players room)) 1).
  destruct (Nat.eqb _ 1); [|done]. apply started_notice.
Qed.

(** C2 (as the code has it).  At every step, [game_started] is written
    exactly when the step is a [join_room] that fills a room -- a registered
    sender, both ids present, and a room that has exactly one member, other
    than [playerId] -- and then it goes to every open member of the room,
    which after the step has exactly two members, the joiner among them.  No
    other step writes it.  Nothing makes this happen once per room. *)
Theorem C2_game_started_when_room_fills :
  forall (e : event) (s : GameServer.t),
    let r := dispatch e s in
    started (sends (output r)) =
      match e with
      | Message rs ws (GameServer.Decodes message) =>
          match join_request message with
          | Some (roomId, playerId) =>
              match second_join ws roomId playerId s with
              | Some members => recipients rs None members
              | None => []
              end
          | None => []
          end
      | _ => []
      end /\
    (forall rs ws message roomId playerId members,
       e = Message rs ws (GameServer.Decodes message) ->
       join_request message = Some (roomId, playerId) ->
       second_join ws roomId playerId s = Some members ->
       JsMap.size members = 2 /\
       JsMap.has playerId members = true /\
       exists room', JsMap.get roomId (GameServer.rooms (final r)) = Some room' /\
                     GameRoom.players room' = members).
Proof.
  intros e s r. subst r. split.
  - destruct e as [ws clientId|rs ws data|rs ws code reason|ws error]; cbn [dispatch].
    + done.
    + destruct (on_message_summary rs ws data s) as (out & s' & -> & Hsum).
      unfold output. cbn [snd].
      destruct data as [|message]; [by destruct Hsum as [_ ->]|].
      destruct (join_request message) as [[roomId playerId]|].
      * destruct Hsum as [_ ->]. apply join_sends_started.
      * destruct Hsum as (_ & message_of & Hin & Hrel).
        eapply relayed_not_started; [exact Hrel|].
        intros info data. by apply relay_messages_not_started with (message := message).
    + unfold GameServer.on_close.
      destruct (handleDisconnect_gen rs ws (Some code) (Some reason) s)
        as (c & out & s' & -> & _ & _ & Hrel).
      unfold output. cbn [snd].
      eapply relayed_not_started; [exact Hrel|].
      intros info data. apply disconnect_message_not_started.
    + done.
  - intros rs ws message roomId playerId members -> Hreq Hfill. cbn [dispatch].
    destruct (on_message_summary rs ws (GameServer.Decodes message) s) as (out & s' & -> & Hsum).
    rewrite Hreq in Hsum. destruct Hsum as [-> _]. unfold final. cbn [fst snd].
    unfold second_join in Hfill. unfold join_state.
    destruct (GameServer.clients s !! ws) as [info|]; [|done].
    destruct (truthy roomId), (truthy playerId); cbn [negb orb andb] in *; try done.
    destruct (JsMap.get roomId (GameServer.rooms s)) as [room|]; [|done].
    destruct (JsMap.has playerId (GameRoom.players room)) eqn:Hhas; cbn [negb andb] in *; [done|].
    destruct (Nat.eqb _ 1) eqn:Hsize; [|done]. injection Hfill as <-.
    apply Nat.eqb_eq in Hsize.
    split; [by rewrite size_set, Hhas, Hsize|].
    split; [apply has_get; rewrite get_set_same; eauto|].
    eexists. split; [apply get_set_same|done].
Qed.

(** The claim as stated fails: room "r1" fills, loses its second member,
    and fills again; [game_started] goes out at both fills. *)
Lemma C2_started_twice :
  List.map (fun out => started (sends out))
    (steps [Connection 1 "a"; Connection 2 "b"; Connection 3 "c";
            Message all_open 1 (join_room "r1" "p1");
            Message all_open 2 (join_room "r1" "p2");
            Close (closed_only 2) 2 "1000" "";
            Message (closed_only 2) 3 (join_room "r1" "p3")]
       GameServer.new)
  = [[]; []; []; []; [1; 2]; []; [1; 3]].
Proof. vm_compute. reflexivity. Qed.

Lemma C2_game_started_witness :
  let s := state_after [Connection 1 "a"; Connection 2 "b";
                        Message all_open 1 (join_room "r1" "p1")] in
  let members := [(VStr "p1", Player.mk 1 "a"); (VStr "p2", Player.mk 2 "b")] in
  started (sends (output (dispatch (Message all_open 2 (join_room "r1" "p2")) s))) = [1; 2] /\
  JsMap.size members = 2.
Proof.
  intros s members.
  destruct (C2_game_started_when_room_fills (Message all_open 2 (join_room "r1" "p2")) s)
    as [Hsent Hfull].
  split; [exact Hsent|].
  destruct (Hfull all_open 2 _ (VStr "r1") (VStr "p2") members eq_refl eq_refl eq_refl) as [H _].
  exact H.
Defined.

(** ** Room sizes (C1) *)

Section distinct_keys_facts.
Context {V : Type}.
Implicit Types (m : list (value * V)) (k : value) (v : V).

Lemma get_set_None k k' v m :
  same_value_zero k k' = false -> JsMap.get k' m = None -> JsMap.get k' (JsMap.set k v m) = None.
Proof. intros Hne Hm. by rewrite get_set_other. Qed.

Lemma get_delete_None k k' m : JsMap.get k' m = None -> JsMap.get k' (JsMap.delete k m) = None.
Proof.
  induction m as [|[k0 v0] m IH]; simpl; [done|].
  destruct (same_value_zero k0 k') eqn:E; [done|]. intros H.
  destruct (same_value_zero k0 k); simpl; [by apply IH|]. rewrite E. by apply IH.
Qed.

Lemma distinct_keys_set k v m : distinct_keys m -> distinct_keys (JsMap.set k v m).
Proof.
  induction m as [|[k0 v0] m IH]; simpl; [done|].
  intros [Hk0 Hm]. destruct (same_value_zero k0 k) eqn:E; simpl; [done|].
  split; [|by apply IH]. apply get_set_None; [|done].
  by rewrite same_value_zero_sym.
Qed.

Lemma distinct_keys_delete k m : distinct_keys m -> distinct_keys (JsMap.delete k m).
Proof.
  induction m as [|[k0 v0] m IH]; simpl; [done|].
  intros [Hk0 Hm]. destruct (same_value_zero k0 k); simpl; [by apply IH|].
  split; [by apply get_delete_None|by apply IH].
Qed.

Lemma get_None_In k m k' v : JsMap.get k m = None -> In (k', v) m -> same_value_zero k' k = false.
Proof.
  induction m as [|[k0 v0] m IH]; simpl; [done|].
  destruct (same_value_zero k0 k) eqn:E; [done|].
  intros H [[= -> ->]|Hin]; [done|by apply IH].
Qed.

(** Keys that are pairwise different and all equal to [a] or to [b]: at
    most two of them. *)
Lemma distinct_keys_two a b m :
  distinct_keys m ->
  (forall k v, In (k, v) m -> same_value_zero k a = true \/ same_value_zero k b = true) ->
  JsMap.size m <= 2.
Proof.
  destruct m as [|[k1 v1] [|[k2 v2] [|[k3 v3] m]]]; cbn [JsMap.size List.length]; try lia.
  intros (H1 & H2 & _) Hab. exfalso.
  assert (H12 : same_value_zero k2 k1 = false) by (eapply get_None_In; [exact H1|by left]).
  assert (H13 : same_value_zero k3 k1 = false) by (eapply get_None_In; [exact H1|right; by left]).
  assert (H23 : same_value_zero k3 k2 = false) by (eapply get_None_In; [exact H2|by left]).
  assert (Hmeet : forall x y c, same_value_zero x c = true -> same_value_zero y c = true ->
                                same_value_zero y x = true).
  { intros x y c Hx Hy. rewrite (same_value_zero_sym x c) in Hx.
    eauto using same_value_zero_trans. }
  destruct (Hab k1 v1) as [A1|B1]; [by left|..];
    (destruct (Hab k2 v2) as [A2|B2]; [right; by left|..]);
    (destruct (Hab k3 v3) as [A3|B3]; [right; right; by left|..]);
    try (rewrite (Hmeet _ _ _ A1 A2) in H12; discriminate);
    try (rewrite (Hmeet _ _ _ B1 B2) in H12; discriminate);
    try (rewrite (Hmeet _ _ _ A1 A3) in H13; discriminate);
    try (rewrite (Hmeet _ _ _ B1 B3) in H13; discriminate);
    try (rewrite (Hmeet _ _ _ A2 A3) in H23; discriminate);
    try (rewrite (Hmeet _ _ _ B2 B3) in H23; discriminate).
Qed.

(** The entry [set] writes sits where [get] was reading. *)
Lemma In_set_get k v k' v' m :
  In (k', v') (JsMap.set k v m) ->
  In (k', v') m \/
  (v' = v /\ match JsMap.get k m with
             | Some v0 => In (k', v0) m /\ same_value_zero k' k = true
             | None => k' = k
             end).
Proof.
  induction m as [|[k0 v0] m IH]; simpl.
  - intros [[= <- <-]|[]]. auto.
  - destruct (same_value_zero k0 k) eqn:E; simpl.
    + intros [[= <- <-]|H]; [|auto]. right. auto.
    + intros [H|H]; [auto|]. destruct (IH H) as [?|(-> & Hget)]; [auto|].
      right. split; [done|]. destruct (JsMap.get k m); [|done]. destruct Hget. auto.
Qed.
End distinct_keys_facts.

Lemma room_ok_mono js js' k room :
  (forall x, In x js -> In x js') -> room_ok js k room -> room_ok js' k room.
Proof.
  intros Hsub [Hd Ho]. split; [done|].
  intros p member Hin. destruct (Ho p member Hin) as (R & ? & ?). eauto.
Qed.

Lemma rooms_ok_mono js js' rooms :
  (forall x, In x js -> In x js') -> rooms_ok js rooms -> rooms_ok js' rooms.
Proof. intros Hsub H k room Hin. eapply room_ok_mono; eauto. Qed.

Lemma rooms_ok_set js k room' rooms :
  rooms_ok js rooms ->
  (forall k', same_value_zero k' k = true ->
     match JsMap.get k rooms with Some room => room_ok js k' room | None => True end ->
     room_ok js k' room') ->
  rooms_ok js (JsMap.set k room' rooms).
Proof.
  intros Hok Hnew k' v' Hin.
  destruct (In_set_get _ _ _ _ _ Hin) as [Hold|[-> Hget]]; [by apply Hok|].
  apply Hnew.
  - destruct (JsMap.get k rooms); [by destruct Hget|]. subst. apply same_value_zero_refl.
  - destruct (JsMap.get k rooms); [|done]. destruct Hget. by apply Hok.
Qed.

Lemma rooms_ok_delete js k rooms : rooms_ok js rooms -> rooms_ok js (JsMap.delete k rooms).
Proof. intros Hok k' v' Hin. apply Hok. by eapply In_delete. Qed.

Lemma room_ok_new js k roomId : room_ok js k (GameRoom.new roomId).
Proof. split; [done|]. intros p member []. Qed.

Lemma room_ok_with js k ws clientId roomId playerId room :
  same_value_zero k roomId = true ->
  In (roomId, playerId) js ->
  room_ok js k room ->
  room_ok js k (room_with ws clientId playerId room).
Proof.
  intros Hk Hjs [Hd Ho]. split; cbn [room_with GameRoom.players].
  - by apply distinct_keys_set.
  - intros p member Hin.
    destruct (In_set _ _ _ _ _ Hin) as [Hold|(_ & [->|(v0 & Hold & _)])]; eauto.
Qed.

Lemma room_ok_without js k playerId room : room_ok js k room -> room_ok js k (room_without playerId room).
Proof.
  intros [Hd Ho]. split; cbn [room_without GameRoom.players].
  - by apply distinct_keys_delete.
  - intros p member Hin. eapply Ho, In_delete, Hin.
Qed.

Lemma join_state_rooms_ok js ws roomId playerId s :
  In (roomId, playerId) js ->
  rooms_ok js (GameServer.rooms s) ->
  rooms_ok js (GameServer.rooms (join_state ws roomId playerId s)).
Proof.
  intros Hjs Hok. unfold join_state.
  destruct (GameServer.clients s !! ws) as [info|]; [|done].
  destruct (negb (truthy roomId) || negb (truthy playerId)); [done|].
  destruct (JsMap.get roomId (GameServer.rooms s)) as [room|] eqn:Hroom.
  - destruct (JsMap.has playerId (GameRoom.players room)); [done|].
    cbn [joined GameServer.rooms]. apply rooms_ok_set; [done|].
    rewrite Hroom. intros k' Hk' Hroom'. by apply room_ok_with with (roomId := roomId).
  - destruct (to_string roomId); cbn [joined GameServer.rooms];
      (apply rooms_ok_set; [done|]); rewrite Hroom; intros k' Hk' _.
    + apply room_ok_with with (roomId := roomId); [done|done|apply room_ok_new].
    + apply room_ok_new.
Qed.

Lemma rooms_left_ok js roomId playerId rooms rooms' :
  rooms_left roomId playerId rooms rooms' -> rooms_ok js rooms -> rooms_ok js rooms'.
Proof.
  intros [->|(room & Hroom & [->| ->])] Hok; [done| |by apply rooms_ok_delete].
  apply rooms_ok_set; [done|]. rewrite Hroom. intros k' _ Hroom'. by apply room_ok_without.
Qed.

(** One event keeps the rooms well-formed with respect to the requests seen
    so far, however the callback completes. *)
Lemma dispatch_rooms_ok js e s :
  rooms_ok js (GameServer.rooms s) ->
  rooms_ok (js ++ joins_of e) (GameServer.rooms (final (dispatch e s))).
Proof.
  intros Hok.
  assert (Hok' : rooms_ok (js ++ joins_of e) (GameServer.rooms s)).
  { eapply rooms_ok_mono; [|exact Hok]. intros x Hx. apply List.in_or_app. by left. }
  destruct e as [ws clientId|rs ws data|rs ws code reason|ws error]; cbn [dispatch]; try done.
  - destruct (on_message_summary rs ws data s) as (out & s' & -> & Hsum).
    unfold final. cbn [fst snd].
    destruct data as [|message]; [by destruct Hsum as [-> _]|].
    cbn [joins_of] in *.
    destruct (join_request message) as [[roomId playerId]|]; [|by destruct Hsum as [-> _]].
    destruct Hsum as [-> _]. apply join_state_rooms_ok; [|done].
    apply List.in_or_app. right. by left.
  - unfold GameServer.on_close.
    destruct (handleDisconnect_gen rs ws (Some code) (Some reason) s)
      as (c & out & s' & -> & _ & Hrooms & _).
    unfold final. cbn [fst snd].
    destruct Hrooms as [->|(info & _ & Hleft)]; [done|].
    eapply rooms_left_ok; eauto.
Qed.

Lemma run_rooms_ok events : forall js s,
  rooms_ok js (GameServer.rooms s) ->
  rooms_ok (js ++ joins events) (GameServer.rooms (final (run events s))).
Proof.
  induction events as [|e events IH]; intros js s Hok.
  - cbn. by rewrite app_nil_r.
  - cbn [run joins flat_map]. unfold mbind, M_bind.
    pose proof (dispatch_rooms_ok js e s Hok) as Hstep.
    destruct (dispatch e s) as [[[[]|err] s1] out1]; unfold final in *; cbn [fst snd] in *.
    + specialize (IH _ _ Hstep). rewrite <- app_assoc in IH.
      destruct (run events s1) as [[c2 s2] out2]. done.
    + eapply rooms_ok_mono; [|exact Hstep].
      intros x Hx. rewrite app_assoc. apply List.in_or_app. by left.
Qed.

(** C1 (as the code has it).  After any run, in every room of the table the
    member ids are pairwise different and each of them is the [playerId] of
    a [join_room] of the run for that room id.  So a room has at most two
    members as long as the joins for its id carry at most two different
    player ids.  The room itself takes any number of members. *)
Theorem C1_members_are_distinct_joined_ids :
  forall (events : list event) (k : value) (room : GameRoom.t),
    In (k, room) (GameServer.rooms (state_after events)) ->
    distinct_keys (GameRoom.players room) /\
    (forall p member, In (p, member) (GameRoom.players room) ->
       exists R, In (R, p) (joins events) /\ same_value_zero k R = true) /\
    (forall a b,
       (forall R P, In (R, P) (joins events) -> same_value_zero k R = true ->
                    same_value_zero P a = true \/ same_value_zero P b = true) ->
       JsMap.size (GameRoom.players room) <= 2).
Proof.
  intros events k room Hin.
  assert (Hok : rooms_ok ([] ++ joins events) (GameServer.rooms (state_after events))).
  { apply run_rooms_ok. intros k' room' []. }
  destruct (Hok k room Hin) as [Hd Ho]. cbn [app] in Ho.
  split; [done|]. split; [done|].
  intros a b Hab. apply (distinct_keys_two a b); [done|].
  intros p member Hp. destruct (Ho p member Hp) as (R & HR & HkR). eauto.
Qed.

(** The claim as stated fails: three connections join "r1" under three
    player ids, and the room has three members. *)
Lemma C1_third_member :
  exists room,
    JsMap.get (VStr "r1")
      (GameServer.rooms
         (state_after [Connection 1 "a"; Connection 2 "b"; Connection 3 "c";
                       Message all_open 1 (join_room "r1" "p1");
                       Message all_open 2 (join_room "r1" "p2");
                       Message all_open 3 (join_room "r1" "p3")])) = Some room /\
    JsMap.size (GameRoom.players room) = 3 /\
    ~ JsMap.size (GameRoom.players room) <= 2.
Proof. eexists. split; [vm_compute; reflexivity|]. cbn. split; [done|lia]. Qed.

Lemma C1_members_witness :
  let events := [Connection 1 "a"; Connection 2 "b";
                 Message all_open 1 (join_room "r1" "p1");
                 Message all_open 2 (join_room "r1" "p2");
                 Message all_open 2 (join_room "r1" "p1")] in
  let room := GameRoom.mk (VStr "r1")
                [(VStr "p1", Player.mk 1 "a"); (VStr "p2", Player.mk 2 "b")]
                [VStr "p1"; VStr "p2"] in
  JsMap.size (GameRoom.players room) <= 2.
Proof.
  intros events room.
  destruct (C1_members_are_distinct_joined_ids events (VStr "r1") room) as (_ & _ & H).
  - left. reflexivity.
  - apply (H (VStr "p1") (VStr "p2")).
    intros R P HRP _. cbn in HRP.
    destruct HRP as [[= <- <-]|[[= <- <-]|[[= <- <-]|[]]]]; cbn; auto.
Defined.

(** ** Outbound messages on the wire (C6) *)

Lemma stringify_defined v : v <> VUndefined -> exists j, JSON_stringify v = Some j.
Proof. destruct v; cbn; try done; eauto. Qed.

Lemma truthy_defined v : truthy v = true -> v <> VUndefined.
Proof. by destruct v. Qed.

Lemma join_state_ids_paired ws roomId playerId s :
  ids_paired s -> ids_paired (join_state ws roomId playerId s).
Proof.
  intros Hs. unfold join_state.
  destruct (GameServer.clients s !! ws) as [info|] eqn:Hinfo; [|done].
  destruct (truthy roomId) eqn:Hr, (truthy playerId) eqn:Hp; cbn [negb orb]; try done.
  assert (Hj : forall room, ids_paired (joined ws info roomId playerId room s)).
  { intros room w i. cbn [joined GameServer.clients].
    destruct (decide (ws = w)) as [->|Hne].
    - rewrite lookup_insert_eq. by intros [= <-].
    - rewrite lookup_insert_ne by done. apply Hs. }
  destruct (JsMap.get roomId (GameServer.rooms s)) as [room|].
  - destruct (JsMap.has playerId (GameRoom.players room)); [done|apply Hj].
  - destruct (to_string roomId); [apply Hj|done].
Qed.

Lemma dispatch_ids_paired e s : ids_paired s -> ids_paired (final (dispatch e s)).
Proof.
  intros Hs.
  destruct e as [ws clientId|rs ws data|rs ws code reason|ws error]; cbn [dispatch]; try done.
  - intros w i. unfold GameServer.on_connection. exec.
    destruct (decide (ws = w)) as [->|Hne].
    + rewrite lookup_insert_eq. by intros [= <-].
    + rewrite lookup_insert_ne by done. apply Hs.
  - destruct (on_message_summary rs ws data s) as (out & s' & -> & Hsum).
    unfold final. cbn [fst snd].
    destruct data as [|message]; [by destruct Hsum as [-> _]|].
    destruct (join_request message) as [[roomId playerId]|]; [|by destruct Hsum as [-> _]].
    destruct Hsum as [-> _]. by apply join_state_ids_paired.
  - unfold GameServer.on_close.
    destruct (handleDisconnect_gen rs ws (Some code) (Some reason) s)
      as (c & out & s' & -> & Hclients & _ & _).
    unfold final. cbn [fst snd]. intros w i.
    destruct Hclients as [-> | ->]; [apply Hs|].
    intros Hi. apply lookup_delete_Some in Hi as [_ Hi]. exact (Hs w i Hi).
Qed.

Lemma run_ids_paired events : forall s, ids_paired s -> ids_paired (final (run events s)).
Proof.
  induction events as [|e events IH]; intros s Hs; [done|].
  cbn [run]. unfold mbind, M_bind.
  pose proof (dispatch_ids_paired e s Hs) as Hstep.
  destruct (dispatch e s) as [[[[]|err] s1] out1]; unfold final in *; cbn [fst snd] in *; [|done].
  specialize (IH _ Hstep). by destruct (run events s1) as [[c2 s2] out2].
Qed.

Lemma carried_stringify message k :
  match JSON_stringify (prop_or_undefined message k) with
  | Some _ => carried message k = [k]
  | None => carried message k = []
  end.
Proof. unfold carried. by destruct (prop_or_undefined message k). Qed.

Lemma relayed_data rs ws s message_of sent w data :
  relayed rs ws s message_of sent -> ids_paired s -> In (w, data) sent ->
  exists info j,
    JSON_stringify (ClientInfo.playerId info) = Some j /\
    JSON_stringify (message_of info) = Some data.
Proof.
  intros [->|(info & room & data' & Hinfo & Hrid & _ & Hdata & ->)] Hs Hin; [done|].
  apply List.in_map_iff in Hin as (w' & [= _ <-] & _).
  destruct (stringify_defined (ClientInfo.playerId info)) as [j Hj].
  { apply truthy_defined. eapply Hs; eauto. }
  eauto.
Qed.

Lemma dispatch_sends_shape e s w data :
  ids_paired s ->
  In (w, data) (sends (output (dispatch e s))) ->
  fixed_shape data \/
  exists rs ws message, e = Message rs ws (GameServer.Decodes message) /\ chat_shape message data.
Proof.
  intros Hs.
  destruct e as [ws clientId|rs ws frame|rs ws code reason|ws error]; cbn [dispatch]; try done.
  - destruct (on_message_summary rs ws frame s) as (out & s' & -> & Hsum).
    unfold output. cbn [snd].
    destruct frame as [|message]; [by destruct Hsum as [_ ->]|].
    destruct (join_request message) as [[roomId playerId]|].
    + destruct Hsum as [_ ->]. unfold join_sends.
      destruct (GameServer.clients s !! ws) as [info|]; [|done].
      destruct (negb (truthy roomId) || negb (truthy playerId)); [done|].
      destruct (JsMap.get roomId (GameServer.rooms s)) as [room|]; [|done].
      destruct (JsMap.has playerId (GameRoom.players room)); [done|].
      destruct (Nat.eqb _ 2); [|done].
      intros Hin. apply List.in_map_iff in Hin as (w' & [= _ <-] & _).
      left. exists "game_started". split; [by left|]. done.
    + destruct Hsum as (_ & message_of & Hkind & Hrel). intros Hin.
      destruct (relayed_data _ _ _ _ _ _ _ Hrel Hs Hin) as (info & j & Hj & Hdata).
      destruct Hkind as [<-|[<-|[<-|[]]]].
      * right. exists rs, ws, message. split; [done|].
        unfold chat_message, object_literal in Hdata. cbn [JSON_stringify] in Hdata.
        rewrite Hj in Hdata.
        pose proof (carried_stringify message "displayName") as Hdn.
        pose proof (carried_stringify message "message") as Htx.
        unfold chat_shape.
        destruct (JSON_stringify (prop_or_undefined message "displayName")),
                 (JSON_stringify (prop_or_undefined message "message"));
          injection Hdata as <-; rewrite Hdn, Htx; done.
      * left. exists "action_complete". split; [right; by left|].
        unfold action_complete_message, object_literal in Hdata. cbn [JSON_stringify] in Hdata.
        rewrite Hj in Hdata. injection Hdata as <-. done.
      * left. exists "game_over". split; [right; right; by left|].
        unfold game_over_message, object_literal in Hdata. cbn [JSON_stringify] in Hdata.
        rewrite Hj in Hdata. injection Hdata as <-. done.
  - unfold GameServer.on_close.
    destruct (handleDisconnect_gen rs ws (Some code) (Some reason) s)
      as (c & out & s' & -> & _ & _ & Hrel).
    unfold output. cbn [snd]. intros Hin.
    destruct (relayed_data _ _ _ _ _ _ _ Hrel Hs Hin) as (info & j & Hj & Hdata).
    left. exists "disconnect". split; [right; right; right; by left|].
    unfold disconnect_message, object_literal in Hdata. cbn [JSON_stringify] in Hdata.
    rewrite Hj in Hdata. injection Hdata as <-. done.
Qed.

(** C6 (as the code has it).  Every message the server writes in a run,
    once parsed back, is an object whose own fields are exactly those of
    section 6 for its type when the type is game_started, action_complete,
    game_over or disconnect.  A chat has [type] and [playerId], and has
    [displayName] and [message] exactly when the inbound chat carried them:
    the handler copies the two fields as they are, and a field that is
    undefined is left out by [JSON.stringify]; so a chat has the fields of
    section 6 exactly when the inbound chat carried both. *)
Theorem C6_outbound_fields :
  forall (events : list event) (e : event) (w : conn) (data : json),
    In (w, data) (sends (output (dispatch e (state_after events)))) ->
    fixed_shape data \/
    exists rs ws message,
      e = Message rs ws (GameServer.Decodes message) /\
      chat_shape message data /\
      (spec_fields "chat" = Some (own_keys (JSON_revive data)) <->
       prop_or_undefined message "displayName" <> VUndefined /\
       prop_or_undefined message "message" <> VUndefined).
Proof.
  intros events e w data Hin.
  assert (Hs : ids_paired (state_after events)).
  { apply run_ids_paired. intros ws info. cbn. by rewrite lookup_empty. }
  destruct (dispatch_sends_shape _ _ _ _ Hs Hin) as [?|(rs & ws & message & -> & Hshape)];
    [by left|].
  right. exists rs, ws, message. split; [done|]. split; [done|].
  destruct Hshape as [_ ->]. unfold carried. cbn.
  destruct (prop_or_undefined message "displayName"), (prop_or_undefined message "message");
    cbn; split; try done; try (by intros [? ?]); by intros [= ].
Qed.

(** The claim as stated fails: a member sends a chat without [displayName];
    the chat relayed to it has three fields, not the four of section 6. *)
Lemma C6_chat_without_name :
  let s := state_after [Connection 1 "a"; Message all_open 1 (join_room "r1" "p1")] in
  let chat := VObj 0 [("type", VStr "chat"); ("message", VStr "hi")] in
  exists data,
    sends (output (dispatch (Message all_open 1 (GameServer.Decodes chat)) s)) = [(1, data)] /\
    own_keys (JSON_revive data) = ["type"; "playerId"; "message"] /\
    spec_fields "chat" <> Some (own_keys (JSON_revive data)).
Proof. eexists. split; [vm_compute; reflexivity|]. split; [reflexivity|]. cbn. by intros [=]. Qed.

Lemma C6_outbound_fields_witness :
  let events := [Connection 1 "a"; Message all_open 1 (join_room "r1" "p1")] in
  let e := Message all_open 1
             (GameServer.Decodes (VObj 0 [("type", VStr "action_complete")])) in
  fixed_shape (JObj [("type", JStr "action_complete"); ("playerId", JStr "p1")]).
Proof.
  intros events e.
  destruct (C6_outbound_fields events e 1
              (JObj [("type", JStr "action_complete"); ("playerId", JStr "p1")]))
    as [H|(rs & ws & message & Heq & (Hty & _) & _)].
  - left. reflexivity.
  - exact H.
  - discriminate Hty.
Defined.

(** * Further properties of the code *)

(** ** [GameRoom]: members and the [playerIds] array *)

Lemma strict_equals_same_value_zero x y : strict_equals x y = true -> same_value_zero x y = true.
Proof.
  destruct x, y; cbn; try done. intros H. by apply andb_prop in H as [H _].
Qed.

Lemma strict_equals_refl x : x <> VNum "NaN" -> strict_equals x x = true.
Proof.
  destruct x as [| |b|r|s|r l|r l]; cbn; intros Hx;
    rewrite ?String.eqb_refl, ?Nat.eqb_refl; try done.
  - by destruct b.
  - cbn. apply negb_true_iff, String.eqb_neq. congruence.
Qed.

Lemma strict_equals_truthy x y : truthy x = true -> strict_equals x y = same_value_zero x y.
Proof.
  destruct x as [| |b|r|s|r l|r l], y as [| |b'|r'|s'|r' l'|r' l']; cbn; try done.
  intros H. apply negb_true_iff, orb_false_elim in H as [_ H]. by rewrite H, andb_true_r.
Qed.

Lemma set_fresh {V} k (v : V) m : JsMap.has k m = false -> JsMap.set k v m = m ++ [(k, v)].
Proof.
  unfold JsMap.has. induction m as [|[k0 v0] m IH]; cbn; [done|].
  destruct (same_value_zero k0 k); [done|]. intros H. by rewrite IH.
Qed.

Lemma set_present_keys {V} k (v : V) m : List.map fst (JsMap.set k v m) =
  if JsMap.has k m then List.map fst m else List.map fst m ++ [k].
Proof.
  unfold JsMap.has. induction m as [|[k0 v0] m IH]; cbn; [done|].
  destruct (same_value_zero k0 k); cbn; [done|]. rewrite IH.
  by destruct (JsMap.get k m).
Qed.

Lemma delete_absent {V} k (m : list (value * V)) : JsMap.has k m = false -> JsMap.delete k m = m.
Proof.
  unfold JsMap.has, JsMap.delete. induction m as [|[k0 v0] m IH]; cbn; [done|].
  destruct (same_value_zero k0 k); cbn; [done|]. intros H. by rewrite IH.
Qed.

Lemma get_congr {V} k k' (m : list (value * V)) :
  same_value_zero k k' = true -> JsMap.get k m = JsMap.get k' m.
Proof.
  intros H. induction m as [|[k0 v0] m IH]; cbn; [done|].
  by rewrite (same_value_zero_congr_r k0 k k' H), IH.
Qed.

Lemma has_congr {V} k k' (m : list (value * V)) :
  same_value_zero k k' = true -> JsMap.has k m = JsMap.has k' m.
Proof. intros H. unfold JsMap.has. by rewrite (get_congr k k' m H). Qed.


Lemma indexOf_last x l :
  (forall y, In y l -> strict_equals y x = false) -> strict_equals x x = true ->
  indexOf x (l ++ [x]) = Z.of_nat (List.length l).
Proof.
  intros H Hx. induction l as [|y l IH]; cbn [indexOf app List.length].
  - by rewrite Hx.
  - rewrite (H y) by (by left). rewrite IH by (intros; apply H; by right).
    destruct (Z.of_nat (List.length l) >? -1)%Z eqn:E; lia.
Qed.

Lemma splice1_last x l : splice1 (List.length l) (l ++ [x]) = l.
Proof. induction l as [|y l IH]; cbn; [done|]. by rewrite IH. Qed.

Lemma absent_not_strict {V} x (m : list (value * V)) :
  JsMap.has x m = false -> forall y, In y (List.map fst m) -> strict_equals y x = false.
Proof.
  intros Hx y Hy. apply List.in_map_iff in Hy as ([k v] & <- & Hin). cbn.
  destruct (strict_equals k x) eqn:E; [|done].
  apply strict_equals_same_value_zero in E.
  apply has_false_get in Hx. by rewrite (get_None_In _ _ _ _ Hx Hin) in E.
Qed.

(** The ids left after [removePlayer]: the first one strictly equal to the
    player id is spliced out. *)
Lemma playerIds_after_delete x (m : list (value * Player.t)) :
  (forall p member, In (p, member) m -> truthy p = true) ->
  distinct_keys m ->
  (if (indexOf x (List.map fst m) >? -1)%Z
   then splice1 (Z.to_nat (indexOf x (List.map fst m))) (List.map fst m)
   else List.map fst m)
  = List.map fst (JsMap.delete x m).
Proof.
  induction m as [|[k0 v0] m IH]; [done|].
  intros Ht [Hk0 Hd]. cbn [List.map fst indexOf].
  rewrite (strict_equals_truthy k0 x) by (eapply Ht; by left).
  assert (IH' := IH (fun p member H => Ht p member (or_intror H)) Hd). clear IH.
  cbn [JsMap.delete List.filter fst].
  destruct (same_value_zero k0 x) eqn:E; cbn [negb].
  - cbn. f_equal. symmetry. fold (JsMap.delete x m). rewrite delete_absent; [done|].
    apply has_false_get. by rewrite <- (get_congr k0 x m E).
  - fold (JsMap.delete x m). cbn [List.map fst]. rewrite <- IH'.
    destruct (indexOf x (List.map fst m) >? -1)%Z eqn:Ei.
    + assert (0 <= indexOf x (List.map fst m))%Z by lia.
      replace (indexOf x (List.map fst m) + 1 >? -1)%Z with true by lia.
      replace (Z.to_nat (indexOf x (List.map fst m) + 1))
        with (S (Z.to_nat (indexOf x (List.map fst m)))) by lia.
      done.
    + done.
Qed.

(** X1. [addPlayer] with a player id the room already has (the precondition
    the join handler guards): the entry keeps its place and takes the new
    socket and identity, the size and every other member stay, [playerIds]
    gets a second copy of the id, and [game_started] goes out again when the
    room has two members. *)
Theorem X1_addPlayer_on_existing_id :
  forall (rs : conn -> ReadyState) (ws : conn) (clientId : string) (playerId : value)
         (room : GameRoom.t),
    JsMap.has playerId (GameRoom.players room) = true ->
    let r := GameRoom.addPlayer rs ws clientId playerId room in
    completion_of r = Normal () /\
    JsMap.size (GameRoom.players (final r)) = JsMap.size (GameRoom.players room) /\
    List.map fst (GameRoom.players (final r)) = List.map fst (GameRoom.players room) /\
    JsMap.get playerId (GameRoom.players (final r)) = Some (Player.mk ws clientId) /\
    (forall k, same_value_zero playerId k = false ->
       JsMap.get k (GameRoom.players (final r)) = JsMap.get k (GameRoom.players room)) /\
    GameRoom.playerIds (final r) = GameRoom.playerIds room ++ [playerId] /\
    sends (output r) =
      if Nat.eqb (JsMap.size (GameRoom.players room)) 2
      then List.map (fun w => (w, game_started_notice))
             (recipients rs None (GameRoom.players (final r)))
      else [].
Proof.
  intros rs ws clientId playerId room Hhas r. subst r. rewrite addPlayer_eq.
  unfold completion_of, final, output. cbn [fst snd room_with GameRoom.players GameRoom.playerIds].
  rewrite size_set, set_present_keys, Hhas.
  split; [done|]. split; [done|]. split; [done|]. split; [apply get_set_same|].
  split; [intros k Hk; by apply get_set_other|]. split; [done|].
  destruct (Nat.eqb _ 2); [apply sends_WsSend|done].
Qed.

Lemma X1_addPlayer_on_existing_id_witness :
  let room := GameRoom.mk (VStr "r1")
                [(VStr "p1", Player.mk 1 "a"); (VStr "p2", Player.mk 2 "b")]
                [VStr "p1"; VStr "p2"] in
  let r := GameRoom.addPlayer all_open 3 "c" (VStr "p1") room in
  JsMap.get (VStr "p1") (GameRoom.players (final r)) = Some (Player.mk 3 "c") /\
  GameRoom.playerIds (final r) = [VStr "p1"; VStr "p2"; VStr "p1"].
Proof.
  intros room r.
  destruct (X1_addPlayer_on_existing_id all_open 3 "c" (VStr "p1") room eq_refl)
    as (_ & _ & _ & H1 & _ & H2 & _).
  exact (conj H1 H2).
Defined.

(** X2. [removePlayer] undoes [addPlayer]: for a player id the room does not
    have (and that is not NaN, which [indexOf] never finds), in a room whose
    [playerIds] mirrors [players], adding and then removing the id gives the
    room back, both the map and the array. *)
Theorem X2_removePlayer_undoes_addPlayer :
  forall (rs : conn -> ReadyState) (ws : conn) (clientId : string) (playerId : value)
         (room : GameRoom.t),
    JsMap.has playerId (GameRoom.players room) = false ->
    playerId <> VNum "NaN" ->
    mirrored room ->
    final (GameRoom.removePlayer playerId
             (final (GameRoom.addPlayer rs ws clientId playerId room))) = room.
Proof.
  intros rs ws clientId playerId room Hfresh Hnan Hmirror.
  rewrite addPlayer_eq. unfold final at 2. cbn [fst snd]. rewrite removePlayer_eq.
  unfold final. cbn [fst snd]. unfold room_without, room_with.
  cbn [GameRoom.id GameRoom.players GameRoom.playerIds].
  rewrite delete_set_same, (delete_absent _ _ Hfresh), Hmirror.
  rewrite indexOf_last;
    [|by apply absent_not_strict|by apply strict_equals_refl].
  assert (E : (Z.of_nat (List.length (List.map fst (GameRoom.players room))) >? -1)%Z = true)
    by (apply Z.gtb_lt; lia).
  rewrite E, Nat2Z.id, splice1_last, <- Hmirror. by destruct room.
Qed.

Lemma X2_removePlayer_undoes_addPlayer_witness :
  let room := GameRoom.mk (VStr "r1") [(VStr "p1", Player.mk 1 "a")] [VStr "p1"] in
  final (GameRoom.removePlayer (VStr "p2")
           (final (GameRoom.addPlayer all_open 2 "b" (VStr "p2") room))) = room.
Proof.
  intros room.
  apply (X2_removePlayer_undoes_addPlayer all_open 2 "b" (VStr "p2") room); done.
Defined.




Lemma size_delete_distinct {V} k (m : list (value * V)) :
  distinct_keys m ->
  JsMap.size (JsMap.delete k m) + (if JsMap.has k m then 1 else 0) = JsMap.size m.
Proof.
  unfold JsMap.has, JsMap.size, JsMap.delete.
  induction m as [|[k0 v0] m IH]; cbn; [done|]. intros [Hk0 Hd].
  destruct (same_value_zero k0 k) eqn:E; cbn.
  - fold (JsMap.delete k m). rewrite delete_absent; [lia|].
    apply has_false_get. by rewrite <- (get_congr k0 k m E).
  - specialize (IH Hd). destruct (JsMap.get k m); lia.
Qed.

Lemma room_wf_without k playerId room : room_wf k room -> room_wf k (room_without playerId room).
Proof.
  intros (Hid & Hk & Hm & Ht & Hd). unfold room_wf, mirrored, room_without.
  cbn [GameRoom.id GameRoom.players GameRoom.playerIds].
  split; [done|]. split; [done|]. split; [|split].
  - rewrite Hm. by apply playerIds_after_delete.
  - intros p member Hin. eapply Ht, In_delete, Hin.
  - by apply distinct_keys_delete.
Qed.

(** X4. [removePlayer] on a well-formed room removes exactly the member with
    that id: the room stays well-formed ([playerIds] still mirrors
    [players]), the id is no longer a member, every other member keeps its
    entry, and the size drops by one if the id was a member and not at all
    otherwise. *)
Theorem X4_removePlayer_removes_one_member :
  forall (k playerId : value) (room : GameRoom.t),
    room_wf k room ->
    let room' := final (GameRoom.removePlayer playerId room) in
    room_wf k room' /\
    JsMap.has playerId (GameRoom.players room') = false /\
    (forall q, same_value_zero playerId q = false ->
       JsMap.get q (GameRoom.players room') = JsMap.get q (GameRoom.players room)) /\
    JsMap.size (GameRoom.players room') + (if JsMap.has playerId (GameRoom.players room) then 1 else 0)
      = JsMap.size (GameRoom.players room).
Proof.
  intros k playerId room Hwf room'. subst room'. rewrite removePlayer_eq.
  unfold final. cbn [fst snd].
  split; [by apply room_wf_without|]. cbn [room_without GameRoom.players].
  split; [apply has_false_get, get_delete_same|].
  split; [intros q Hq; by apply get_delete_other|].
  apply size_delete_distinct. apply Hwf.
Qed.

Lemma X4_removePlayer_witness :
  let room := GameRoom.mk (VStr "r1")
                [(VStr "p1", Player.mk 1 "a"); (VStr "p2", Player.mk 2 "b")]
                [VStr "p1"; VStr "p2"] in
  let room' := final (GameRoom.removePlayer (VStr "p1") room) in
  room_wf (VStr "r1") room' /\ JsMap.size (GameRoom.players room') + 1 = 2.
Proof.
  intros room room'.
  destruct (X4_removePlayer_removes_one_member (VStr "r1") (VStr "p1") room) as (H1 & _ & _ & H2).
  - repeat split; cbn; try done.
    intros p member [[= <- <-]|[[= <- <-]|[]]]; done.
  - exact (conj H1 H2).
Defined.

(** ** [sendMessage] and [broadcastToRoom] *)

Lemma sendMessage_eq rs ws ref props data (s : GameServer.t) :
  JSON_stringify (VObj ref props) = Some data ->
  GameServer.sendMessage rs ws (VObj ref props) s =
    (Normal (), s, if ReadyState_eqb (rs ws) OPEN then [WsSend ws data] else []).
Proof.
  intros Hdata. unfold GameServer.sendMessage. rewrite Hdata.
  by destruct (ReadyState_eqb (rs ws) OPEN).
Qed.

(** X5. A broadcast is [sendMessage] to each member in turn, the excluded
    socket left out: the frames written are the same, in the same order.
    [sendMessage] itself writes the one frame when the socket is open and
    nothing otherwise; it never raises on a message object and never changes
    the server. *)
Theorem X5_broadcast_is_sendMessage_to_each :
  forall (rs : conn -> ReadyState) (ref : nat) (props : list (string * value))
         (excludeWs : option conn) (room : GameRoom.t) (s : GameServer.t),
    output (GameRoom.broadcastToRoom rs (VObj ref props) excludeWs room) =
      flat_map
        (fun entry =>
           if bool_decide (Some (Player.ws (snd entry)) = excludeWs) then []
           else output (GameServer.sendMessage rs (Player.ws (snd entry)) (VObj ref props) s))
        (GameRoom.players room) /\
    (forall ws,
       completion_of (GameServer.sendMessage rs ws (VObj ref props) s) = Normal () /\
       final (GameServer.sendMessage rs ws (VObj ref props) s) = s /\
       (rs ws <> OPEN -> output (GameServer.sendMessage rs ws (VObj ref props) s) = [])).
Proof.
  intros rs ref props excludeWs room s.
  destruct (stringify_object ref props) as [members Hdata].
  split.
  - rewrite (broadcastToRoom_eq _ _ _ _ _ Hdata). unfold output, recipients. cbn [snd].
    induction (GameRoom.players room) as [|[pid player] l IH]; [done|].
    cbn [List.map List.filter flat_map snd]. rewrite (sendMessage_eq _ _ _ _ _ _ Hdata).
    cbn [snd]. destruct (bool_decide (Some (Player.ws player) = excludeWs)); cbn [negb andb];
      [exact IH|].
    destruct (ReadyState_eqb (rs (Player.ws player)) OPEN); cbn; by rewrite IH.
  - intros ws. rewrite (sendMessage_eq _ _ _ _ _ _ Hdata).
    unfold completion_of, final, output. cbn [fst snd]. split; [done|]. split; [done|].
    intros Hclosed. by destruct (rs ws).
Qed.

Lemma X5_broadcast_is_sendMessage_witness :
  let message := [("type", VStr "game_started")] in
  let room := GameRoom.mk (VStr "r1")
                [(VStr "p1", Player.mk 1 "a"); (VStr "p2", Player.mk 2 "b")]
                [VStr "p1"; VStr "p2"] in
  output (GameServer.sendMessage (closed_only 1) 1 (VObj 0 message) GameServer.new) = [].
Proof.
  intros message room.
  destruct (X5_broadcast_is_sendMessage_to_each (closed_only 1) 0 message None room GameServer.new)
    as [_ H].
  destruct (H 1) as (_ & _ & Hclosed). apply Hclosed. discriminate.
Defined.

(** X19. [addPlayer] with a player id the room does not have makes that id a
    member and the count one more, and it writes [game_started] exactly when
    this call is the one that makes the room full: [isFull] was false before
    and is true after.  Then every open member, the new one included, is
    sent the notice; on every other such call nothing is written. *)
Theorem X19_game_started_marks_becoming_full :
  forall (rs : conn -> ReadyState) (ws : conn) (clientId : string) (playerId : value)
         (room : GameRoom.t),
    JsMap.has playerId (GameRoom.players room) = false ->
    completion_of (GameRoom.hasPlayer playerId
                     (final (GameRoom.addPlayer rs ws clientId playerId room))) = Normal true /\
    (forall n, completion_of (GameRoom.getPlayerCount room) = Normal n ->
       completion_of (GameRoom.getPlayerCount
                        (final (GameRoom.addPlayer rs ws clientId playerId room))) = Normal (S n)) /\
    sends (output (GameRoom.addPlayer rs ws clientId playerId room)) =
      (match completion_of (GameRoom.isFull room),
             completion_of (GameRoom.isFull (final (GameRoom.addPlayer rs ws clientId playerId room)))
       with
       | Normal false, Normal true =>
           List.map (fun w => (w, game_started_notice))
             (recipients rs None
                (GameRoom.players (final (GameRoom.addPlayer rs ws clientId playerId room))))
       | _, _ => []
       end).
Proof.
  intros rs ws clientId playerId room Hfresh. rewrite addPlayer_eq.
  unfold GameRoom.hasPlayer, GameRoom.getPlayerCount, GameRoom.isFull, gets,
    completion_of, final, output.
  cbn [fst snd room_with GameRoom.players]. rewrite size_set, Hfresh.
  split; [|split].
  - f_equal. apply has_get. rewrite get_set_same. by eexists.
  - by intros n [= <-].
  - destruct (JsMap.size (GameRoom.players room)) as [|[|[|n]]]; cbn [Nat.eqb Nat.leb];
      [done|apply sends_WsSend|done|done].
Qed.

Lemma X19_game_started_witness :
  let room := GameRoom.mk (VStr "r1") [(VStr "p1", Player.mk 1 "a")] [VStr "p1"] in
  sends (output (GameRoom.addPlayer (closed_only 1) 2 "b" (VStr "p2") room)) =
    [(2, game_started_notice)].
Proof.
  intros room.
  destruct (X19_game_started_marks_becoming_full (closed_only 1) 2 "b" (VStr "p2") room eq_refl)
    as (_ & _ & H).
  exact H.
Defined.

(** ** The room table stays well-formed *)

Lemma room_wf_new roomId : truthy roomId = true -> room_wf roomId (GameRoom.new roomId).
Proof. intros H. repeat split; try done; intros p member []. Qed.

Lemma room_wf_with k ws clientId playerId room :
  room_wf k room ->
  JsMap.has playerId (GameRoom.players room) = false ->
  truthy playerId = true ->
  room_wf k (room_with ws clientId playerId room).
Proof.
  intros (Hid & Hk & Hm & Ht & Hd) Hfresh Hp. unfold room_wf, mirrored, room_with.
  cbn [GameRoom.id GameRoom.players GameRoom.playerIds].
  split; [done|]. split; [done|]. split; [|split].
  - by rewrite set_present_keys, Hfresh, Hm.
  - intros p member Hin.
    destruct (In_set _ _ _ _ _ Hin) as [Hold|(_ & [->|(v0 & Hold & _)])]; eauto.
  - by apply distinct_keys_set.
Qed.

Lemma table_wf_set k room' rooms :
  table_wf rooms ->
  (forall k', match JsMap.get k rooms with
              | Some room => In (k', room) rooms
              | None => k' = k
              end -> room_wf k' room') ->
  table_wf (JsMap.set k room' rooms).
Proof.
  intros [Hd Hok] Hnew. split; [by apply distinct_keys_set|].
  intros k' v' Hin.
  destruct (In_set_get _ _ _ _ _ Hin) as [Hold|[-> Hget]]; [by apply Hok|].
  apply Hnew. destruct (JsMap.get k rooms); [by destruct Hget|done].
Qed.

Lemma table_wf_delete k rooms : table_wf rooms -> table_wf (JsMap.delete k rooms).
Proof.
  intros [Hd Hok]. split; [by apply distinct_keys_delete|].
  intros k' v' Hin. apply Hok. by eapply In_delete.
Qed.

Lemma join_state_table_wf ws roomId playerId s :
  table_wf (GameServer.rooms s) -> table_wf (GameServer.rooms (join_state ws roomId playerId s)).
Proof.
  intros Hwf. unfold join_state.
  destruct (GameServer.clients s !! ws) as [info|]; [|done].
  destruct (truthy roomId) eqn:Hr, (truthy playerId) eqn:Hp; cbn [negb orb]; try done.
  destruct (JsMap.get roomId (GameServer.rooms s)) as [room|] eqn:Hroom.
  - destruct (JsMap.has playerId (GameRoom.players room)) eqn:Hhas; [done|].
    cbn [joined GameServer.rooms]. apply table_wf_set; [done|].
    rewrite Hroom. intros k' Hin. apply room_wf_with; [|done|done]. by apply Hwf.
  - destruct (to_string roomId); cbn [joined GameServer.rooms];
      (apply table_wf_set; [done|]); rewrite Hroom; intros k' ->.
    + apply room_wf_with; [by apply room_wf_new|done|done].
    + by apply room_wf_new.
Qed.

Lemma rooms_left_table_wf roomId playerId rooms rooms' :
  rooms_left roomId playerId rooms rooms' -> table_wf rooms -> table_wf rooms'.
Proof.
  intros [->|(room & Hroom & [->| ->])] Hwf; [done| |by apply table_wf_delete].
  apply table_wf_set; [done|]. rewrite Hroom. intros k' Hin.
  apply room_wf_without. by apply Hwf.
Qed.

Lemma dispatch_table_wf e s :
  table_wf (GameServer.rooms s) -> table_wf (GameServer.rooms (final (dispatch e s))).
Proof.
  intros Hwf.
  destruct e as [ws clientId|rs ws data|rs ws code reason|ws error]; cbn [dispatch]; try done.
  - destruct (on_message_summary rs ws data s) as (out & s' & -> & Hsum).
    unfold final. cbn [fst snd].
    destruct data as [|message]; [by destruct Hsum as [-> _]|].
    destruct (join_request message) as [[roomId playerId]|]; [|by destruct Hsum as [-> _]].
    destruct Hsum as [-> _]. by apply join_state_table_wf.
  - unfold GameServer.on_close.
    destruct (handleDisconnect_gen rs ws (Some code) (Some reason) s)
      as (c & out & s' & -> & _ & Hrooms & _).
    unfold final. cbn [fst snd].
    destruct Hrooms as [->|(info & _ & Hleft)]; [done|].
    eapply rooms_left_table_wf; eauto.
Qed.

Lemma run_table_wf events : forall s,
  table_wf (GameServer.rooms s) -> table_wf (GameServer.rooms (final (run events s))).
Proof.
  induction events as [|e events IH]; intros s Hwf; [done|].
  cbn [run]. unfold mbind, M_bind.
  pose proof (dispatch_table_wf e s Hwf) as Hstep.
  destruct (dispatch e s) as [[[[]|err] s1] out1]; unfold final in *; cbn [fst snd] in *; [|done].
  specialize (IH _ Hstep). by destruct (run events s1) as [[c2 s2] out2].
Qed.

(** X6. After any run, also one cut short by an uncaught exception, the room
    table is well-formed: no two rooms under the same key, and every room
    carries its key as [id], has a truthy key, has [playerIds] equal to the
    keys of [players] in join order, and has truthy, pairwise different
    member ids. *)
Theorem X6_room_table_stays_well_formed :
  forall (events : list event),
    distinct_keys (GameServer.rooms (state_after events)) /\
    (forall k room, In (k, room) (GameServer.rooms (state_after events)) ->
       GameRoom.id room = k /\
       truthy k = true /\
       GameRoom.playerIds room = List.map fst (GameRoom.players room) /\
       (forall p member, In (p, member) (GameRoom.players room) -> truthy p = true) /\
       distinct_keys (GameRoom.players room)).
Proof.
  intros events.
  assert (Hwf : table_wf (GameServer.rooms (state_after events))).
  { apply run_table_wf. split; [done|]. intros k room []. }
  destruct Hwf as [Hd Hok]. split; [done|]. intros k room Hin. apply (Hok k room Hin).
Qed.

Lemma X6_room_table_witness :
  let events := [Connection 1 "a"; Connection 2 "b";
                 Message all_open 1 (join_room "r1" "p1");
                 Message all_open 2 (join_room "r1" "p2");
                 Close (closed_only 1) 1 "1000" ""] in
  let room := GameRoom.mk (VStr "r1") [(VStr "p2", Player.mk 2 "b")] [VStr "p2"] in
  GameRoom.playerIds room = List.map fst (GameRoom.players room).
Proof.
  intros events room.
  destruct (X6_room_table_stays_well_formed events) as [_ H].
  destruct (H (VStr "r1") room) as (_ & _ & Hm & _); [left; reflexivity|exact Hm].
Defined.

(** ** What an event can change, and whom it can write to *)

(** X7. Only a connection, a close and a message that the dispatcher hands
    to [handleJoinRoom] can change the server.  Every other event (a frame
    that does not parse, a chat, an action_complete, a game_over, a message
    of an unknown type or without a readable type, a socket error) completes
    normally through its callback and leaves the room table and the registry
    exactly as they were. *)
Theorem X7_relays_and_errors_leave_state :
  forall (e : event) (s : GameServer.t),
    may_change e = false ->
    completion_of (dispatch e s) = Normal () /\ final (dispatch e s) = s.
Proof.
  intros e s Hquiet.
  destruct e as [ws clientId|rs ws data|rs ws code reason|ws error]; cbn [dispatch]; try done.
  destruct (on_message_summary rs ws data s) as (out & s' & -> & Hsum).
  unfold completion_of, final. cbn [fst snd]. split; [done|].
  destruct data as [|message]; [by destruct Hsum as [-> _]|].
  cbn [may_change] in Hquiet.
  destruct (join_request message) as [[roomId playerId]|]; [done|]. by destruct Hsum as [-> _].
Qed.

Lemma X7_relays_and_errors_witness :
  let s := state_after [Connection 1 "a"; Connection 2 "b";
                        Message all_open 1 (join_room "r1" "p1");
                        Message all_open 2 (join_room "r1" "p2")] in
  let e := Message all_open 1
             (GameServer.Decodes (VObj 0 [("type", VStr "chat"); ("displayName", VStr "A");
                                          ("message", VStr "hi")])) in
  completion_of (dispatch e s) = Normal () /\ final (dispatch e s) = s.
Proof. intros s e. apply (X7_relays_and_errors_leave_state e s). reflexivity. Defined.

Lemma recipients_In rs excludeWs players w :
  In w (recipients rs excludeWs players) ->
  rs w = OPEN /\ Some w <> excludeWs /\
  exists p member, In (p, member) players /\ Player.ws member = w.
Proof.
  unfold recipients. intros H. apply List.filter_In in H as [Hin Hcond].
  apply andb_prop in Hcond as [Hex Hopen].
  apply List.in_map_iff in Hin as ([p member] & <- & Hin).
  split; [by destruct (rs _)|]. split; [|by eauto].
  by apply negb_true_iff, bool_decide_eq_false in Hex.
Qed.

Lemma relayed_In rs ws s message_of sent w data :
  relayed rs ws s message_of sent -> In (w, data) sent ->
  rs w = OPEN /\
  exists k room p member,
    In (k, room) (GameServer.rooms s) /\ In (p, member) (GameRoom.players room) /\
    Player.ws member = w.
Proof.
  intros [->|(info & room & data' & _ & _ & Hroom & _ & ->)] Hin; [done|].
  apply List.in_map_iff in Hin as (w' & [= -> _] & Hin).
  apply recipients_In in Hin as (Hopen & _ & p & member & Hin & Hws).
  split; [done|]. apply get_In in Hroom as (k & Hroom & _). eauto 10.
Qed.

(** X8. Whatever the event and the state, every frame the server writes goes
    to a socket that is OPEN at that moment, and that socket is either the
    one the event came from or the socket of a member entry of some room in
    the table.  In particular a connection and a socket error write to no
    socket. *)
Theorem X8_writes_go_to_open_member_sockets :
  forall (e : event) (s : GameServer.t) (w : conn) (data : json),
    In (w, data) (sends (output (dispatch e s))) ->
    readyState_at e w = OPEN /\
    (w = conn_of e \/
     exists k room p member,
       In (k, room) (GameServer.rooms s) /\ In (p, member) (GameRoom.players room) /\
       Player.ws member = w).
Proof.
  intros e s w data.
  destruct e as [ws clientId|rs ws frame|rs ws code reason|ws error]; cbn [dispatch]; try done.
  - destruct (on_message_summary rs ws frame s) as (out & s' & -> & Hsum).
    unfold output. cbn [snd readyState_at conn_of].
    destruct frame as [|message]; [by destruct Hsum as [_ ->]|].
    destruct (join_request message) as [[roomId playerId]|].
    + destruct Hsum as [_ ->]. unfold join_sends.
      destruct (GameServer.clients s !! ws) as [info|]; [|done].
      destruct (negb (truthy roomId) || negb (truthy playerId)); [done|].
      destruct (JsMap.get roomId (GameServer.rooms s)) as [room|] eqn:Hroom; [|done].
      destruct (JsMap.has playerId (GameRoom.players room)); [done|].
      destruct (Nat.eqb _ 2); [|done].
      intros Hin. apply List.in_map_iff in Hin as (w' & [= -> _] & Hin).
      apply recipients_In in Hin as (Hopen & _ & p & member & Hin & Hws).
      split; [done|].
      destruct (In_set _ _ _ _ _ Hin) as [Hold|(-> & _)]; [|by left].
      right. apply get_In in Hroom as (k & Hroom & _). eauto 10.
    + destruct Hsum as (_ & message_of & _ & Hrel). intros Hin.
      destruct (relayed_In _ _ _ _ _ _ _ Hrel Hin) as [Hopen Hmember]. by eauto.
  - unfold GameServer.on_close.
    destruct (handleDisconnect_gen rs ws (Some code) (Some reason) s)
      as (c & out & s' & -> & _ & _ & Hrel).
    unfold output. cbn [snd readyState_at conn_of]. intros Hin.
    destruct (relayed_In _ _ _ _ _ _ _ Hrel Hin) as [Hopen Hmember]. by eauto.
Qed.

Lemma X8_writes_witness :
  let s := state_after [Connection 1 "a"; Connection 2 "b";
                        Message all_open 1 (join_room "r1" "p1")] in
  let e := Message (closed_only 3) 2 (join_room "r1" "p2") in
  readyState_at e 1 = OPEN /\
  (1 = conn_of e \/
   exists k room p member,
     In (k, room) (GameServer.rooms s) /\ In (p, member) (GameRoom.players room) /\
     Player.ws member = 1).
Proof.
  intros s e. apply (X8_writes_go_to_open_member_sockets e s 1 game_started_notice).
  vm_compute. left. reflexivity.
Defined.

(** ** A close is all or nothing *)

Lemma render_Some_In pieces line p :
  render pieces = Some line -> In p pieces -> is_Some (to_string p).
Proof.
  revert line. induction pieces as [|q pieces IH]; intros line; cbn [render In]; [done|].
  destruct (to_string q) eqn:Hq; [|done]. destruct (render pieces) eqn:Hr; [|done].
  intros _ [<-|Hin]; [by rewrite Hq; eauto|by eapply IH].
Qed.

Lemma handleDisconnect_outcome rs ws closeCode reason s :
  exists c out,
    GameServer.handleDisconnect rs ws closeCode reason s =
      (c, match c with Normal _ => leave_state ws s | Throw _ => s end, out) /\
    (c = Normal () \/ c = Throw cannot_convert /\ sends out = []).
Proof.
  unfold GameServer.handleDisconnect, leave_state. exec.
  destruct (GameServer.clients s !! ws) as [info|] eqn:Hinfo;
    [|by eexists (Normal ()), _; split; [reflexivity|left]].
  destruct (render [VStr "Client "; _; _; _; _; _; _; _]) eqn:Hline1;
    [|by eexists (Throw _), _; split; [reflexivity|right]].
  assert (Hp : is_Some (to_string (ClientInfo.playerId info))).
  { eapply render_Some_In; [exact Hline1|]. cbn. tauto. }
  cbn [fst snd].
  destruct (truthy (ClientInfo.roomId info) && truthy (ClientInfo.playerId info)) eqn:Hids.
  - destruct (render [VStr "Player "; _; _; _; _]) eqn:Hline2;
      [|by eexists (Throw _), _; split; [reflexivity|right]].
    assert (Hr : is_Some (to_string (ClientInfo.roomId info))).
    { eapply render_Some_In; [exact Hline2|]. cbn. tauto. }
    cbn [fst snd].
    destruct (JsMap.get (ClientInfo.roomId info) (GameServer.rooms s)) as [room|] eqn:Hroom.
    + destruct (stringify_object 0 [("type", VStr "disconnect");
                                    ("playerId", ClientInfo.playerId info)]) as [ms Hdata].
      fold (object_literal [("type", VStr "disconnect"); ("playerId", ClientInfo.playerId info)])
        in Hdata.
      destruct (handlePlayerDisconnect_found rs _ _ room (JObj ms) s Hroom Hr Hp Hdata)
        as (logs & -> & Hlogs).
      cbn [fst snd GameServer.rooms GameServer.clients].
      eexists (Normal ()), _. split; [reflexivity|by left].
    + destruct (handlePlayerDisconnect_missing rs _ (ClientInfo.playerId info) s Hroom Hr)
        as (logs & -> & Hlogs).
      cbn [fst snd GameServer.rooms GameServer.clients].
      eexists (Normal ()), _. split; [reflexivity|by left].
  - cbn [fst snd GameServer.rooms GameServer.clients].
    eexists (Normal ()), _. split; [reflexivity|by left].
Qed.

(** X9. [handleDisconnect] is all or nothing.  Either it runs to its end,
    and then the server is exactly [leave_state ws s]: the registry entry of
    [ws] is gone, and when the entry named a room and a player and the room
    exists, that member is removed and the room is deleted if that left it
    empty.  Or one of its first two log lines throws the TypeError of a
    failed string conversion, and then nothing was written to any socket and
    the server is exactly as before: the entry stays in the registry and the
    member stays in the room. *)
Theorem X9_close_is_all_or_nothing :
  forall (rs : conn -> ReadyState) (ws : conn) (closeCode reason : option string)
         (s : GameServer.t),
    (completion_of (GameServer.handleDisconnect rs ws closeCode reason s) = Normal () /\
     final (GameServer.handleDisconnect rs ws closeCode reason s) = leave_state ws s) \/
    (completion_of (GameServer.handleDisconnect rs ws closeCode reason s) = Throw cannot_convert /\
     final (GameServer.handleDisconnect rs ws closeCode reason s) = s /\
     sends (output (GameServer.handleDisconnect rs ws closeCode reason s)) = []).
Proof.
  intros rs ws closeCode reason s.
  destruct (handleDisconnect_outcome rs ws closeCode reason s) as (c & out & -> & Hc).
  unfold completion_of, final, output. cbn [fst snd].
  destruct Hc as [->|[-> Hout]]; [by left|by right].
Qed.

(** ** Registered connections are members of the room they name *)

Lemma get_Some_size {V} k (m : list (value * V)) v : JsMap.get k m = Some v -> JsMap.size m <> 0.
Proof. by destruct m. Qed.

Lemma registered_member_joined ws info roomId playerId room s :
  registered_member s ->
  (JsMap.get roomId (GameServer.rooms s) = Some room \/
   JsMap.get roomId (GameServer.rooms s) = None) ->
  JsMap.has playerId (GameRoom.players room) = false ->
  registered_member (joined ws info roomId playerId room s).
Proof.
  intros Hs Hroom Hfresh w i. unfold joined. cbn [GameServer.clients GameServer.rooms].
  destruct (decide (ws = w)) as [->|Hne].
  - rewrite lookup_insert_eq. intros [= <-] _.
    cbn [ClientInfo.roomId ClientInfo.playerId ClientInfo.id].
    exists (room_with w (ClientInfo.id info) playerId room).
    split; [apply get_set_same|]. cbn [room_with GameRoom.players]. apply get_set_same.
  - rewrite lookup_insert_ne by done. intros Hi Ht.
    destruct (Hs w i Hi Ht) as (room' & Hr' & Hp').
    destruct (same_value_zero roomId (ClientInfo.roomId i)) eqn:E.
    + rewrite <- (get_congr _ _ _ E) in Hr'.
      destruct Hroom as [Hroom|Hroom]; [|congruence].
      assert (room' = room) as -> by congruence.
      exists (room_with ws (ClientInfo.id info) playerId room).
      split; [rewrite <- (get_congr _ _ _ E); apply get_set_same|].
      cbn [room_with GameRoom.players]. rewrite get_set_other; [done|].
      destruct (same_value_zero playerId (ClientInfo.playerId i)) eqn:E2; [|done].
      rewrite <- (get_congr _ _ _ E2) in Hp'. apply has_false_get in Hfresh. congruence.
    + exists room'. split; [by rewrite get_set_other|done].
Qed.

Lemma registered_member_join ws roomId playerId s :
  registered_member s -> registered_member (join_state ws roomId playerId s).
Proof.
  intros Hs. unfold join_state.
  destruct (GameServer.clients s !! ws) as [info|] eqn:Hinfo; [|done].
  destruct (negb (truthy roomId) || negb (truthy playerId)); [done|].
  destruct (JsMap.get roomId (GameServer.rooms s)) as [room|] eqn:Hroom.
  - destruct (JsMap.has playerId (GameRoom.players room)) eqn:Hhas; [done|].
    apply registered_member_joined; auto.
  - destruct (to_string roomId).
    + apply registered_member_joined; auto.
    + intros w i. cbn [GameServer.clients GameServer.rooms]. intros Hi Ht.
      destruct (Hs w i Hi Ht) as (room' & Hr' & Hp').
      exists room'. split; [|done]. rewrite get_set_other; [done|].
      destruct (same_value_zero roomId (ClientInfo.roomId i)) eqn:E; [|done].
      rewrite <- (get_congr _ _ _ E) in Hr'. congruence.
Qed.

Lemma registered_member_leave ws s : registered_member s -> registered_member (leave_state ws s).
Proof.
  intros Hs. unfold leave_state.
  destruct (GameServer.clients s !! ws) as [info|] eqn:Hinfo; [|done].
  intros w i. cbn [GameServer.clients GameServer.rooms]. intros Hi Ht.
  apply lookup_delete_Some in Hi as [Hne Hi].
  destruct (Hs w i Hi Ht) as (room' & Hr' & Hp').
  destruct (truthy (ClientInfo.roomId info) && truthy (ClientInfo.playerId info)) eqn:Hids;
    [|by eauto].
  apply andb_prop in Hids as [Hrid Hpid].
  destruct (Hs ws info Hinfo Hrid) as (room & Hroom & Hmine).
  rewrite Hroom. unfold rooms_after_leave.
  destruct (same_value_zero (ClientInfo.roomId info) (ClientInfo.roomId i)) eqn:E.
  - assert (room' = room) as ->.
    { rewrite <- (get_congr _ _ _ E) in Hr'. congruence. }
    destruct (same_value_zero (ClientInfo.playerId info) (ClientInfo.playerId i)) eqn:E2.
    { rewrite <- (get_congr _ _ _ E2) in Hp'. congruence. }
    assert (Hkeep : JsMap.get (ClientInfo.playerId i)
                      (JsMap.delete (ClientInfo.playerId info) (GameRoom.players room))
                    = Some (Player.mk w (ClientInfo.id i))) by (by rewrite get_delete_other).
    destruct (Nat.eqb _ 0) eqn:Hsz.
    { apply Nat.eqb_eq in Hsz. by apply get_Some_size in Hkeep. }
    exists (room_without (ClientInfo.playerId info) room).
    split; [rewrite <- (get_congr _ _ _ E); apply get_set_same|done].
  - exists room'. destruct (Nat.eqb _ 0); (split; [|done]);
      [by rewrite get_delete_other|by rewrite get_set_other].
Qed.

Lemma dispatch_registered_member e s :
  registered_member s -> registered_member (final (dispatch e s)).
Proof.
  intros Hs.
  destruct e as [ws clientId|rs ws data|rs ws code reason|ws error]; cbn [dispatch]; try done.
  - intros w i. unfold GameServer.on_connection. exec.
    destruct (decide (ws = w)) as [->|Hne].
    + rewrite lookup_insert_eq. by intros [= <-].
    + rewrite lookup_insert_ne by done. apply Hs.
  - destruct (on_message_summary rs ws data s) as (out & s' & -> & Hsum).
    unfold final. cbn [fst snd].
    destruct data as [|message]; [by destruct Hsum as [-> _]|].
    destruct (join_request message) as [[roomId playerId]|]; [|by destruct Hsum as [-> _]].
    destruct Hsum as [-> _]. by apply registered_member_join.
  - unfold GameServer.on_close.
    destruct (handleDisconnect_outcome rs ws (Some code) (Some reason) s) as (c & out & -> & _).
    unfold final. cbn [fst snd]. destruct c; [by apply registered_member_leave|done].
Qed.

Lemma run_registered_member events : forall s,
  registered_member s -> registered_member (final (run events s)).
Proof.
  induction events as [|e events IH]; intros s Hs; [done|].
  cbn [run]. unfold mbind, M_bind.
  pose proof (dispatch_registered_member e s Hs) as Hstep.
  destruct (dispatch e s) as [[[[]|err] s1] out1]; unfold final in *; cbn [fst snd] in *; [|done].
  specialize (IH _ Hstep). by destruct (run events s1) as [[c2 s2] out2].
Qed.

(** X10. After any run, also one cut short by an uncaught exception, every
    registry entry that names a room is backed by the room table: the room
    exists, and under the entry's player id it holds the member entry with
    this very socket and this client id.  So the registry never points at a
    missing room, at a missing member, or at another connection's member
    entry. *)
Theorem X10_registry_entries_are_members :
  forall (events : list event) (ws : conn) (info : ClientInfo.t),
    GameServer.clients (state_after events) !! ws = Some info ->
    truthy (ClientInfo.roomId info) = true ->
    exists room,
      JsMap.get (ClientInfo.roomId info) (GameServer.rooms (state_after events)) = Some room /\
      JsMap.get (ClientInfo.playerId info) (GameRoom.players room)
        = Some (Player.mk ws (ClientInfo.id info)).
Proof.
  intros events.
  assert (H : registered_member (state_after events)); [|exact H].
  apply run_registered_member. intros ws info. cbn. by rewrite lookup_empty.
Qed.

Lemma X10_registry_entries_witness :
  let events := [Connection 1 "a"; Connection 2 "b";
                 Message all_open 1 (join_room "r1" "p1");
                 Message all_open 2 (join_room "r1" "p2");
                 Message all_open 1 (join_room "r2" "p1");
                 Close (closed_only 2) 2 "1001" ""] in
  exists room,
    JsMap.get (VStr "r2") (GameServer.rooms (state_after events)) = Some room /\
    JsMap.get (VStr "p1") (GameRoom.players room) = Some (Player.mk 1 "a").
Proof.
  intros events.
  apply (X10_registry_entries_are_members events 1 (ClientInfo.mk "a" (VStr "r2") (VStr "p1")));
    reflexivity.
Defined.

(** ** The relays, frame by frame *)

Lemma handleChat_exact rs ws message s info room p d t :
  GameServer.clients s !! ws = Some info ->
  truthy (ClientInfo.roomId info) = true ->
  JsMap.get (ClientInfo.roomId info) (GameServer.rooms s) = Some room ->
  ClientInfo.playerId info = VStr p ->
  get_prop message "displayName" = Normal (VStr d) ->
  get_prop message "message" = Normal (VStr t) ->
  exists logs,
    GameServer.handleChat rs ws message s =
      (Normal (), s,
       logs ++ List.map (fun w => WsSend w (chat_frame p d t))
                 (recipients rs None (GameRoom.players room))) /\
    sends logs = [].
Proof.
  intros Hinfo Hin Hroom Hp Hd Ht. unfold GameServer.handleChat. exec.
  rewrite Hinfo, Hin. cbn [negb]. rewrite Hroom, Hd, Ht, Hp. cbn [render to_string fst snd].
  rewrite (on_room_broadcast _ _ _ (chat_frame p d t) _ _ _ Hroom) by reflexivity.
  cbn [fst snd]. eexists [_]. split; [reflexivity|done].
Qed.

Lemma chat_event_exact :
  forall (rs : conn -> ReadyState) (ws : conn) (message : value) (s : GameServer.t)
         (info : ClientInfo.t) (room : GameRoom.t) (p d t : string),
    GameServer.clients s !! ws = Some info ->
    truthy (ClientInfo.roomId info) = true ->
    JsMap.get (ClientInfo.roomId info) (GameServer.rooms s) = Some room ->
    ClientInfo.playerId info = VStr p ->
    get_prop message "type" = Normal (VStr "chat") ->
    get_prop message "displayName" = Normal (VStr d) ->
    get_prop message "message" = Normal (VStr t) ->
    completion_of (dispatch (Message rs ws (GameServer.Decodes message)) s) = Normal () /\
    final (dispatch (Message rs ws (GameServer.Decodes message)) s) = s /\
    sends (output (dispatch (Message rs ws (GameServer.Decodes message)) s)) =
      List.map (fun w => (w, chat_frame p d t)) (recipients rs None (GameRoom.players room)).
Proof.
  intros rs ws message s info room p d t Hinfo Hin Hroom Hp Hty Hd Ht.
  destruct (handleChat_exact rs ws message s info room p d t Hinfo Hin Hroom Hp Hd Ht)
    as (logs & Hchat & Hlogs).
  cbn [dispatch]. unfold GameServer.on_message, GameServer.JSON_parse, GameServer.handleMessage.
  exec. rewrite Hinfo. cbn [render to_string fst snd]. rewrite Hty.
  change (strict_equals (VStr "chat") (VStr "join_room")) with false.
  change (strict_equals (VStr "chat") (VStr "chat")) with true.
  cbn iota. rewrite Hchat. cbn [fst snd app].
  split; [done|]. split; [done|].
  cbn [sends flat_map app]. fold (sends (logs ++ List.map (fun w => WsSend w (chat_frame p d t))
                                            (recipients rs None (GameRoom.players room)))).
  by rewrite sends_app, Hlogs, sends_WsSend.
Qed.

(** X11. A chat from a connection whose registry entry names an existing
    room and a string player id [p], with strings [d] and [t] as
    [displayName] and [message], goes to every open member of that room, in
    join order, as the frame [{type:"chat", playerId:p, displayName:d,
    message:t}]: the player id is the one the registry holds for the sender,
    whatever [playerId] the chat itself carries, and the two texts are passed
    on unchanged.  The callback completes normally and the server does not
    change. *)
Theorem X11_chat_is_relayed_with_registry_id :
  forall (rs : conn -> ReadyState) (ws : conn) (message : value) (s : GameServer.t)
         (info : ClientInfo.t) (room : GameRoom.t) (p d t : string),
    GameServer.clients s !! ws = Some info ->
    truthy (ClientInfo.roomId info) = true ->
    JsMap.get (ClientInfo.roomId info) (GameServer.rooms s) = Some room ->
    ClientInfo.playerId info = VStr p ->
    get_prop message "type" = Normal (VStr "chat") ->
    get_prop message "displayName" = Normal (VStr d) ->
    get_prop message "message" = Normal (VStr t) ->
    completion_of (dispatch (Message rs ws (GameServer.Decodes message)) s) = Normal () /\
    final (dispatch (Message rs ws (GameServer.Decodes message)) s) = s /\
    sends (output (dispatch (Message rs ws (GameServer.Decodes message)) s)) =
      List.map (fun w => (w, chat_frame p d t)) (recipients rs None (GameRoom.players room)).
Proof.
  intros rs ws message s info room p d t Hinfo Hin Hroom Hp Hty Hd Ht.
  destruct (handleChat_exact rs ws message s info room p d t Hinfo Hin Hroom Hp Hd Ht)
    as (logs & Hchat & Hlogs).
  cbn [dispatch]. unfold GameServer.on_message, GameServer.JSON_parse, GameServer.handleMessage.
  exec. rewrite Hinfo. cbn [render to_string fst snd]. rewrite Hty.
  change (strict_equals (VStr "chat") (VStr "join_room")) with false.
  change (strict_equals (VStr "chat") (VStr "chat")) with true.
  cbn iota. rewrite Hchat. cbn [fst snd app].
  split; [done|]. split; [done|].
  cbn [sends flat_map app]. fold (sends (logs ++ List.map (fun w => WsSend w (chat_frame p d t))
                                            (recipients rs None (GameRoom.players room)))).
  by rewrite sends_app, Hlogs, sends_WsSend.
Qed.

Lemma X11_chat_witness :
  let s := state_after [Connection 1 "a"; Connection 2 "b";
                        Message all_open 1 (join_room "r1" "p1");
                        Message all_open 2 (join_room "r1" "p2")] in
  let message := VObj 0 [("type", VStr "chat"); ("playerId", VStr "p2");
                         ("displayName", VStr "A"); ("message", VStr "hi")] in
  sends (output (dispatch (Message all_open 1 (GameServer.Decodes message)) s)) =
    [(1, chat_frame "p1" "A" "hi"); (2, chat_frame "p1" "A" "hi")].
Proof.
  intros s message.
  apply (X11_chat_is_relayed_with_registry_id all_open 1 message s
           (ClientInfo.mk "a" (VStr "r1") (VStr "p1"))
           (GameRoom.mk (VStr "r1") [(VStr "p1", Player.mk 1 "a"); (VStr "p2", Player.mk 2 "b")]
                        [VStr "p1"; VStr "p2"])
           "p1" "A" "hi"); reflexivity.
Defined.

Lemma handleActionComplete_exact rs ws message s info room p :
  GameServer.clients s !! ws = Some info ->
  truthy (ClientInfo.roomId info) = true ->
  JsMap.get (ClientInfo.roomId info) (GameServer.rooms s) = Some room ->
  ClientInfo.playerId info = VStr p ->
  exists logs,
    GameServer.handleActionComplete rs ws message s =
      (Normal (), s,
       logs ++ List.map (fun w => WsSend w (relay_frame "action_complete" p))
                 (recipients rs None (GameRoom.players room))) /\
    sends logs = [].
Proof.
  intros Hinfo Hin Hroom Hp. unfold GameServer.handleActionComplete. exec.
  rewrite Hinfo, Hin. cbn [negb]. rewrite Hroom, Hp. cbn [render to_string fst snd].
  rewrite (on_room_broadcast _ _ _ (relay_frame "action_complete" p) _ _ _ Hroom) by reflexivity.
  cbn [fst snd]. eexists [_]. split; [reflexivity|done].
Qed.

Lemma handleGameOver_exact rs ws message s info room p :
  GameServer.clients s !! ws = Some info ->
  truthy (ClientInfo.roomId info) = true ->
  JsMap.get (ClientInfo.roomId info) (GameServer.rooms s) = Some room ->
  ClientInfo.playerId info = VStr p ->
  exists logs,
    GameServer.handleGameOver rs ws message s =
      (Normal (), s,
       logs ++ List.map (fun w => WsSend w (relay_frame "game_over" p))
                 (recipients rs None (GameRoom.players room))) /\
    sends logs = [].
Proof.
  intros Hinfo Hin Hroom Hp. unfold GameServer.handleGameOver. exec.
  rewrite Hinfo, Hin. cbn [negb]. rewrite Hroom, Hp. cbn [render to_string fst snd].
  rewrite (on_room_broadcast _ _ _ (relay_frame "game_over" p) _ _ _ Hroom) by reflexivity.
  cbn [fst snd]. eexists [_]. split; [reflexivity|done].
Qed.

(** X12. An action_complete or a game_over from a connection whose registry
    entry names an existing room and a string player id [p] goes to every
    open member of that room, the sender included, in join order, as the
    two-field frame [{type, playerId:p}].  Nothing else of the inbound
    message is read: whatever further fields it carries, a [playerId] of its
    own among them, the frame is the same.  The callback completes normally
    and the server does not change. *)
Theorem X12_action_and_game_over_relay :
  forall (rs : conn -> ReadyState) (ws : conn) (message : value) (s : GameServer.t)
         (info : ClientInfo.t) (room : GameRoom.t) (p kind : string),
    GameServer.clients s !! ws = Some info ->
    truthy (ClientInfo.roomId info) = true ->
    JsMap.get (ClientInfo.roomId info) (GameServer.rooms s) = Some room ->
    ClientInfo.playerId info = VStr p ->
    kind = "action_complete" \/ kind = "game_over" ->
    get_prop message "type" = Normal (VStr kind) ->
    completion_of (dispatch (Message rs ws (GameServer.Decodes message)) s) = Normal () /\
    final (dispatch (Message rs ws (GameServer.Decodes message)) s) = s /\
    sends (output (dispatch (Message rs ws (GameServer.Decodes message)) s)) =
      List.map (fun w => (w, relay_frame kind p)) (recipients rs None (GameRoom.players room)).
Proof.
  intros rs ws message s info room p kind Hinfo Hin Hroom Hp Hkind Hty.
  destruct (handleActionComplete_exact rs ws message s info room p Hinfo Hin Hroom Hp)
    as (logs1 & Hac & Hlogs1).
  destruct (handleGameOver_exact rs ws message s info room p Hinfo Hin Hroom Hp)
    as (logs2 & Hgo & Hlogs2).
  cbn [dispatch]. unfold GameServer.on_message, GameServer.JSON_parse, GameServer.handleMessage.
  exec. rewrite Hinfo. cbn [render to_string fst snd]. rewrite Hty.
  destruct Hkind as [-> | ->].
  - change (strict_equals (VStr "action_complete") (VStr "join_room")) with false.
    change (strict_equals (VStr "action_complete") (VStr "chat")) with false.
    change (strict_equals (VStr "action_complete") (VStr "game_over")) with false.
    change (strict_equals (VStr "action_complete") (VStr "action_complete")) with true.
    cbn iota. rewrite Hac. cbn [fst snd app].
    split; [done|]. split; [done|].
    cbn [sends flat_map app].
    fold (sends (logs1 ++ List.map (fun w => WsSend w (relay_frame "action_complete" p))
                   (recipients rs None (GameRoom.players room)))).
    by rewrite sends_app, Hlogs1, sends_WsSend.
  - change (strict_equals (VStr "game_over") (VStr "join_room")) with false.
    change (strict_equals (VStr "game_over") (VStr "chat")) with false.
    change (strict_equals (VStr "game_over") (VStr "game_over")) with true.
    cbn iota. rewrite Hgo. cbn [fst snd app].
    split; [done|]. split; [done|].
    cbn [sends flat_map app].
    fold (sends (logs2 ++ List.map (fun w => WsSend w (relay_frame "game_over" p))
                   (recipients rs None (GameRoom.players room)))).
    by rewrite sends_app, Hlogs2, sends_WsSend.
Qed.

Lemma X12_relay_witness :
  let s := state_after [Connection 1 "a"; Connection 2 "b";
                        Message all_open 1 (join_room "r1" "p1");
                        Message all_open 2 (join_room "r1" "p2")] in
  let message := VObj 0 [("type", VStr "game_over"); ("playerId", VStr "p1");
                         ("winner", VStr "p2")] in
  sends (output (dispatch (Message (closed_only 1) 2 (GameServer.Decodes message)) s)) =
    [(2, relay_frame "game_over" "p2")].
Proof.
  intros s message.
  apply (X12_action_and_game_over_relay (closed_only 1) 2 message s
           (ClientInfo.mk "b" (VStr "r1") (VStr "p2"))
           (GameRoom.mk (VStr "r1") [(VStr "p1", Player.mk 1 "a"); (VStr "p2", Player.mk 2 "b")]
                        [VStr "p1"; VStr "p2"])
           "p2" "game_over"); try reflexivity.
  right. reflexivity.
Defined.

Lemma member_In_recipients rs players p member :
  JsMap.get p players = Some member ->
  rs (Player.ws member) = OPEN ->
  In (Player.ws member) (recipients rs None players).
Proof.
  intros Hget Hopen. apply get_In in Hget as (k & Hin & _).
  unfold recipients. apply List.filter_In. split.
  - apply List.in_map_iff. by exists (k, member).
  - by rewrite Hopen.
Qed.

(** X13. In every state a run can reach, a chat is echoed to its sender: if
    the sender's registry entry names a room and a string player id [p],
    the chat has strings as [displayName] and [message], and the sender's
    socket is OPEN, then the sender is among those who are sent the chat
    frame.  (The room is there and has the sender as member, by the
    invariant on the registry.) *)
Theorem X13_chat_reaches_its_sender :
  forall (events : list event) (rs : conn -> ReadyState) (ws : conn) (message : value)
         (info : ClientInfo.t) (p d t : string),
    GameServer.clients (state_after events) !! ws = Some info ->
    truthy (ClientInfo.roomId info) = true ->
    ClientInfo.playerId info = VStr p ->
    get_prop message "type" = Normal (VStr "chat") ->
    get_prop message "displayName" = Normal (VStr d) ->
    get_prop message "message" = Normal (VStr t) ->
    rs ws = OPEN ->
    In (ws, chat_frame p d t)
       (sends (output (dispatch (Message rs ws (GameServer.Decodes message)) (state_after events)))).
Proof.
  intros events rs ws message info p d t Hinfo Hin Hp Hty Hd Ht Hopen.
  assert (Hreg : registered_member (state_after events)).
  { apply run_registered_member. intros w i. cbn. by rewrite lookup_empty. }
  destruct (Hreg ws info Hinfo Hin) as (room & Hroom & Hmine).
  destruct (chat_event_exact rs ws message _ info room p d t Hinfo Hin Hroom Hp Hty Hd Ht)
    as (_ & _ & ->).
  apply List.in_map_iff. exists ws. split; [done|].
  by apply (member_In_recipients rs _ _ _ Hmine).
Qed.

Lemma X13_chat_reaches_its_sender_witness :
  let events := [Connection 1 "a"; Connection 2 "b";
                 Message all_open 1 (join_room "r1" "p1");
                 Message all_open 2 (join_room "r1" "p2");
                 Close (closed_only 1) 1 "1000" ""] in
  let message := VObj 0 [("type", VStr "chat"); ("displayName", VStr "B"); ("message", VStr "gg")] in
  In (2, chat_frame "p2" "B" "gg")
     (sends (output (dispatch (Message all_open 2 (GameServer.Decodes message)) (state_after events)))).
Proof.
  intros events message.
  apply (X13_chat_reaches_its_sender events all_open 2 message
           (ClientInfo.mk "b" (VStr "r1") (VStr "p2")) "p2" "B" "gg"); reflexivity.
Defined.

(** ** The registry, entry by entry *)

Lemma join_state_clients ws roomId playerId s :
  GameServer.clients (join_state ws roomId playerId s) = GameServer.clients s \/
  exists info,
    GameServer.clients s !! ws = Some info /\
    GameServer.clients (join_state ws roomId playerId s)
      = <[ws := ClientInfo.mk (ClientInfo.id info) roomId playerId]> (GameServer.clients s).
Proof.
  unfold join_state.
  destruct (GameServer.clients s !! ws) as [info|] eqn:Hinfo; [|by left].
  destruct (negb (truthy roomId) || negb (truthy playerId)); [by left|].
  destruct (JsMap.get roomId (GameServer.rooms s)) as [room|].
  - destruct (JsMap.has playerId (GameRoom.players room)); [by left|]. right. by exists info.
  - destruct (to_string roomId); [right; by exists info|by left].
Qed.

Lemma leave_state_clients ws s :
  GameServer.clients (leave_state ws s) = delete ws (GameServer.clients s).
Proof.
  unfold leave_state. destruct (GameServer.clients s !! ws) eqn:Hinfo; [done|].
  symmetry. by apply delete_id.
Qed.

Lemma dispatch_clients e s :
  GameServer.clients (final (dispatch e s)) = GameServer.clients s \/
  GameServer.clients (final (dispatch e s)) = delete (conn_of e) (GameServer.clients s) \/
  (exists clientId, e = Connection (conn_of e) clientId /\
     GameServer.clients (final (dispatch e s))
       = <[conn_of e := ClientInfo.mk clientId VNull VNull]> (GameServer.clients s)) \/
  (exists info roomId playerId,
     GameServer.clients s !! conn_of e = Some info /\
     GameServer.clients (final (dispatch e s))
       = <[conn_of e := ClientInfo.mk (ClientInfo.id info) roomId playerId]> (GameServer.clients s)).
Proof.
  destruct e as [ws clientId|rs ws data|rs ws code reason|ws error]; cbn [dispatch conn_of].
  - right. right. left. exists clientId. done.
  - destruct (on_message_summary rs ws data s) as (out & s' & -> & Hsum).
    unfold final. cbn [fst snd].
    destruct data as [|message]; [left; by destruct Hsum as [-> _]|].
    destruct (join_request message) as [[roomId playerId]|]; [|left; by destruct Hsum as [-> _]].
    destruct Hsum as [-> _].
    destruct (join_state_clients ws roomId playerId s) as [->|(info & Hinfo & ->)]; [by left|].
    right. right. right. by exists info, roomId, playerId.
  - unfold GameServer.on_close.
    destruct (handleDisconnect_outcome rs ws (Some code) (Some reason) s) as (c & out & -> & _).
    unfold final. cbn [fst snd]. destruct c; [|by left].
    right. left. apply leave_state_clients.
  - by left.
Qed.

(** X14. An event touches at most the registry entry of its own socket:
    the entry of every other socket is, after the event, what it was
    before.  An event other than a connection creates no entry, and never
    changes the [id] of one: the client id given at connection time stays
    with the connection for as long as it is registered. *)
Theorem X14_event_touches_only_its_own_entry :
  forall (e : event) (s : GameServer.t) (w : conn),
    (w <> conn_of e ->
     GameServer.clients (final (dispatch e s)) !! w = GameServer.clients s !! w) /\
    (is_connection e = false ->
     forall info', GameServer.clients (final (dispatch e s)) !! w = Some info' ->
       exists info, GameServer.clients s !! w = Some info /\
                    ClientInfo.id info' = ClientInfo.id info).
Proof.
  intros e s w.
  destruct (dispatch_clients e s)
    as [->|[->|[(clientId & He & ->)|(info & roomId & playerId & Hinfo & ->)]]].
  - split; [done|]. intros _ info' Hi. by exists info'.
  - split.
    + intros Hne. by rewrite lookup_delete_ne.
    + intros _ info' Hi. apply lookup_delete_Some in Hi as [_ Hi]. by exists info'.
  - split.
    + intros Hne. by rewrite lookup_insert_ne.
    + rewrite He. done.
  - split.
    + intros Hne. by rewrite lookup_insert_ne.
    + intros _ info'. destruct (decide (conn_of e = w)) as [<-|Hne].
      * rewrite lookup_insert_eq. intros [= <-]. by exists info.
      * rewrite lookup_insert_ne by done. intros Hi. by exists info'.
Qed.

Lemma X14_event_touches_witness :
  let s := state_after [Connection 1 "a"; Connection 2 "b";
                        Message all_open 1 (join_room "r1" "p1")] in
  let e := Message all_open 2 (join_room "r1" "p2") in
  GameServer.clients (final (dispatch e s)) !! 1 = GameServer.clients s !! 1 /\
  exists info, GameServer.clients s !! 2 = Some info /\ "b" = ClientInfo.id info.
Proof.
  intros s e.
  destruct (X14_event_touches_only_its_own_entry e s 1) as [H1 _].
  destruct (X14_event_touches_only_its_own_entry e s 2) as [_ H2].
  split; [apply H1; cbn; lia|].
  apply (H2 eq_refl (ClientInfo.mk "b" (VStr "r1") (VStr "p2"))). reflexivity.
Defined.

(** ** Empty rooms *)

Lemma set_nonempty {V} k (v : V) m : JsMap.set k v m <> [].
Proof. destruct m as [|[k0 v0] m]; cbn; [done|]. by destruct (same_value_zero k0 k). Qed.

Lemma size_nonempty {V} (m : list (value * V)) : JsMap.size m <> 0 <-> m <> [].
Proof. by destruct m. Qed.

Lemma rooms_inhabited_join ws roomId playerId s :
  rooms_inhabited (GameServer.rooms s) ->
  rooms_inhabited (GameServer.rooms (join_state ws roomId playerId s)).
Proof.
  intros Hs. unfold join_state.
  destruct (GameServer.clients s !! ws) as [info|]; [|done].
  destruct (negb (truthy roomId) || negb (truthy playerId)); [done|].
  destruct (JsMap.get roomId (GameServer.rooms s)) as [room|] eqn:Hroom.
  - destruct (JsMap.has playerId (GameRoom.players room)); [done|].
    intros k v Hin Hk. cbn [joined GameServer.rooms] in Hin.
    destruct (In_set_get _ _ _ _ _ Hin) as [Hold|[-> _]]; [by eapply Hs|].
    apply set_nonempty.
  - destruct (to_string roomId) eqn:Hr; intros k v Hin Hk; cbn [joined GameServer.rooms] in Hin;
      (destruct (In_set_get _ _ _ _ _ Hin) as [Hold|[-> Hkey]]; [by eapply Hs|]).
    + apply set_nonempty.
    + rewrite Hroom in Hkey. subst k. destruct Hk as [line Hk]. congruence.
Qed.

Lemma rooms_inhabited_leave ws s :
  rooms_inhabited (GameServer.rooms s) -> rooms_inhabited (GameServer.rooms (leave_state ws s)).
Proof.
  intros Hs. unfold leave_state.
  destruct (GameServer.clients s !! ws) as [info|]; [|done]. cbn [GameServer.rooms].
  destruct (truthy (ClientInfo.roomId info) && truthy (ClientInfo.playerId info)); [|done].
  destruct (JsMap.get (ClientInfo.roomId info) (GameServer.rooms s)) as [room|]; [|done].
  unfold rooms_after_leave. destruct (Nat.eqb _ 0) eqn:Hsz; intros k v Hin Hk.
  - apply In_delete in Hin. by eapply Hs.
  - destruct (In_set_get _ _ _ _ _ Hin) as [Hold|[-> _]]; [by eapply Hs|].
    apply Nat.eqb_neq in Hsz. by apply size_nonempty.
Qed.

Lemma dispatch_rooms_inhabited e s :
  rooms_inhabited (GameServer.rooms s) -> rooms_inhabited (GameServer.rooms (final (dispatch e s))).
Proof.
  intros Hs.
  destruct e as [ws clientId|rs ws data|rs ws code reason|ws error]; cbn [dispatch]; try done.
  - destruct (on_message_summary rs ws data s) as (out & s' & -> & Hsum).
    unfold final. cbn [fst snd].
    destruct data as [|message]; [by destruct Hsum as [-> _]|].
    destruct (join_request message) as [[roomId playerId]|]; [|by destruct Hsum as [-> _]].
    destruct Hsum as [-> _]. by apply rooms_inhabited_join.
  - unfold GameServer.on_close.
    destruct (handleDisconnect_outcome rs ws (Some code) (Some reason) s) as (c & out & -> & _).
    unfold final. cbn [fst snd]. destruct c; [by apply rooms_inhabited_leave|done].
Qed.

Lemma run_rooms_inhabited events : forall s,
  rooms_inhabited (GameServer.rooms s) -> rooms_inhabited (GameServer.rooms (final (run events s))).
Proof.
  induction events as [|e events IH]; intros s Hs; [done|].
  cbn [run]. unfold mbind, M_bind.
  pose proof (dispatch_rooms_inhabited e s Hs) as Hstep.
  destruct (dispatch e s) as [[[[]|err] s1] out1]; unfold final in *; cbn [fst snd] in *; [|done].
  specialize (IH _ Hstep). by destruct (run events s1) as [[c2 s2] out2].
Qed.

(** X15. After any run, a room in the table whose key converts to a string
    (every string, number, boolean and plain object does) has at least one
    member: the room of the last member to leave is deleted, and a room is
    never left in the table empty, except under a key that does not
    convert. *)
Theorem X15_no_empty_room_under_printable_key :
  forall (events : list event) (k : value) (room : GameRoom.t),
    In (k, room) (GameServer.rooms (state_after events)) ->
    printable k ->
    0 < JsMap.size (GameRoom.players room).
Proof.
  intros events k room Hin Hk.
  assert (Hs : rooms_inhabited (GameServer.rooms (state_after events))).
  { apply run_rooms_inhabited. intros k' room' []. }
  specialize (Hs k room Hin Hk). apply size_nonempty in Hs. lia.
Qed.

Lemma X15_no_empty_room_witness :
  let events := [Connection 1 "a"; Connection 2 "b";
                 Message all_open 1 (join_room "r1" "p1");
                 Message all_open 2 (join_room "r1" "p2");
                 Close (closed_only 1) 1 "1000" ""] in
  0 < JsMap.size [(VStr "p2", Player.mk 2 "b")].
Proof.
  intros events.
  apply (X15_no_empty_room_under_printable_key events (VStr "r1")
           (GameRoom.mk (VStr "r1") [(VStr "p2", Player.mk 2 "b")] [VStr "p2"])).
  - left. reflexivity.
  - exists "r1". reflexivity.
Defined.

(** X16. The exception is real.  A join_room from a registered connection,
    with truthy ids, for a room id that the table does not have and that
    does not convert to a string (an object with a field named [toString]),
    creates the room and then throws on the log line that announces it.  The
    message callback catches the error, so the event completes normally; the
    new room stays in the table, last and without members, the sender is not
    made a member and its registry entry is not changed, and nothing is
    written to any socket. *)
Theorem X16_join_with_unprintable_room_leaves_empty_room :
  forall (rs : conn -> ReadyState) (ws : conn) (message : value) (s : GameServer.t)
         (info : ClientInfo.t) (roomId playerId : value),
    GameServer.clients s !! ws = Some info ->
    join_request message = Some (roomId, playerId) ->
    truthy roomId = true -> truthy playerId = true ->
    JsMap.get roomId (GameServer.rooms s) = None ->
    to_string roomId = None ->
    completion_of (dispatch (Message rs ws (GameServer.Decodes message)) s) = Normal () /\
    final (dispatch (Message rs ws (GameServer.Decodes message)) s) =
      GameServer.mk (GameServer.rooms s ++ [(roomId, GameRoom.new roomId)]) (GameServer.clients s) /\
    sends (output (dispatch (Message rs ws (GameServer.Decodes message)) s)) = [].
Proof.
  intros rs ws message s info roomId playerId Hinfo Hreq Hr Hp Hroom Hline.
  cbn [dispatch].
  destruct (on_message_summary rs ws (GameServer.Decodes message) s) as (out & s' & -> & Hsum).
  cbn beta iota in Hsum. rewrite Hreq in Hsum. destruct Hsum as [-> Hout].
  unfold completion_of, final, output. cbn [fst snd]. rewrite Hout.
  unfold join_state, join_sends.
  rewrite Hinfo, Hr, Hp, Hroom, Hline. cbn [negb orb].
  rewrite set_fresh by (by apply has_false_get). done.
Qed.

Lemma X16_join_with_unprintable_room_witness :
  let s := state_after [Connection 1 "a"] in
  let roomId := VObj 7 [("toString", VNull)] in
  let message := VObj 0 [("type", VStr "join_room"); ("roomId", roomId); ("playerId", VStr "p1")] in
  final (dispatch (Message all_open 1 (GameServer.Decodes message)) s) =
    GameServer.mk [(roomId, GameRoom.new roomId)] (GameServer.clients s).
Proof.
  intros s roomId message.
  apply (X16_join_with_unprintable_room_leaves_empty_room all_open 1 message s
           (ClientInfo.mk "a" VNull VNull) roomId (VStr "p1")); reflexivity.
Defined.

(** ** Round trips *)

Lemma same_value_zero_is_VStr k r : same_value_zero k (VStr r) = true -> k = VStr r.
Proof. destruct k; cbn; try done. intros H. by apply String.eqb_eq in H as ->. Qed.

Lemma room_without_with k ws clientId playerId room :
  room_wf k room ->
  JsMap.has playerId (GameRoom.players room) = false ->
  truthy playerId = true ->
  room_without playerId (room_with ws clientId playerId room) = room.
Proof.
  intros Hwf Hfresh Hp.
  destruct (room_wf_with k ws clientId playerId room Hwf Hfresh Hp) as (_ & _ & Hm' & Ht' & Hd').
  unfold mirrored in Hm'. unfold room_without. rewrite Hm'.
  rewrite (playerIds_after_delete _ _ Ht' Hd').
  cbn [room_with GameRoom.players GameRoom.id].
  rewrite delete_set_same, delete_absent by done.
  destruct Hwf as (_ & _ & Hm & _). unfold mirrored in Hm. rewrite <- Hm. by destruct room.
Qed.

Lemma join_then_close rs rs' ws info r p code reason s :
  table_wf (GameServer.rooms s) ->
  rooms_inhabited (GameServer.rooms s) ->
  GameServer.clients s !! ws = Some info ->
  r <> "" -> p <> "" ->
  (forall room, JsMap.get (VStr r) (GameServer.rooms s) = Some room ->
     JsMap.has (VStr p) (GameRoom.players room) = false) ->
  exists out,
    run [Message rs ws (join_room r p); Close rs' ws code reason] s =
      (Normal (), GameServer.mk (GameServer.rooms s) (delete ws (GameServer.clients s)), out).
Proof.
  intros [Hd Hwf] Hinh Hinfo Hr Hp Hfresh.
  pose proof (truthy_VStr r Hr) as Htr. pose proof (truthy_VStr p Hp) as Htp.
  cbn [run dispatch].
  destruct (on_message_summary rs ws (join_room r p) s) as (out1 & s1 & Heq1 & Hsum).
  assert (Hs1 : s1 = join_state ws (VStr r) (VStr p) s) by exact (proj1 Hsum). clear Hsum.
  assert (Hj : exists room0,
    s1 = joined ws info (VStr r) (VStr p) room0 s /\
    rooms_after_leave (VStr r) (VStr p) (room_with ws (ClientInfo.id info) (VStr p) room0)
      (JsMap.set (VStr r) (room_with ws (ClientInfo.id info) (VStr p) room0) (GameServer.rooms s))
    = GameServer.rooms s).
  { unfold join_state in Hs1. rewrite Hinfo, Htr, Htp in Hs1. cbn [negb orb] in Hs1.
    unfold rooms_after_leave. cbn [room_with GameRoom.players].
    destruct (JsMap.get (VStr r) (GameServer.rooms s)) as [room|] eqn:Hroom.
    - rewrite (Hfresh room eq_refl) in Hs1. exists room. split; [done|].
      rewrite delete_set_same, delete_absent by (by apply Hfresh).
      destruct (get_In _ _ _ Hroom) as (k & Hin & Hk). apply same_value_zero_is_VStr in Hk as ->.
      assert (Hne : JsMap.size (GameRoom.players room) <> 0).
      { apply size_nonempty. apply (Hinh _ _ Hin). by exists r. }
      apply Nat.eqb_neq in Hne. rewrite Hne.
      rewrite set_set_same.
      rewrite (room_without_with (VStr r)); [by apply set_get_id|by apply Hwf|by apply Hfresh|done].
    - cbn [to_string] in Hs1. exists (GameRoom.new (VStr r)). split; [done|].
      cbn [GameRoom.new GameRoom.players JsMap.set JsMap.delete List.filter fst].
      rewrite same_value_zero_refl. cbn [negb JsMap.size List.length Nat.eqb].
      rewrite delete_set_same. apply delete_absent. by apply has_false_get. }
  destruct Hj as (room0 & -> & Hback).
  unfold mbind, M_bind. rewrite Heq1.
  unfold GameServer.on_close.
  destruct (handleDisconnect_member rs' ws (Some code) (Some reason)
              (joined ws info (VStr r) (VStr p) room0 s)
              (ClientInfo.mk (ClientInfo.id info) (VStr r) (VStr p)) r p)
    as (before & after & _ & _ & ->); try done.
  { unfold joined. cbn [GameServer.clients]. apply lookup_insert_eq. }
  unfold joined at 1. cbn [GameServer.rooms]. rewrite get_set_same.
  unfold joined. cbn [GameServer.rooms GameServer.clients]. rewrite Hback.
  rewrite delete_insert_eq. unfold mret, M_ret. eexists. reflexivity.
Qed.

(** X17. Joining and then closing gives the room table back.  In any state
    a run can reach, let a registered connection send a join_room with
    non-empty strings [r] and [p], where room [r] does not hold [p], and let
    its socket close next.  Both callbacks complete normally; afterwards the
    room table is exactly what it was before the join (a room created by the
    join is deleted again, an existing room has its members and its
    [playerIds] as before), and the registry has lost the connection's
    entry and is otherwise unchanged. *)
Theorem X17_join_then_close_restores_rooms :
  forall (events : list event) (rs rs' : conn -> ReadyState) (ws : conn)
         (info : ClientInfo.t) (r p code reason : string),
    GameServer.clients (state_after events) !! ws = Some info ->
    r <> "" -> p <> "" ->
    (forall room, JsMap.get (VStr r) (GameServer.rooms (state_after events)) = Some room ->
       JsMap.has (VStr p) (GameRoom.players room) = false) ->
    completion_of (run [Message rs ws (join_room r p); Close rs' ws code reason]
                       (state_after events)) = Normal () /\
    final (run [Message rs ws (join_room r p); Close rs' ws code reason] (state_after events)) =
      GameServer.mk (GameServer.rooms (state_after events))
                    (delete ws (GameServer.clients (state_after events))).
Proof.
  intros events rs rs' ws info r p code reason Hinfo Hr Hp Hfresh.
  destruct (join_then_close rs rs' ws info r p code reason (state_after events))
    as (out & ->); try done.
  - apply run_table_wf. split; [done|]. intros k room [].
  - apply run_rooms_inhabited. intros k room [].
Qed.

Lemma X17_join_then_close_witness :
  let events := [Connection 1 "a"; Connection 2 "b";
                 Message all_open 1 (join_room "r1" "p1")] in
  final (run [Message all_open 2 (join_room "r1" "p2"); Close (closed_only 2) 2 "1000" ""]
             (state_after events)) =
    GameServer.mk (GameServer.rooms (state_after events))
                  (delete 2 (GameServer.clients (state_after events))).
Proof.
  intros events.
  apply (X17_join_then_close_restores_rooms events all_open (closed_only 2) 2
           (ClientInfo.mk "b" VNull VNull) "r1" "p2" "1000" "").
  - reflexivity.
  - discriminate.
  - discriminate.
  - intros room [= <-]. reflexivity.
Defined.

(** X18. A connection that never joins leaves no trace.  For a socket the
    registry does not know, the connection callback followed by the close
    callback, whatever the close code and reason, completes normally, writes
    to no socket, and gives back the server exactly as it was: same rooms,
    same registry. *)
Theorem X18_connect_then_close_is_identity :
  forall (rs : conn -> ReadyState) (ws : conn) (clientId code reason : string)
         (s : GameServer.t),
    GameServer.clients s !! ws = None ->
    completion_of (run [Connection ws clientId; Close rs ws code reason] s) = Normal () /\
    final (run [Connection ws clientId; Close rs ws code reason] s) = s /\
    sends (output (run [Connection ws clientId; Close rs ws code reason] s)) = [].
Proof.
  intros rs ws clientId code reason s Hnew.
  cbn [run dispatch].
  unfold GameServer.on_connection, GameServer.on_close, GameServer.handleDisconnect. exec.
  rewrite lookup_insert_eq. cbn [ClientInfo.id ClientInfo.roomId ClientInfo.playerId].
  cbn [render to_string optional truthy andb fst snd GameServer.rooms GameServer.clients].
  rewrite (delete_insert_id _ _ _ Hnew), server_eta. done.
Qed.

Lemma X18_connect_then_close_witness :
  let s := state_after [Connection 1 "a"; Message all_open 1 (join_room "r1" "p1")] in
  final (run [Connection 2 "b"; Close (closed_only 2) 2 "1006" ""] s) = s.
Proof.
  intros s.
  apply (X18_connect_then_close_is_identity (closed_only 2) 2 "b" "1006" "" s). reflexivity.
Defined.
